(** * The QA bot: retrieval core ([find_candidates.py]) and front end
      ([bot.py])

    A shallow embedding of the retrieval pipeline: query normalisation, the
    float32 BLOB codec, row normalisation, the embedding loader, the query
    cache and [hybrid_search]; and of the Telegram handlers that call it,
    with the cards, keyboards and long messages they send.  The properties
    proved about them follow the definitions.

    Conventions.
    - A Python [str] is the list of its code points ([pystr]).
    - A [float32] array element is its 32-bit pattern ([f32], a [Z] in
      [0, 2^32)); [tobytes]/[frombuffer] move that pattern to and from four
      little-endian bytes without interpreting it.  Where its value counts,
      in row normalisation, it is an IEEE 754 binary32 number
      ([spec_float], with the operations of the Standard Library).
    - A Python [float] (binary64) is a primitive float; similarities are
      compared with the primitive [<].
    - A raised exception is the [Raise] case of [result]; code that touches
      the database, the module globals or an external library runs in the
      state-and-exception monad [M] over [World].
    - A handler of the bot is a function on the state [Bot], which records
      the calls that the Telegram API has carried out, in order. *)

From Stdlib Require Import ZArith List Lia PrimFloat SpecFloat QArith.
From coqutil Require Import Byte Word.LittleEndianList.
From stdpp Require Import base option list gmap strings sorting pretty.

#[local] Open Scope Z_scope.

(* ================================================================= *)
(** ** Exceptions *)

(** The two [RuntimeError]s the module raises. *)
Inductive runtime_error : Type :=
| NoEmbeddings     (* load_all_embeddings: no vector in qa_vec *)
| NeedConnection.  (* init_models_once: index to build and no connection *)

Inductive exn : Type :=
| ValueError          (* numpy: short buffer, ragged vstack *)
| IndexError          (* numpy: position outside the id array *)
| UnicodeEncodeError  (* str.encode on a lone surrogate *)
| OperationalError    (* sqlite3: read-only or locked database, missing table *)
| RuntimeError (why : runtime_error)   (* raised by the module itself *)
| AttributeError      (* a method called on None *)
| TypeError           (* None subscripted *)
| ExternalError       (* SentenceTransformer / faiss failures *)
| OverflowError       (* sqlite3: an int outside 64 bits bound to a query *)
| BadRequest.         (* Telegram: an edit to what the message already shows *)

Inductive result (A : Type) : Type :=
| Ok (a : A)
| Raise (e : exn).
Arguments Ok {A} a.
Arguments Raise {A} e.

#[export] Instance result_ret : MRet result := fun _ a => Ok a.
#[export] Instance result_bind : MBind result := fun _ _ f r =>
  match r with Ok a => f a | Raise e => Raise e end.
#[export] Instance result_fmap : FMap result := fun _ _ f r =>
  match r with Ok a => Ok (f a) | Raise e => Raise e end.

(** [for x in xs: ys.append(f x)] with a body that may raise. *)
Fixpoint mapR {A B} (f : A -> result B) (xs : list A) : result (list B) :=
  match xs with
  | [] => Ok []
  | x :: xs' =>
      match f x with
      | Raise e => Raise e
      | Ok y => match mapR f xs' with
                | Raise e => Raise e
                | Ok ys => Ok (y :: ys)
                end
      end
  end.

(* ================================================================= *)
(** ** Python strings and [norm] *)

Abbreviation pystr := (list N).

(** Code points of an ASCII literal. *)
Definition str (s : string) : pystr :=
  map Ascii.N_of_ascii (String.list_ascii_of_string s).

(** [str.isspace] for one code point; [str.strip] and the regex class [\s]
    on [str] patterns use the same predicate. *)
Definition isspace (c : N) : bool :=
  ((9 <=? c) && (c <=? 13) || (28 <=? c) && (c <=? 32)
   || (c =? 133) || (c =? 160) || (c =? 5760)
   || (8192 <=? c) && (c <=? 8202)
   || (c =? 8232) || (c =? 8233) || (c =? 8239) || (c =? 8287)
   || (c =? 12288))%N.

Definition SPACE : N := 32%N.

Fixpoint lstrip (s : pystr) : pystr :=
  match s with
  | [] => []
  | c :: r => if isspace c then lstrip r else s
  end.

Definition rstrip (s : pystr) : pystr := reverse (lstrip (reverse s)).

Definition strip (s : pystr) : pystr := rstrip (lstrip s).

(** [re.sub(r"\s+", " ", s)]: every maximal run of whitespace becomes one
    space.  [in_run] tells that the previous character belonged to a run
    whose space has already been emitted. *)
Fixpoint sub_ws_from (in_run : bool) (s : pystr) : pystr :=
  match s with
  | [] => []
  | c :: r =>
      if isspace c
      then (if in_run then sub_ws_from true r else SPACE :: sub_ws_from true r)
      else c :: sub_ws_from false r
  end.

Definition sub_ws (s : pystr) : pystr := sub_ws_from false s.

(** [norm(s)]: [re.sub(r"\s+", " ", (s or "").strip())]; [None] is the
    missing string. *)
Definition norm (s : option pystr) : pystr :=
  sub_ws (strip (default [] s)).

(* ================================================================= *)
(** ** float32 vectors and BLOBs *)

Abbreviation f32 := Z (only parsing).

Definition is_f32 (x : Z) : Prop := 0 <= x < 2 ^ 32.

(** [n] consecutive little-endian float32 items read from a buffer. *)
Fixpoint read_f32s (n : nat) (b : list byte) : list f32 :=
  match n with
  | O => []
  | S n' => le_combine (take 4 b) :: read_f32s n' (drop 4 b)
  end.

(** [np.frombuffer(b, dtype=np.float32, count=count)].  A negative count
    reads the whole buffer, whose size must then be a multiple of the item
    size; otherwise the buffer must hold at least [count] items. *)
Definition np_frombuffer (b : list byte) (count : Z) : result (list f32) :=
  let s := Z.of_nat (length b) in
  if count <? 0 then
    if s mod 4 =? 0 then Ok (read_f32s (Z.to_nat (s / 4)) b)
    else Raise ValueError
  else
    if s <? count * 4 then Raise ValueError
    else Ok (read_f32s (Z.to_nat count) b).

Definition blob_to_vec (b : list byte) (dim : Z) : result (list f32) :=
  np_frombuffer b dim.

(** [vec_to_blob]: on an array that already is float32, [np.asarray(v,
    dtype=np.float32)] returns it as is and [tobytes] lays the items out in
    order, least significant byte first. *)
Definition vec_to_blob (v : list f32) : list byte :=
  flat_map (le_split 4) v.

(* ================================================================= *)
(** ** Row normalisation *)

(** The arithmetic [l2_normalize_rows] needs from its element type. *)
Class NumOps (F : Type) : Type := {
  num_zero : F;
  num_one : F;
  num_add : F -> F -> F;
  num_mul : F -> F -> F;
  num_div : F -> F -> F;
  num_sqrt : F -> F;
  num_is_zero : F -> bool;   (* [x == 0] *)
}.

(** One entry of [np.linalg.norm(X, axis=1, keepdims=True)]: the square
    root of the sum of the squares of a row. *)
Definition row_norm {F} `{NumOps F} (row : list F) : F :=
  num_sqrt (foldl (fun acc x => num_add acc (num_mul x x)) num_zero row).

Definition l2_normalize_rows {F} `{NumOps F} (X : list (list F)) : list (list F) :=
  let norms := map row_norm X in
  (* norms[norms == 0] = 1.0 *)
  let norms := map (fun n => if num_is_zero n then num_one else n) norms in
  (* X / norms, broadcast along each row *)
  zip_with (fun row n => map (fun x => num_div x n) row) X norms.

(** *** float32 arithmetic

    [np.asarray(X, dtype=np.float32)] makes every element a float32, and
    the norm, the comparison with zero and the division are then taken in
    float32.  The float32 values are those of IEEE 754 binary32, a
    significand of 24 bits and exponents below 128, with the operations of
    the Standard Library's specification of IEEE arithmetic, rounding to
    nearest even; a NaN has no payload. *)
Definition f32_prec : Z := 24.
Definition f32_emax : Z := 128.

(** The value of a 32-bit pattern: a sign bit, 8 bits of exponent and 23
    bits of significand. *)
Definition f32_decode (x : Z) : spec_float :=
  let s := Z.testbit x 31 in
  let e := Z.land (Z.shiftr x 23) 255 in
  let m := Z.land x (2 ^ 23 - 1) in
  if e =? 255 then (if m =? 0 then S754_infinity s else S754_nan)
  else if e =? 0 then
    match m with Zpos p => S754_finite s p (-149) | _ => S754_zero s end
  else
    match m + 2 ^ 23 with
    | Zpos p => S754_finite s p (e - 150)
    | _ => S754_nan
    end.

(** [norms == 0] holds of both zeros and of nothing else. *)
Definition binary32_ops : NumOps spec_float := {|
  num_zero := S754_zero false;
  num_one := SFone f32_prec f32_emax;
  num_add := SFadd f32_prec f32_emax;
  num_mul := SFmul f32_prec f32_emax;
  num_div := SFdiv f32_prec f32_emax;
  num_sqrt := SFsqrt f32_prec f32_emax;
  num_is_zero := fun x => SFeqb x (S754_zero false) |}.

(* ================================================================= *)
(** ** Python values used below *)

(** [xs[:k]]: a negative bound counts from the end. *)
Definition slice_to {A} (xs : list A) (k : Z) : list A :=
  if k <? 0 then take (length xs - Z.to_nat (- k)) xs
  else take (Z.to_nat k) xs.

(** [a[i]] on a one-dimensional numpy array: negative positions wrap once,
    anything else out of range raises. *)
Definition np_getitem {A} (a : list A) (i : Z) : result A :=
  let n := Z.of_nat (length a) in
  let j := if i <? 0 then i + n else i in
  if (0 <=? j) && (j <? n) then
    match a !! Z.to_nat j with
    | Some x => Ok x
    | None => Raise IndexError
    end
  else Raise IndexError.

(** [np.vstack(vecs)] on one-dimensional arrays: they must be at least one
    and all of one length. *)
Definition np_vstack {A} (vecs : list (list A)) : result (list (list A)) :=
  match vecs with
  | [] => Raise ValueError
  | v :: _ =>
      if forallb (fun u => Nat.eqb (length u) (length v)) vecs then Ok vecs
      else Raise ValueError
  end.

(** [s.encode("utf-8")]: lone surrogates cannot be encoded. *)
Definition utf8_char (c : N) : result (list byte) :=
  let z := Z.of_N c in
  let cont (sh : Z) := byte.of_Z (Z.lor 128 (Z.land (Z.shiftr z sh) 63)) in
  if z <? 128 then Ok [byte.of_Z z]
  else if z <? 2048 then Ok [byte.of_Z (Z.lor 192 (Z.shiftr z 6)); cont 0]
  else if z <? 65536 then
    if (55296 <=? z) && (z <=? 57343) then Raise UnicodeEncodeError
    else Ok [byte.of_Z (Z.lor 224 (Z.shiftr z 12)); cont 6; cont 0]
  else if z <? 1114112 then
    Ok [byte.of_Z (Z.lor 240 (Z.shiftr z 18)); cont 12; cont 6; cont 0]
  else Raise UnicodeEncodeError.

Definition utf8_encode (s : pystr) : result (list byte) :=
  (fun bs => List.concat bs) <$> mapR utf8_char s.

(** The values stored in the diagnostics dictionary. *)
Inductive pyval : Type :=
| PFloat (x : float)
| PBool (b : bool)
| PInts (l : list Z)
| PFloats (l : list float).

(** The diagnostics dictionary [dbg]. *)
Abbreviation diagnostics := (gmap string pyval) (only parsing).

(* ================================================================= *)
(** ** The database *)

(** A row of [qa] as [SELECT id, page, question, answer_text, source_url]
    returns it. *)
Record qa_row : Type := {
  id : Z;
  page : option pystr;
  question : option pystr;
  answer_text : option pystr;
  source_url : option pystr;
}.

(** A row of [qa_vec]; a [NULL] vector column is [None]. *)
Record vec_row : Type := {
  v_qa_id : Z;
  v_model_name : pystr;
  v_dim : Z;
  q_vec : option (list byte);
  a_vec : option (list byte);
}.

(** A row of [qa_query_cache], without its key [query_hash]. *)
Record cache_row : Type := {
  query_text : pystr;
  created_ts : Z;
  dim : Z;
  q_emb : list byte;
}.

(** What the sqlite connection gives access to.  The tables [qa] and
    [qa_vec] exist and [qa_vec.dim] is never [NULL].  [qa_query_cache] is absent
    until the table is created; [writable] is false for a database on which
    a writing statement raises [sqlite3.OperationalError] (opened read-only,
    locked by another connection, disk full). *)
Record database : Type := {
  qa : list qa_row;
  qa_vec : list vec_row;
  qa_query_cache : option (gmap pystr cache_row);
  writable : bool;
}.

Definition set_query_cache (t : gmap pystr cache_row) (d : database) : database :=
  {| qa := qa d; qa_vec := qa_vec d; qa_query_cache := Some t;
     writable := writable d |}.

(* ================================================================= *)
(** ** External collaborators and configuration *)

(** [faiss.IndexFlatIP(d)] after [add(X)]. *)
Record faiss_index : Type := {
  ix_d : Z;
  ix_rows : list (list f32);
}.

(** The module constants read from the environment, and the libraries the
    module calls: hashlib, sentence_transformers, numpy's float32
    arithmetic and faiss.  A loaded [SentenceTransformer] is identified by
    the name it was loaded from.  [faiss_search ix q k] stands for
    [ix.search(q.reshape(1, -1), k)]: the [k] columns of the similarity and
    position arrays, paired; a position of [-1] pads a result that has
    fewer than [k] neighbours. *)
Class External : Type := {
  DB_MODEL_NAME : pystr;
  WHICH_VEC : pystr;
  TOP_N_DEFAULT : Z;
  FINAL_K_DEFAULT : Z;
  SEM_THR_DEFAULT : float;
  sha1_hexdigest : list byte -> pystr;
  st_load : pystr -> result pystr;
  st_encode : pystr -> pystr -> result (list f32);
  f32_ops : NumOps Z;
  faiss_search : faiss_index -> list f32 -> Z -> result (list (float * Z));
}.
#[export] Existing Instance f32_ops.

Definition CACHE_QUERY_EMB_TO_DB : bool := true.

(* ================================================================= *)
(** ** Module state and the monad *)

Record globals : Type := {
  _st_model : option pystr;
  _faiss_index : option faiss_index;
  _faiss_ids : option (list Z);
  _sem_thr : float;
}.

(** Calls that leave the process, in the order they are made. *)
Inductive event : Type :=
| EvLoadModel (name : pystr)                 (* SentenceTransformer(name) *)
| EvEncode (model : pystr) (text : pystr)    (* model.encode([text], ...) *)
| EvSearch (q : list f32) (k : Z)            (* index.search(q, k) *)
| EvFetch (ids : list Z).                    (* SELECT ... FROM qa WHERE id IN (...) *)

Record World : Type := {
  db : database;
  glob : globals;
  now : Z;               (* int(time.time()) *)
  log : list event;
}.

Definition M (A : Type) : Type := World -> result A * World.

#[export] Instance M_ret : MRet M := fun _ a w => (Ok a, w).
#[export] Instance M_bind : MBind M := fun _ _ f m w =>
  match m w with
  | (Ok a, w') => f a w'
  | (Raise e, w') => (Raise e, w')
  end.

Definition raise {A} (e : exn) : M A := fun w => (Raise e, w).
Definition lift {A} (r : result A) : M A := fun w => (r, w).
Definition get_world : M World := fun w => (Ok w, w).
Definition set_db (d : database) : M unit := fun w =>
  (Ok tt, {| db := d; glob := glob w; now := now w; log := log w |}).
Definition set_glob (g : globals) : M unit := fun w =>
  (Ok tt, {| db := db w; glob := g; now := now w; log := log w |}).
Definition emit (ev : event) : M unit := fun w =>
  (Ok tt, {| db := db w; glob := glob w; now := now w; log := log w ++ [ev] |}).

(* ================================================================= *)
(** ** The module's functions *)

Section Functions.
Context `{External}.

(** [hashlib.sha1(norm(text).encode("utf-8")).hexdigest()]. *)
Definition query_hash (text : option pystr) : result pystr :=
  b ← utf8_encode (norm text);
  Ok (sha1_hexdigest b).

(** [CREATE TABLE IF NOT EXISTS qa_query_cache ...]. *)
Definition ensure_query_cache_table : M unit :=
  w ← get_world;
  match qa_query_cache (db w) with
  | Some _ => mret tt
  | None =>
      if writable (db w) then set_db (set_query_cache ∅ (db w))
      else raise OperationalError
  end.

(** [SELECT q_emb, dim FROM qa_query_cache WHERE query_hash=?], then
    [blob_to_vec] on the row found. *)
Definition get_cached_query_emb (qh : pystr) : M (option (list f32)) :=
  w ← get_world;
  match qa_query_cache (db w) with
  | None => raise OperationalError
  | Some t =>
      match t !! qh with
      | None => mret None
      | Some row =>
          v ← lift (blob_to_vec (q_emb row) (dim row));
          mret (Some v)
      end
  end.

(** [INSERT OR REPLACE INTO qa_query_cache ...] with the hash, the text,
    the time, [emb.shape[0]] and [vec_to_blob(emb)]. *)
Definition put_cached_query_emb (qh : pystr) (text : pystr) (emb : list f32)
  : M unit :=
  w ← get_world;
  match qa_query_cache (db w) with
  | None => raise OperationalError
  | Some t =>
      if writable (db w) then
        let row := {| query_text := text; created_ts := now w;
                      dim := Z.of_nat (length emb); q_emb := vec_to_blob emb |} in
        set_db (set_query_cache (<[qh := row]> t) (db w))
      else raise OperationalError
  end.

(** [ORDER BY qa_id]. *)
Definition qa_id_le (r1 r2 : vec_row) : Prop := v_qa_id r1 <= v_qa_id r2.

#[export] Instance qa_id_le_dec : RelDecision qa_id_le :=
  fun r1 r2 => decide (v_qa_id r1 <= v_qa_id r2).

Definition order_by_qa_id (rows : list vec_row) : list vec_row :=
  merge_sort qa_id_le rows.

(** The column [load_all_embeddings] reads. *)
Definition vec_col (which_vec : pystr) (r : vec_row) : option (list byte) :=
  if bool_decide (which_vec = str "q") then q_vec r else a_vec r.

(** The rows the loader works on: those of the requested model, or every
    row when there is none. *)
Definition select_rows (model_name : pystr) (d : database) : list vec_row :=
  let rows :=
    order_by_qa_id (filter (fun r => v_model_name r = model_name) (qa_vec d)) in
  if bool_decide (rows = []) then order_by_qa_id (qa_vec d) else rows.

(** The loop over the rows: a [NULL] vector is skipped, any other is
    decoded and kept with its id. *)
Fixpoint collect_vecs (which_vec : pystr) (rows : list vec_row)
  : result (list Z * list (list f32)) :=
  match rows with
  | [] => Ok ([], [])
  | r :: rest =>
      match vec_col which_vec r with
      | None => collect_vecs which_vec rest
      | Some blob =>
          v ← np_frombuffer blob (v_dim r);
          acc ← collect_vecs which_vec rest;
          Ok (v_qa_id r :: acc.1, v :: acc.2)
      end
  end.

(** [load_all_embeddings(con, model_name, which_vec)]: the ids and the
    row-normalised matrix, or the exception raised. *)
Definition load_all_embeddings (d : database) (model_name which_vec : pystr)
  : result (list Z * list (list f32)) :=
  acc ← collect_vecs which_vec (select_rows model_name d);
  match acc.2 with
  | [] => Raise (RuntimeError NoEmbeddings)
  | _ =>
      X ← np_vstack acc.2;
      Ok (acc.1, l2_normalize_rows X)
  end.

(** [faiss.IndexFlatIP(X.shape[1])] with [X] added. *)
Definition build_faiss_index (X : list (list f32)) : faiss_index :=
  {| ix_d := Z.of_nat (length (default [] (head X))); ix_rows := X |}.

(** The one sqlite connection; its database is the [db] of the state. *)
Abbreviation connection := unit (only parsing).

(** [init_models_once(con, st_model_name, which_vec, sem_thr)]: the
    threshold is set first, then the model is loaded and the index built
    if they are not there yet. *)
Definition init_models_once (con : option connection)
    (st_model_name which_vec : pystr) (sem_thr : float) : M unit :=
  w ← get_world;
  set_glob {| _st_model := _st_model (glob w);
              _faiss_index := _faiss_index (glob w);
              _faiss_ids := _faiss_ids (glob w);
              _sem_thr := sem_thr |};;
  (w ← get_world;
   match _st_model (glob w) with
   | Some _ => mret tt
   | None =>
       emit (EvLoadModel st_model_name);;
       m ← lift (st_load st_model_name);
       w ← get_world;
       set_glob {| _st_model := Some m;
                   _faiss_index := _faiss_index (glob w);
                   _faiss_ids := _faiss_ids (glob w);
                   _sem_thr := _sem_thr (glob w) |}
   end);;
  w ← get_world;
  match _faiss_index (glob w), _faiss_ids (glob w) with
  | Some _, Some _ => mret tt
  | _, _ =>
      match con with
      | None => raise (RuntimeError NeedConnection)
      | Some _ =>
          r ← lift (load_all_embeddings (db w) st_model_name which_vec);
          set_glob {| _st_model := _st_model (glob w);
                      _faiss_index := Some (build_faiss_index r.2);
                      _faiss_ids := Some r.1;
                      _sem_thr := _sem_thr (glob w) |}
      end
  end.

(** Lines 266-276 of [hybrid_search]: the query embedding, from the cache
    when it is there, else computed and written to the cache. *)
Definition query_embedding (query : pystr) : M (list f32) :=
  qh ← lift (query_hash (Some query));
  q_vec ← (if CACHE_QUERY_EMB_TO_DB then get_cached_query_emb qh
           else mret None);
  match q_vec with
  | Some v => mret v
  | None =>
      w ← get_world;
      match _st_model (glob w) with
      | None => raise AttributeError
      | Some model =>
          emit (EvEncode model query);;
          v ← lift (st_encode model query);
          (if CACHE_QUERY_EMB_TO_DB then put_cached_query_emb qh query v
           else mret tt);;
          mret v
      end
  end.

(** Lines 279-286: the index search and the two candidate lists. *)
Definition search_candidates (q_vec : list f32) (final_k : Z)
  : M (list Z * list float) :=
  w ← get_world;
  match _faiss_index (glob w) with
  | None => raise AttributeError
  | Some index =>
      let k := Z.max final_k TOP_N_DEFAULT in
      emit (EvSearch q_vec k);;
      res ← lift (faiss_search index q_vec k);
      let sims := res.*1 in
      let idxs := res.*2 in
      top_ids ← lift
        match _faiss_ids (glob w) with
        | Some ids => mapR (np_getitem ids) (filter (fun i => i <> -1) idxs)
        | None => mapR (fun _ => Raise TypeError)
                    (filter (fun i => i <> -1) idxs)
        end;
      let top_sims :=
        (filter (fun si : float * Z => si.2 <> -1) (zip sims idxs)).*1 in
      mret (top_ids, top_sims)
  end.

(** Lines 259-264: the cache table and the models are made ready. *)
Definition hybrid_setup : M unit :=
  (if CACHE_QUERY_EMB_TO_DB then ensure_query_cache_table else mret tt);;
  w ← get_world;
  match _st_model (glob w), _faiss_index (glob w), _faiss_ids (glob w) with
  | Some _, Some _, Some _ => mret tt
  | _, _, _ =>
      init_models_once (Some tt) DB_MODEL_NAME WHICH_VEC SEM_THR_DEFAULT
  end.

(** Lines 259-286: everything up to the candidate lists, for a query that
    is already normalised. *)
Definition hybrid_prepare (query : pystr) (final_k : Z)
  : M (list Z * list float) :=
  hybrid_setup;;
  q_vec ← query_embedding query;
  search_candidates q_vec final_k.

(** [SELECT id, page, question, answer_text, source_url FROM qa WHERE id IN
    (...)]: the matching rows, in the table's order.  (sqlite's bound on
    the number of parameters of one statement is not modelled.) *)
Definition fetch_rows (out_ids : list Z) : M (list qa_row) :=
  emit (EvFetch out_ids);;
  w ← get_world;
  mret (filter (fun r => id r ∈ out_ids) (qa (db w))).

(** [{int(r[0]): r for r in rows}]. *)
Definition row_map_of (rows : list qa_row) : gmap Z qa_row :=
  foldl (fun m r => <[id r := r]> m) ∅ rows.

(** Lines 288-290: the diagnostics every search that reaches the index
    starts with. *)
Definition base_diagnostics (sem_thr : float) (top_ids : list Z)
    (top_sims : list float) : diagnostics :=
  <["topn_sims" := PFloats (slice_to top_sims TOP_N_DEFAULT)]>
    (<["topn_ids" := PInts (slice_to top_ids TOP_N_DEFAULT)]>
       (<["sem_thr" := PFloat sem_thr]> ∅)).

(** Lines 288-325: diagnostics, the acceptance gate and the ranked
    records. *)
Definition rank_and_fetch (top_ids : list Z) (top_sims : list float)
    (final_k : Z) : M (option qa_row * list qa_row * diagnostics) :=
  w ← get_world;
  let sem_thr := _sem_thr (glob w) in
  let dbg := base_diagnostics sem_thr top_ids top_sims in
  match top_ids with
  | [] => mret (None, [], dbg)
  | _ =>
      let best_sim := match top_sims with s :: _ => s | [] => (-1)%float end in
      let dbg := <["best_sim" := PFloat best_sim]> dbg in
      if PrimFloat.ltb best_sim sem_thr then
        mret (None, [], <["rejected" := PBool true]> dbg)
      else
        let dbg := <["rejected" := PBool false]> dbg in
        let out_ids := slice_to top_ids final_k in
        rows ← fetch_rows out_ids;
        let row_map := row_map_of rows in
        let ordered := omap (fun i => row_map !! i) out_ids in
        let best := head ordered in
        mret (best, ordered, <["top_ids" := PInts out_ids]> dbg)
  end.

(** [hybrid_search(con, query, final_k)], returning [(best, top_rows,
    debug_info)]. *)
Definition hybrid_search (query : option pystr) (final_k : Z)
  : M (option qa_row * list qa_row * diagnostics) :=
  let query := norm query in
  if bool_decide (query = []) then mret (None, [], ∅)
  else
    c ← hybrid_prepare query final_k;
    rank_and_fetch c.1 c.2 final_k.

End Functions.

(* ================================================================= *)
(** ** Notions used to state the properties *)

(** The sum of squares whose root is the norm of a row, from a start
    value. *)
Definition sum_sq {F} `{NumOps F} (a : F) (row : list F) : F :=
  foldl (fun acc x => num_add acc (num_mul x x)) a row.

(** What [l2_normalize_rows] does to one row. *)
Definition normalize_row {F} `{NumOps F} (row : list F) : list F :=
  let n := row_norm row in
  let n := if num_is_zero n then num_one else n in
  map (fun x => num_div x n) row.

(** A float32 zero, of either sign. *)
Definition is_f32_zero (v : spec_float) : Prop := exists s, v = S754_zero s.

(** The number a finite float32 stands for. *)
Definition sf_value (v : spec_float) : option Q :=
  match v with
  | S754_zero _ => Some 0%Q
  | S754_finite s m e => Some (inject_Z (cond_Zopp s (Zpos m)) * 2 ^ e)%Q
  | _ => None
  end.

(** The square of the L2 norm of a row of finite float32 values, as a
    number: the row has norm zero, or one, when this is zero, or one. *)
Definition exact_norm_sq (row : list spec_float) : option Q :=
  foldr (fun x acc =>
           match sf_value x, acc with
           | Some v, Some a => Some (v * v + a)%Q
           | _, _ => None
           end) (Some 0%Q) row.

(** The record the store holds for an identifier: the row of [qa] with that
    [id] (the last one, should the column not be unique). *)
Definition stored_record (rows : list qa_row) (i : Z) : option qa_row :=
  last (filter (fun r => id r = i) rows).

(** Similarities in non-increasing order: every entry is at least every
    later one. *)
Definition descending (sims : list float) : Prop :=
  StronglySorted (fun x y => PrimFloat.leb y x = true) sims.

(** The calls to the embedding provider recorded in a log. *)
Definition is_encode (ev : event) : bool :=
  match ev with EvEncode _ _ => true | _ => false end.

Definition encode_calls (w : World) : nat :=
  length (List.filter is_encode (log w)).

(** The rows of a selection whose vector is not [NULL]. *)
Definition usable_rows (which_vec : pystr) (rows : list vec_row) : list vec_row :=
  filter (fun r => is_Some (vec_col which_vec r)) rows.

(** The vector a row stores, read at the row's dimension. *)
Definition decode_row (which_vec : pystr) (r : vec_row) : list f32 :=
  read_f32s (Z.to_nat (v_dim r)) (default [] (vec_col which_vec r)).

(** A row in the stored format, at dimension [n]: its vector column holds
    at least [n] float32 items and [n] is the dimension it records. *)
Definition well_stored (which_vec : pystr) (n : nat) (r : vec_row) : Prop :=
  exists blob, vec_col which_vec r = Some blob /\
    v_dim r = Z.of_nat n /\ (4 * n <= length blob)%nat.

(** The three module globals hold a model, an index and its ids. *)
Definition models_loaded (w : World) : Prop :=
  is_Some (_st_model (glob w)) /\ is_Some (_faiss_index (glob w)) /\
  is_Some (_faiss_ids (glob w)).

(** The cache holds an entry under a key. *)
Definition cached (w : World) (qh : pystr) (row : cache_row) : Prop :=
  exists t, qa_query_cache (db w) = Some t /\ t !! qh = Some row.

(** A state with further calls logged. *)
Definition add_log (evs : list event) (w : World) : World :=
  {| db := db w; glob := glob w; now := now w; log := log w ++ evs |}.

(** [tidy b s]: read after a character that was whitespace iff [b], [s] has
    only single spaces as whitespace and does not end in whitespace. *)
Fixpoint tidy (b : bool) (s : pystr) : Prop :=
  match s with
  | [] => b = false
  | c :: r =>
      if isspace c then b = false /\ c = SPACE /\ tidy true r
      else tidy false r
  end.

(** [s] does not end in whitespace; [b] stands for the character before
    an empty [s]. *)
Definition ends_clean (b : bool) (s : pystr) : Prop :=
  match last s with
  | Some c => isspace c = false
  | None => b = false
  end.

(** A boolean test for [descending]. *)
Fixpoint descendingb (sims : list float) : bool :=
  match sims with
  | [] => true
  | x :: rest => forallb (fun y => PrimFloat.leb y x) rest && descendingb rest
  end.

(** The candidates paired with their similarities and resolved like the
    ids alone are: the records [hybrid_search] returns, each with the
    similarity of the candidate it comes from. *)
Definition scored_records (rows : list qa_row) (cands : list (Z * float))
  : list (qa_row * float) :=
  omap (fun c => (fun r => (r, c.2)) <$> stored_record rows c.1) cands.

(* ================================================================= *)
(** ** A small installation, for the examples *)

(** Stand-ins for the libraries: the digest is the bytes themselves, every
    model loads, an embedding is the length of the text, arithmetic on bit
    patterns leaves the numerator of a division as it is, and the index
    answers from a table keyed by the query vector. *)
Definition example_ops : NumOps Z := {|
  num_zero := 0; num_one := 1; num_add := Z.add; num_mul := Z.mul;
  num_div := fun x _ => x; num_sqrt := fun x => x;
  num_is_zero := fun x => x =? 0 |}.

Definition example_search (ix : faiss_index) (q : list f32) (k : Z)
  : result (list (float * Z)) :=
  match q with
  | [x] =>
      if x =? 1 then
        Ok [(0.875%float, 2); (0.75%float, 1); (0.5%float, 0);
            ((-1)%float, -1)]
      else if x =? 2 then Ok [(0.25%float, 0); (0.125%float, 1)]
      else if x =? 3 then Ok ((fun i => (0.25%float, i)) <$> seqZ 0 51)
      else if x =? 4 then Ok [(0.875%float, 2)]
      else Ok []
  | _ => Ok []
  end.

(** [float("0.55")], the default threshold. *)
Definition example_thr : float := 0x1.199999999999ap-1%float.

Definition example_env : External := {|
  DB_MODEL_NAME := str "m";
  WHICH_VEC := str "q";
  TOP_N_DEFAULT := 50;
  FINAL_K_DEFAULT := 5;
  SEM_THR_DEFAULT := example_thr;
  sha1_hexdigest := fun b => (fun x => Z.to_N (byte.unsigned x)) <$> b;
  st_load := fun name => Ok name;
  st_encode := fun _ text => Ok [Z.of_nat (length text)];
  f32_ops := example_ops;
  faiss_search := example_search |}.

Definition example_row (i : Z) : qa_row :=
  {| id := i; page := None; question := Some (str "q");
     answer_text := Some (str "a"); source_url := None |}.

Definition example_vec (i : Z) (model : string) (v : list f32) : vec_row :=
  {| v_qa_id := i; v_model_name := str model; v_dim := Z.of_nat (length v);
     q_vec := Some (vec_to_blob v); a_vec := None |}.

(** Records 10 and 20; vectors for 30, 20 and 10, so that id 30 has a
    vector and no record; no cache table yet. *)
Definition example_db : database :=
  {| qa := [example_row 10; example_row 20];
     qa_vec := [example_vec 30 "m" [9]; example_vec 20 "m" [5];
                example_vec 10 "m" [7]];
     qa_query_cache := None;
     writable := true |}.

Definition no_globals : globals :=
  {| _st_model := None; _faiss_index := None; _faiss_ids := None;
     _sem_thr := example_thr |}.

(** A process that has just started on [example_db]. *)
Definition example_world : World :=
  {| db := example_db; glob := no_globals; now := 1700000000; log := [] |}.

(** The same database opened read-only, with its cache table in place. *)
Definition readonly_world : World :=
  {| db := {| qa := qa example_db; qa_vec := qa_vec example_db;
              qa_query_cache := Some ∅; writable := false |};
     glob := no_globals; now := 1700000000; log := [] |}.

(** A process whose index holds 51 vectors, with ids 100 to 150. *)
Definition large_world : World :=
  {| db := {| qa := []; qa_vec := []; qa_query_cache := Some ∅;
              writable := true |};
     glob := {| _st_model := Some (str "m");
                _faiss_index := Some {| ix_d := 1; ix_rows := (fun i => [i]) <$> seqZ 0 51 |};
                _faiss_ids := Some (seqZ 100 51);
                _sem_thr := example_thr |};
     now := 1700000000; log := [] |}.

(** Vectors of two models, of dimensions one and two. *)
Definition mixed_db : database :=
  {| qa := []; qa_vec := [example_vec 1 "a" [7]; example_vec 2 "b" [5; 6]];
     qa_query_cache := None; writable := true |}.

(* ================================================================= *)
(** ** Further functions and notions *)

(** The entries of the query cache; a table that is not there has none. *)
Definition cache_entries (d : database) : gmap pystr cache_row :=
  default ∅ (qa_query_cache d).

(** The place of a call in a search: the model is loaded first, then the
    query is encoded, then the index is searched, then the records are
    fetched. *)
Definition call_stage (ev : event) : nat :=
  match ev with
  | EvLoadModel _ => 0
  | EvEncode _ _ => 1
  | EvSearch _ _ => 2
  | EvFetch _ => 3
  end%nat.

Section MoreFunctions.
Context `{External}.

(** [dense_topn(query, model, index, ids, top_n)]: the query is encoded
    with the model given, the index given is searched for [top_n]
    neighbours and the padding is dropped from both lists. *)
Definition dense_topn (query : pystr) (model : pystr) (index : faiss_index)
    (ids : list Z) (top_n : Z) : M (list Z * list float) :=
  emit (EvEncode model query);;
  q_vec ← lift (st_encode model query);
  emit (EvSearch q_vec top_n);;
  res ← lift (faiss_search index q_vec top_n);
  let sims := res.*1 in
  let idxs := res.*2 in
  top_ids ← lift (mapR (np_getitem ids) (filter (fun i => i <> -1) idxs));
  let top_sims :=
    (filter (fun si : float * Z => si.2 <> -1) (zip sims idxs)).*1 in
  mret (top_ids, top_sims).

End MoreFunctions.

(* ================================================================= *)
(** ** The Telegram front end ([bot.py])

    The handlers run on what the bot keeps between updates: the state of
    the retrieval module, the two module globals [con] and [all_q_cache],
    the four keys the handlers keep in [context.user_data], and the calls
    that the Telegram API has carried out, in order.  Of the ways Telegram
    can refuse a call, one follows from what the handlers themselves do and
    is modelled: [edit_message_text] raises [BadRequest] when the text and
    the keyboard are those the message already has.  The others (the
    network, the length limit of a message) are not.  [bot.norm] has the
    text of [find_candidates.norm]: it is [norm]. *)

Definition SHORT_LIMIT : Z := 900.
Definition FULL_CHUNK : Z := 3500.

(** The line feed. *)
Definition NL : N := 10%N.

(** [str(n)] for an [int]. *)
Definition str_of_int (n : Z) : pystr := str (pretty n).

(** [len(s)]. *)
Definition len {A} (xs : list A) : Z := Z.of_nat (length xs).

(** [x or d] for a string that may be [None]. *)
Definition str_or (x : option pystr) (d : pystr) : pystr :=
  match x with
  | Some (c :: s) => c :: s
  | _ => d
  end.

(** [xs[i]] on a list: a negative position counts from the end, anything
    out of range raises [IndexError]. *)
Definition py_getitem {A} (xs : list A) (i : Z) : result A :=
  let j := if i <? 0 then i + len xs else i in
  if (0 <=? j) && (j <? len xs) then
    match xs !! Z.to_nat j with
    | Some x => Ok x
    | None => Raise IndexError
    end
  else Raise IndexError.

(** A bound of a slice, clamped to the sequence. *)
Definition slice_bound (n k : Z) : Z :=
  if k <? 0 then Z.max (k + n) 0 else Z.min k n.

(** [xs[i:j]]. *)
Definition py_slice {A} (xs : list A) (i j : Z) : list A :=
  let lo := slice_bound (len xs) i in
  let hi := slice_bound (len xs) j in
  take (Z.to_nat (hi - lo)) (drop (Z.to_nat lo) xs).

(** [range(start, stop, step)], as the list of its values. *)
Definition py_range (start stop step : Z) : result (list Z) :=
  if step =? 0 then Raise ValueError
  else
    let count :=
      if 0 <? step then (stop - start + step - 1) / step
      else (start - stop - step - 1) / (- step) in
    Ok ((fun t => start + t * step) <$> seqZ 0 count).

(** [sep.join(parts)]. *)
Fixpoint join (sep : pystr) (parts : list pystr) : pystr :=
  match parts with
  | [] => []
  | [p] => p
  | p :: rest => p ++ sep ++ join sep rest
  end.

Record Row : Type := {
  r_id : Z;
  r_page : pystr;
  r_question : pystr;
  r_answer : pystr;
  r_source_url : pystr;
}.

Definition row_tuple_to_obj (t : qa_row) : Row :=
  {| r_id := id t;
     r_page := str_or (page t) (str "unknown");
     r_question := str_or (question t) [];
     r_answer := str_or (answer_text t) [];
     r_source_url := str_or (source_url t) [] |}.

(** [chunk_text(s, n)]: [[s[i:i+n] for i in range(0, len(s), n)]] for a
    text that is not empty, [[""]] otherwise. *)
Definition chunk_text (s : option pystr) (n : Z) : result (list pystr) :=
  let s := str_or s [] in
  match s with
  | [] => Ok [[]]
  | _ =>
      match py_range 0 (len s) n with
      | Raise e => Raise e
      | Ok starts => Ok ((fun i => py_slice s i (i + n)) <$> starts)
      end
  end.

(** *** The keyboard and the messages *)

Record InlineKeyboardButton : Type := {
  text : pystr;
  callback_data : pystr;
}.

Abbreviation InlineKeyboardMarkup := (list (list InlineKeyboardButton)).

#[export] Instance InlineKeyboardButton_eq_dec
  : EqDecision InlineKeyboardButton :=
  fun x y =>
    match decide (text x = text y),
          decide (callback_data x = callback_data y) with
    | left Ht, left Hc =>
        left (match x, y
                return text x = text y -> callback_data x = callback_data y
                       -> x = y with
              | Build_InlineKeyboardButton _ _, Build_InlineKeyboardButton _ _ =>
                  fun Ht Hc => f_equal2 Build_InlineKeyboardButton Ht Hc
              end Ht Hc)
    | right Hn, _ => right (fun H => Hn (f_equal text H))
    | _, right Hn => right (fun H => Hn (f_equal callback_data H))
    end.

(** The button labels, as code points. *)
Definition LABEL_PREV : pystr :=          (* "⬅️ Назад" *)
  [11013; 65039; 32; 1053; 1072; 1079; 1072; 1076]%N.
Definition LABEL_NEXT : pystr :=          (* "➡️ Далее" *)
  [10145; 65039; 32; 1044; 1072; 1083; 1077; 1077]%N.
Definition LABEL_HIDE_Q : pystr :=        (* "Скрыть вопрос ❓" *)
  [1057; 1082; 1088; 1099; 1090; 1100; 32; 1074; 1086; 1087; 1088; 1086;
   1089; 32; 10067]%N.
Definition LABEL_SHOW_Q : pystr :=        (* "Показать вопрос ❓" *)
  [1055; 1086; 1082; 1072; 1079; 1072; 1090; 1100; 32; 1074; 1086; 1087;
   1088; 1086; 1089; 32; 10067]%N.
Definition LABEL_FULL : pystr :=          (* "Полный ответ 📄" *)
  [1055; 1086; 1083; 1085; 1099; 1081; 32; 1086; 1090; 1074; 1077; 1090; 32;
   128196]%N.
Definition LABEL_SOURCE : pystr :=        (* "Источник 🔗" *)
  [1048; 1089; 1090; 1086; 1095; 1085; 1080; 1082; 32; 128279]%N.

Definition make_keyboard (idx total : Z) (show_q has_source has_full : bool)
  : InlineKeyboardMarkup :=
  let nav_row :=
    (if 0 <? idx
     then [{| text := LABEL_PREV; callback_data := str "prev" |}] else [])
    ++ (if idx <? total - 1
        then [{| text := LABEL_NEXT; callback_data := str "next" |}] else []) in
  let actions_row :=
    [{| text := if show_q then LABEL_HIDE_Q else LABEL_SHOW_Q;
        callback_data := str "toggle_q" |}]
    ++ (if has_full
        then [{| text := LABEL_FULL; callback_data := str "full" |}] else [])
    ++ (if has_source
        then [{| text := LABEL_SOURCE; callback_data := str "source" |}]
        else []) in
  (match nav_row with [] => [] | _ => [nav_row] end) ++ [actions_row].

(** The pieces of the messages, as code points. *)
Definition TXT_QUERY : pystr :=           (* "Запрос: " *)
  [1047; 1072; 1087; 1088; 1086; 1089; 58; 32]%N.
Definition TXT_ANSWER : pystr :=          (* "\n\nОтвет " *)
  [10; 10; 1054; 1090; 1074; 1077; 1090; 32]%N.
Definition TXT_OF : pystr :=              (* " из " *)
  [32; 1080; 1079; 32]%N.
Definition ELLIPSIS : N := 8230%N.        (* "…" *)
Definition TXT_SOURCE : pystr :=          (* "Источник: " *)
  [1048; 1089; 1090; 1086; 1095; 1085; 1080; 1082; 58; 32]%N.

Definition format_answer_message (query : pystr) (row : Row) (idx total : Z)
    (show_q : bool) : pystr :=
  let header :=
    TXT_QUERY ++ norm (Some query) ++ TXT_ANSWER ++ str_of_int (idx + 1)
    ++ TXT_OF ++ str_of_int total in
  let ans := norm (Some (r_answer row)) in
  let short :=
    if SHORT_LIMIT <? len ans then slice_to ans SHORT_LIMIT ++ [ELLIPSIS]
    else ans in
  if show_q then
    header ++ [NL; NL] ++ str "Q: " ++ norm (Some (r_question row))
    ++ [NL; NL] ++ str "A: " ++ short
  else header ++ [NL; NL] ++ str "A: " ++ short.

Definition format_full_answer (row : Row) (show_q : bool) : pystr :=
  let parts :=
    (if show_q then [str "Q: " ++ norm (Some (r_question row))] else [])
    ++ [str "A: " ++ norm (Some (r_answer row))]
    ++ (match r_source_url row with
        | [] => []
        | _ => [TXT_SOURCE ++ r_source_url row]
        end) in
  join [NL; NL] parts.

(** *** The handlers *)

(** The replies that are fixed texts. *)
Definition MSG_USAGE : pystr :=           (* "Использование: /id 123" *)
  [1048; 1089; 1087; 1086; 1083; 1100; 1079; 1086; 1074; 1072; 1085; 1080;
   1077; 58; 32; 47; 105; 100; 32; 49; 50; 51]%N.
Definition MSG_NOT_A_NUMBER : pystr :=
  (* "ID должен быть числом. Пример: /id 123" *)
  [73; 68; 32; 1076; 1086; 1083; 1078; 1077; 1085; 32; 1073; 1099; 1090; 1100;
   32; 1095; 1080; 1089; 1083; 1086; 1084; 46; 32; 1055; 1088; 1080; 1084;
   1077; 1088; 58; 32; 47; 105; 100; 32; 49; 50; 51]%N.
Definition MSG_NO_CONNECTION : pystr :=   (* "База не подключена." *)
  [1041; 1072; 1079; 1072; 32; 1085; 1077; 32; 1087; 1086; 1076; 1082; 1083;
   1102; 1095; 1077; 1085; 1072; 46]%N.
Definition MSG_NO_SUCH_ID : pystr :=      (* "Не нашла запись с таким ID." *)
  [1053; 1077; 32; 1085; 1072; 1096; 1083; 1072; 32; 1079; 1072; 1087; 1080;
   1089; 1100; 32; 1089; 32; 1090; 1072; 1082; 1080; 1084; 32; 73; 68; 46]%N.
Definition MSG_NOT_READY : pystr :=       (* "База еще не инициализирована." *)
  [1041; 1072; 1079; 1072; 32; 1077; 1097; 1077; 32; 1085; 1077; 32; 1080;
   1085; 1080; 1094; 1080; 1072; 1083; 1080; 1079; 1080; 1088; 1086; 1074;
   1072; 1085; 1072; 46]%N.
Definition MSG_NO_ANSWER : pystr :=
  (* "Не нашла подходящих ответов. Попробуй переформулировать вопрос." *)
  [1053; 1077; 32; 1085; 1072; 1096; 1083; 1072; 32; 1087; 1086; 1076; 1093;
   1086; 1076; 1103; 1097; 1080; 1093; 32; 1086; 1090; 1074; 1077; 1090; 1086;
   1074; 46; 32; 1055; 1086; 1087; 1088; 1086; 1073; 1091; 1081; 32; 1087;
   1077; 1088; 1077; 1092; 1086; 1088; 1084; 1091; 1083; 1080; 1088; 1086;
   1074; 1072; 1090; 1100; 32; 1074; 1086; 1087; 1088; 1086; 1089; 46]%N.
Definition MSG_NO_RESULTS : pystr :=
  (* "Нет сохраненных результатов. Напиши новый запрос 🙂" *)
  [1053; 1077; 1090; 32; 1089; 1086; 1093; 1088; 1072; 1085; 1077; 1085; 1085;
   1099; 1093; 32; 1088; 1077; 1079; 1091; 1083; 1100; 1090; 1072; 1090; 1086;
   1074; 46; 32; 1053; 1072; 1087; 1080; 1096; 1080; 32; 1085; 1086; 1074;
   1099; 1081; 32; 1079; 1072; 1087; 1088; 1086; 1089; 32; 128578]%N.

(** The calls to the Telegram API that change what the chat shows. *)
Inductive action : Type :=
| AnswerCallback                          (* q.answer() *)
| ReplyText (msg : pystr) (reply_markup : option InlineKeyboardMarkup)
| EditMessageText (msg : pystr) (reply_markup : option InlineKeyboardMarkup).

(** The keys the handlers keep in [context.user_data]; a key that is not
    in the dictionary is [None]. *)
Record UserData : Type := {
  ud_results : option (list Row);
  ud_query : option pystr;
  ud_idx : option Z;
  ud_show_q : option bool;
}.

Definition no_user_data : UserData :=
  {| ud_results := None; ud_query := None; ud_idx := None; ud_show_q := None |}.

Record Bot : Type := {
  world : World;
  con : option unit;                       (* the sqlite connection, once opened *)
  all_q_cache : option (list (Z * option pystr));
  user_data : UserData;
  sent : list action;
}.

Definition set_world (w : World) (b : Bot) : Bot :=
  {| world := w; con := con b; all_q_cache := all_q_cache b;
     user_data := user_data b; sent := sent b |}.

Definition set_user_data (ud : UserData) (b : Bot) : Bot :=
  {| world := world b; con := con b; all_q_cache := all_q_cache b;
     user_data := ud; sent := sent b |}.

Definition send (a : action) (b : Bot) : Bot :=
  {| world := world b; con := con b; all_q_cache := all_q_cache b;
     user_data := user_data b; sent := sent b ++ [a] |}.

(** [for part in chunk_text(msg, FULL_CHUNK): if part.strip(): reply]. *)
Definition send_parts (msg : pystr) (b : Bot) : result unit * Bot :=
  match chunk_text (Some msg) FULL_CHUNK with
  | Raise e => (Raise e, b)
  | Ok parts =>
      (Ok tt,
       foldl (fun b part =>
                match strip part with
                | [] => b
                | _ => send (ReplyText part None) b
                end) b parts)
  end.

(** The card of [rows[idx]] and its keyboard, as [on_text] (lines 277-279)
    and [on_buttons] (lines 333-336) build them. *)
Definition card (query : pystr) (rows : list Row) (idx : Z) (show_q : bool)
  : result (pystr * InlineKeyboardMarkup) :=
  r ← py_getitem rows idx;
  let msg := format_answer_message query r idx (len rows) show_q in
  let has_full := SHORT_LIMIT <? len (norm (Some (r_answer r))) in
  let has_source := negb (bool_decide (r_source_url r = [])) in
  Ok (msg, make_keyboard idx (len rows) show_q has_source has_full).

(** [q.edit_message_text(msg, reply_markup=kb)], on the message that
    carries the button pressed; [shown] is the text and the keyboard that
    message has.  Telegram refuses an edit that would change neither
    ("message is not modified") and the call raises [BadRequest]; nothing
    has then been done. *)
Definition edit_message_text (shown : pystr * option InlineKeyboardMarkup)
    (msg : pystr) (reply_markup : option InlineKeyboardMarkup) (b : Bot)
  : result unit * Bot :=
  if bool_decide (shown = (msg, reply_markup)) then (Raise BadRequest, b)
  else (Ok tt, send (EditMessageText msg reply_markup) b).

(** A Python [int] that sqlite3 can bind: one of 64 bits. *)
Definition int64 (n : Z) : bool := (- 2 ^ 63 <=? n) && (n <? 2 ^ 63).

(** [cur.execute("SELECT ... FROM qa WHERE id = ?;", (qa_id,)).fetchone()]:
    binding an [int] outside 64 bits raises [OverflowError]. *)
Definition fetch_by_id (qa_id : Z) (d : database) : result (option qa_row) :=
  if int64 qa_id then Ok (head (filter (fun r => id r = qa_id) (qa d)))
  else Raise OverflowError.

Section Handlers.
Context `{External}.

(** [int(s)] for a string: [None] stands for the [ValueError]. *)
Variable py_int : pystr -> option Z.

Definition id_cmd (args : list pystr) (b : Bot) : result unit * Bot :=
  match args with
  | [] => (Ok tt, send (ReplyText MSG_USAGE None) b)
  | arg :: _ =>
      match py_int arg with
      | None => (Ok tt, send (ReplyText MSG_NOT_A_NUMBER None) b)
      | Some qa_id =>
          match con b with
          | None => (Ok tt, send (ReplyText MSG_NO_CONNECTION None) b)
          | Some _ =>
              match fetch_by_id qa_id (db (world b)) with
              | Raise e => (Raise e, b)
              | Ok None => (Ok tt, send (ReplyText MSG_NO_SUCH_ID None) b)
              | Ok (Some r) =>
                  send_parts (format_full_answer (row_tuple_to_obj r) true) b
              end
          end
      end
  end.

Definition on_text (message_text : option pystr) (b : Bot)
  : result unit * Bot :=
  let text := strip (str_or message_text []) in
  match text with
  | [] => (Ok tt, b)
  | _ =>
      match con b, all_q_cache b with
      | Some _, Some _ =>
          match hybrid_search (Some text) 5 (world b) with
          | (Raise e, w) => (Raise e, set_world w b)
          | (Ok (_, top, _), w) =>
              let b := set_world w b in
              let rows := row_tuple_to_obj <$> top in
              match rows with
              | [] =>
                  (Ok tt,
                   send (ReplyText MSG_NO_ANSWER None)
                     (set_user_data no_user_data b))
              | _ =>
                  let b :=
                    set_user_data
                      {| ud_results := Some rows; ud_query := Some text;
                         ud_idx := Some 0; ud_show_q := Some false |} b in
                  match card text rows 0 false with
                  | Raise e => (Raise e, b)
                  | Ok (msg, kb) => (Ok tt, send (ReplyText msg (Some kb)) b)
                  end
              end
          end
      | _, _ => (Ok tt, send (ReplyText MSG_NOT_READY None) b)
      end
  end.

(** [shown] is what [q.message] shows, [data] is [q.data]. *)
Definition on_buttons (shown : pystr * option InlineKeyboardMarkup)
    (data : option pystr) (b : Bot) : result unit * Bot :=
  let b := send AnswerCallback b in
  let ud := user_data b in
  match default [] (ud_results ud) with
  | [] => edit_message_text shown MSG_NO_RESULTS None b
  | rows =>
      let query_text := str_or (ud_query ud) [] in
      let idx := default 0 (ud_idx ud) in
      let show_q := default false (ud_show_q ud) in
      let render (idx : Z) (show_q : bool) (b : Bot) :=
        match card query_text rows idx show_q with
        | Raise e => (Raise e, b)
        | Ok (msg, kb) => edit_message_text shown msg (Some kb) b
        end in
      if bool_decide (data = Some (str "next")) && (idx <? len rows - 1) then
        render (idx + 1) show_q
          (set_user_data
             {| ud_results := ud_results ud; ud_query := ud_query ud;
                ud_idx := Some (idx + 1); ud_show_q := ud_show_q ud |} b)
      else if bool_decide (data = Some (str "prev")) && (0 <? idx) then
        render (idx - 1) show_q
          (set_user_data
             {| ud_results := ud_results ud; ud_query := ud_query ud;
                ud_idx := Some (idx - 1); ud_show_q := ud_show_q ud |} b)
      else if bool_decide (data = Some (str "toggle_q")) then
        render idx (negb show_q)
          (set_user_data
             {| ud_results := ud_results ud; ud_query := ud_query ud;
                ud_idx := ud_idx ud; ud_show_q := Some (negb show_q) |} b)
      else if bool_decide (data = Some (str "source")) then
        match py_getitem rows idx with
        | Raise e => (Raise e, b)
        | Ok r =>
            match r_source_url r with
            | [] => (Ok tt, b)
            | url => (Ok tt, send (ReplyText (TXT_SOURCE ++ url) None) b)
            end
        end
      else if bool_decide (data = Some (str "full")) then
        match py_getitem rows idx with
        | Raise e => (Raise e, b)
        | Ok r => send_parts (format_full_answer r show_q) b
        end
      else render idx show_q b
  end.

End Handlers.

(** *** Notions used to state the properties of the front end *)

(** The characters of a text that are not whitespace. *)
Definition visible (s : pystr) : pystr :=
  filter (fun c => isspace c = false) s.

(** A keyboard has a button with this [callback_data]. *)
Definition offers (kb : InlineKeyboardMarkup) (data : string) : bool :=
  existsb (existsb (fun btn => bool_decide (callback_data btn = str data))) kb.

(** The user is looking at result [idx] of [rows], found for [query]. *)
Definition browsing (rows : list Row) (query : pystr) (idx : Z)
    (show_q : bool) : UserData :=
  {| ud_results := Some rows; ud_query := Some query; ud_idx := Some idx;
     ud_show_q := Some show_q |}.

(** What the handlers leave in [user_data]: nothing, or a list of results
    that is not empty with a position inside it. *)
Definition coherent (ud : UserData) : Prop :=
  ud = no_user_data \/
  exists rows query idx show_q,
    0 <= idx < len rows /\ ud = browsing rows query idx show_q.

(** The parts of a long text that are sent: those that are not blank. *)
Definition nonblank_parts (msg : pystr) : list pystr :=
  match chunk_text (Some msg) FULL_CHUNK with
  | Ok parts => filter (fun p => strip p <> []) parts
  | Raise _ => []
  end.

(** The state after some calls to the Telegram API. *)
Definition with_sent (acts : list action) (b : Bot) : Bot :=
  {| world := world b; con := con b; all_q_cache := all_q_cache b;
     user_data := user_data b; sent := sent b ++ acts |}.

(** *** A small chat, for the examples *)

(** Two results for the examples: an answer of 901 letters, and a short
    one with a source. *)
Definition example_results : list Row :=
  [ {| r_id := 1; r_page := str "p"; r_question := str "q1";
       r_answer := replicate 901 97%N; r_source_url := [] |};
    {| r_id := 2; r_page := str "p"; r_question := str "q2";
       r_answer := str "short"; r_source_url := str "http://x" |} ].

(** A bot that has started on the example database and has not been
    written to yet. *)
Definition example_bot : Bot :=
  {| world := example_world; con := Some tt; all_q_cache := Some [];
     user_data := no_user_data; sent := [] |}.

(** [int] on the one string the examples parse: twenty nines. *)
Definition example_int (s : pystr) : option Z :=
  if bool_decide (s = str "99999999999999999999")
  then Some 99999999999999999999 else None.

(* ================================================================= *)
(** * Properties *)

(* ----------------------------------------------------------------- *)
(** ** The BLOB codec *)

Lemma vec_to_blob_length (v : list f32) :
  length (vec_to_blob v) = (4 * length v)%nat.
Proof.
  unfold vec_to_blob. induction v as [|x v IH]; cbn [flat_map]; [reflexivity|].
  rewrite length_app, length_le_split, IH. cbn [length]. lia.
Qed.

Lemma le_combine_le_split_f32 (x : Z) :
  is_f32 x -> le_combine (le_split 4 x) = x.
Proof.
  intros Hx. rewrite le_combine_split.
  apply Z.mod_small. exact Hx.
Qed.

(** Reading back as many items as were written returns them, whatever
    follows them in the buffer. *)
Lemma read_f32s_vec_to_blob (v : list f32) (rest : list byte) :
  Forall is_f32 v ->
  read_f32s (length v) (vec_to_blob v ++ rest) = v.
Proof.
  induction 1 as [|x v Hx _ IH]; [reflexivity|].
  unfold vec_to_blob. cbn [flat_map length read_f32s].
  fold (vec_to_blob v). rewrite <- app_assoc.
  rewrite take_app_length' by (symmetry; apply length_le_split).
  rewrite drop_app_length' by (symmetry; apply length_le_split).
  rewrite le_combine_le_split_f32 by assumption.
  f_equal. exact IH.
Qed.

(** C8. A float32 vector written with [vec_to_blob] and read back with
    [blob_to_vec] at its own dimension is returned bit for bit. *)
Theorem blob_roundtrip (v : list f32) :
  Forall is_f32 v ->
  blob_to_vec (vec_to_blob v) (Z.of_nat (length v)) = Ok v.
Proof.
  intros Hv. unfold blob_to_vec, np_frombuffer.
  rewrite vec_to_blob_length.
  destruct (Z.ltb_spec (Z.of_nat (length v)) 0) as [Hneg|_]; [lia|].
  destruct (Z.ltb_spec (Z.of_nat (4 * length v)) (Z.of_nat (length v) * 4))
    as [Hshort|_]; [lia|].
  rewrite Nat2Z.id.
  rewrite <- (app_nil_r (vec_to_blob v)).
  rewrite read_f32s_vec_to_blob by assumption. reflexivity.
Qed.

(** The round trip on the patterns of 1.0, -1.0 and 0.0. *)
Lemma blob_roundtrip_witness :
  Forall is_f32 [1065353216; 3212836864; 0] /\
  blob_to_vec (vec_to_blob [1065353216; 3212836864; 0]) 3
  = Ok [1065353216; 3212836864; 0].
Proof.
  assert (Hv : Forall is_f32 [1065353216; 3212836864; 0]).
  { repeat constructor; unfold is_f32; lia. }
  split; [exact Hv|].
  exact (blob_roundtrip [1065353216; 3212836864; 0] Hv).
Defined.

(* ----------------------------------------------------------------- *)
(** ** Row normalisation in float32 *)

Lemma l2_normalize_rows_map {F} `{NumOps F} (X : list (list F)) :
  l2_normalize_rows X = map normalize_row X.
Proof.
  unfold l2_normalize_rows.
  induction X as [|row X IH]; cbn; [reflexivity|].
  f_equal. exact IH.
Qed.

Section Float32Rows.
#[local] Existing Instance binary32_ops.

(** The test [norms == 0] picks the two zeros. *)
Lemma f32_is_zero_iff (v : spec_float) :
  num_is_zero v = true <-> is_f32_zero v.
Proof.
  unfold is_f32_zero. cbn. split.
  - destruct v as [s|[]| |[] m e]; cbn; try discriminate. eauto.
  - intros [s ->]. reflexivity.
Qed.

Lemma f32_one_not_zero : num_is_zero (num_one (F:=spec_float)) = false.
Proof. reflexivity. Qed.

(** Squares that are all zero add up to [+0], whatever their signs. *)
Lemma sum_sq_underflow (row : list spec_float) :
  Forall (fun x => is_f32_zero (num_mul x x)) row ->
  sum_sq (S754_zero false) row = S754_zero false.
Proof.
  induction 1 as [|x row [s Hx] _ IH]; [reflexivity|].
  unfold sum_sq in *. cbn [foldl]. rewrite Hx.
  destruct s; exact IH.
Qed.

Lemma row_norm_underflow (row : list spec_float) :
  Forall (fun x => is_f32_zero (num_mul x x)) row ->
  row_norm row = S754_zero false.
Proof.
  intros Hsq. pose proof (sum_sq_underflow row Hsq) as Hs.
  unfold row_norm. unfold sum_sq in Hs.
  change (@num_zero spec_float binary32_ops) with (S754_zero false).
  rewrite Hs. reflexivity.
Qed.

Lemma f32_zero_square (x : spec_float) :
  is_f32_zero x -> is_f32_zero (num_mul x x).
Proof. intros [s ->]. exists (xorb s s). reflexivity. Qed.

(** An all-zero row has computed norm [+0], is divided by one and comes
    out as it went in, sign by sign. *)
Lemma normalize_row_f32_zeros (row : list spec_float) :
  Forall is_f32_zero row -> normalize_row row = row.
Proof.
  intros Hz. unfold normalize_row.
  rewrite row_norm_underflow
    by (eapply Forall_impl; [exact Hz|exact f32_zero_square]).
  cbn [num_is_zero binary32_ops SFeqb SFcompare].
  induction Hz as [|x row [s ->] _ IH]; [reflexivity|].
  cbn [map]. rewrite IH. f_equal. destruct s; reflexivity.
Qed.

(** C9 (as amended).  On a float32 matrix [l2_normalize_rows] returns a
    matrix of the same shape.  Every row is divided, element by element and
    in float32, by one number that is not zero: its norm as computed in
    float32, or 1 when that computed norm is zero.  A row whose squares are
    all zero is therefore divided by 1; an all-zero row, which is such a
    row, comes out unchanged, all-zero and of norm zero. *)
Theorem l2_normalize_rows_float32 (X : list (list spec_float)) :
  length (l2_normalize_rows X) = length X /\
  forall (i : nat) (row : list spec_float), X !! i = Some row ->
    exists (row' : list spec_float) (n : spec_float),
      l2_normalize_rows X !! i = Some row' /\
      row' = map (fun x => SFdiv f32_prec f32_emax x n) row /\
      length row' = length row /\
      num_is_zero n = false /\
      (if num_is_zero (row_norm row) then n = SFone f32_prec f32_emax
       else n = row_norm row) /\
      (Forall (fun x => is_f32_zero (SFmul f32_prec f32_emax x x)) row ->
       n = SFone f32_prec f32_emax) /\
      (Forall is_f32_zero row ->
       row' = row /\ Forall is_f32_zero row' /\
       row_norm row' = S754_zero false).
Proof.
  rewrite l2_normalize_rows_map. split; [apply length_map|].
  intros i row Hi.
  exists (normalize_row row),
    (if num_is_zero (row_norm row) then num_one else row_norm row).
  split_and!.
  - rewrite list_lookup_fmap, Hi. reflexivity.
  - reflexivity.
  - unfold normalize_row. apply length_map.
  - destruct (num_is_zero (row_norm row)) eqn:Hn;
      [exact f32_one_not_zero|exact Hn].
  - destruct (num_is_zero (row_norm row)); reflexivity.
  - intros Hsq. rewrite (row_norm_underflow row Hsq). reflexivity.
  - intros Hz. rewrite (normalize_row_f32_zeros row Hz). split_and!.
    + reflexivity.
    + exact Hz.
    + apply row_norm_underflow.
      eapply Forall_impl; [exact Hz|exact f32_zero_square].
Qed.

End Float32Rows.

(** C9, the claim as stated fails: the row [[1e-30]] holds a float32
    whose square underflows.  The norm of the row is not zero, yet the norm
    computed is [+0]; the row is divided by 1 and returned as it is, with a
    norm that is not one. *)
Lemma tiny_row_is_not_normalized :
  let x := S754_finite false 10633824 (-123) in
  f32_decode 0x0DA24260 = x /\
  valid_binary f32_prec f32_emax x = true /\
  (exists s : Q, exact_norm_sq [x] = Some s /\ ~ (s == 0)%Q /\ ~ (s == 1)%Q) /\
  @row_norm _ binary32_ops [x] = S754_zero false /\
  @l2_normalize_rows _ binary32_ops [[x]] = [[x]].
Proof.
  split_and!; try (vm_compute; reflexivity).
  eexists. split; [vm_compute; reflexivity|].
  split; intros Heq; vm_compute in Heq; discriminate Heq.
Qed.

(** Rounding alone keeps a row from unit norm: the row [[1; 1; 1]] is
    divided by its computed norm, and the norm computed of the result is
    the float32 just below 1. *)
Lemma ones_row_norm_below_one :
  let one := f32_decode 0x3F800000 in
  let row' := @normalize_row _ binary32_ops [one; one; one] in
  one = SFone f32_prec f32_emax /\
  row' = [f32_decode 0x3F13CD3A; f32_decode 0x3F13CD3A; f32_decode 0x3F13CD3A] /\
  @row_norm _ binary32_ops row' = f32_decode 0x3F7FFFFF.
Proof. split_and!; vm_compute; reflexivity. Qed.

(* ----------------------------------------------------------------- *)
(** ** Normalisation *)

Lemma ends_clean_nonempty (b b' : bool) (c : N) (r : pystr) :
  ends_clean b (c :: r) -> ends_clean b' (c :: r).
Proof.
  unfold ends_clean. destruct (last (c :: r)) eqn:Hl; [trivial|].
  apply last_None in Hl. discriminate.
Qed.

Lemma ends_clean_tail (b : bool) (c c' : N) (r : pystr) :
  ends_clean b (c :: c' :: r) -> ends_clean b (c' :: r).
Proof. intros Hs. exact Hs. Qed.

Lemma lstrip_split (s : pystr) :
  exists ws, s = ws ++ lstrip s /\ Forall (fun c => isspace c = true) ws.
Proof.
  induction s as [|c s (ws & Hs & Hws)]; [exists []; split; [reflexivity|constructor]|].
  cbn. destruct (isspace c) eqn:Hc.
  - exists (c :: ws). split; [cbn; f_equal; exact Hs|constructor; assumption].
  - exists []. split; [reflexivity|constructor].
Qed.

Lemma lstrip_head (s : pystr) :
  match lstrip s with c :: _ => isspace c = false | [] => True end.
Proof.
  induction s as [|c s IH]; [exact I|]. cbn.
  destruct (isspace c) eqn:Hc; [exact IH|exact Hc].
Qed.

Lemma lstrip_fix (s : pystr) :
  match s with c :: _ => isspace c = false | [] => True end -> lstrip s = s.
Proof. destruct s as [|c s]; [reflexivity|]. cbn. intros ->. reflexivity. Qed.

Lemma rstrip_split (s : pystr) : exists ws, s = rstrip s ++ ws.
Proof.
  unfold rstrip. destruct (lstrip_split (reverse s)) as (ws & Hs & _).
  exists (reverse ws). rewrite <- reverse_app, <- Hs, reverse_involutive.
  reflexivity.
Qed.

Lemma rstrip_ends_clean (s : pystr) : ends_clean false (rstrip s).
Proof.
  unfold ends_clean, rstrip. pose proof (lstrip_head (reverse s)) as Hh.
  destruct (lstrip (reverse s)) as [|c r]; [reflexivity|].
  rewrite reverse_cons, last_snoc. exact Hh.
Qed.

Lemma rstrip_fix (s : pystr) :
  ends_clean false s -> rstrip s = s.
Proof.
  unfold ends_clean, rstrip. intros Hs.
  destruct s as [|c s] using rev_ind; [reflexivity|].
  rewrite last_snoc in Hs. rewrite reverse_snoc. cbn [lstrip]. rewrite Hs.
  rewrite reverse_cons, reverse_involutive. reflexivity.
Qed.

Lemma strip_head (s : pystr) :
  match strip s with c :: _ => isspace c = false | [] => True end.
Proof.
  unfold strip. pose proof (lstrip_head s) as Hh.
  destruct (rstrip_split (lstrip s)) as (ws & Hs).
  destruct (rstrip (lstrip s)) as [|c r]; [exact I|].
  rewrite Hs in Hh. exact Hh.
Qed.

Lemma sub_ws_tidy (b : bool) (s : pystr) :
  ends_clean b s -> tidy b (sub_ws_from b s).
Proof.
  revert b. induction s as [|c r IH]; intros b Hs; [exact Hs|].
  assert (Hr : forall b', (r = [] -> b' = false) -> ends_clean b' r).
  { intros b' Hb'. unfold ends_clean in *. destruct r as [|c' r'].
    - cbn. apply Hb'. reflexivity.
    - eapply ends_clean_nonempty, ends_clean_tail. exact Hs. }
  cbn. destruct (isspace c) eqn:Hc.
  - assert (Hne : r <> []).
    { intros ->. unfold ends_clean in Hs. cbn in Hs. congruence. }
    destruct b.
    + apply IH, Hr. intros; contradiction.
    + cbn. replace (isspace SPACE) with true by reflexivity.
      split_and!; [reflexivity..|]. apply IH, Hr. intros; contradiction.
  - cbn. rewrite Hc. apply IH, Hr. reflexivity.
Qed.

Lemma tidy_sub_ws (b : bool) (s : pystr) : tidy b s -> sub_ws_from b s = s.
Proof.
  revert b. induction s as [|c r IH]; intros b Hs; [reflexivity|].
  cbn in *. destruct (isspace c).
  - destruct Hs as (-> & -> & Hr). f_equal. apply IH. exact Hr.
  - f_equal. apply IH. exact Hs.
Qed.

Lemma tidy_ends_clean (b : bool) (s : pystr) : tidy b s -> ends_clean b s.
Proof.
  revert b. induction s as [|c r IH]; intros b Hs; [exact Hs|].
  cbn in Hs. unfold ends_clean. destruct r as [|c' r'].
  - cbn in *. destruct (isspace c); [|reflexivity].
    destruct Hs as (_ & _ & Hr). discriminate.
  - apply (ends_clean_nonempty (if isspace c then true else false)).
    change (ends_clean (if isspace c then true else false) (c' :: r')).
    destruct (isspace c).
    + destruct Hs as (_ & _ & Hr). exact (IH true Hr).
    + exact (IH false Hs).
Qed.

Lemma sub_ws_head (s : pystr) :
  match s with c :: _ => isspace c = false | [] => True end ->
  match sub_ws s with c :: _ => isspace c = false | [] => True end.
Proof.
  destruct s as [|c r]; [intros; exact I|]. unfold sub_ws. cbn.
  intros Hc. rewrite Hc. exact Hc.
Qed.

(** Two spaces, a, three spaces, b, newline, space, c, space. *)
Example norm_collapses :
  norm (Some [32; 32; 97; 32; 32; 32; 98; 10; 32; 99; 32]%N) = str "a b c".
Proof. reflexivity. Qed.

Example norm_of_nothing : norm None = [] /\ norm (Some []) = [].
Proof. split; reflexivity. Qed.

(** A normalised text is its own normal form. *)
Lemma norm_idempotent (s : option pystr) : norm (Some (norm s)) = norm s.
Proof.
  unfold norm. cbn [default]. set (t := strip (default [] s)).
  assert (Htidy : tidy false (sub_ws t)).
  { apply sub_ws_tidy. apply rstrip_ends_clean. }
  assert (Hhead : match sub_ws t with c :: _ => isspace c = false | [] => True end).
  { apply sub_ws_head, strip_head. }
  change (Datatypes.id (sub_ws t)) with (sub_ws t).
  unfold strip at 1. rewrite (lstrip_fix _ Hhead).
  rewrite rstrip_fix by (apply tidy_ends_clean; exact Htidy).
  apply tidy_sub_ws. exact Htidy.
Qed.

(* ----------------------------------------------------------------- *)
(** ** Running the monad *)

Lemma bind_run {A B} (m : M A) (f : A -> M B) (w : World) :
  (m ≫= f) w =
  match m w with
  | (Ok a, w') => f a w'
  | (Raise e, w') => (Raise e, w')
  end.
Proof. reflexivity. Qed.

Lemma bind_Ok {A B} (m : M A) (f : A -> M B) (w w2 : World) (b : B) :
  (m ≫= f) w = (Ok b, w2) ->
  exists a w1, m w = (Ok a, w1) /\ f a w1 = (Ok b, w2).
Proof.
  rewrite bind_run. destruct (m w) as [[a|e] w1]; [|discriminate].
  intros Hf. exists a, w1. split; [reflexivity|exact Hf].
Qed.

(** One step of a run: a bind is entered, a primitive is evaluated. *)
Ltac run_step :=
  first
    [ rewrite bind_run
    | progress cbn [get_world emit lift raise set_db set_glob
                    db glob now log CACHE_QUERY_EMB_TO_DB]
    | progress unfold mret, M_ret ].

Ltac run := repeat run_step.

Lemma lift_Ok {A} (r : result A) (w w1 : World) (a : A) :
  lift r w = (Ok a, w1) -> r = Ok a /\ w1 = w.
Proof. unfold lift. intros [= -> ->]. split; reflexivity. Qed.

Lemma mapR_length {A B} (f : A -> result B) (xs : list A) (ys : list B) :
  mapR f xs = Ok ys -> length ys = length xs.
Proof.
  revert ys. induction xs as [|x xs IH]; intros ys; cbn.
  - intros [= <-]. reflexivity.
  - destruct (f x) as [y|e]; [|discriminate].
    destruct (mapR f xs) as [ys'|e]; [|discriminate].
    intros [= <-]. cbn. f_equal. apply IH. reflexivity.
Qed.

Section Properties.
Context `{External}.

(* ----------------------------------------------------------------- *)
(** ** The empty query *)

(** C6. A query whose normal form is empty is answered at once with no
    best record, no records and empty diagnostics; the state is left as it
    was, so the log of calls is the same: no embedding is computed, the
    index is not searched, no record is looked up. *)
Theorem empty_query_returns_at_once
    (query : option pystr) (final_k : Z) (w : World) :
  norm query = [] ->
  hybrid_search query final_k w = (Ok (None, [], ∅), w) /\
  log (hybrid_search query final_k w).2 = log w.
Proof.
  intros Hq.
  assert (Hrun : hybrid_search query final_k w = (Ok (None, [], ∅), w)).
  { unfold hybrid_search. rewrite Hq.
    rewrite bool_decide_eq_true_2 by reflexivity. reflexivity. }
  split; [exact Hrun|]. rewrite Hrun. reflexivity.
Qed.

(* ----------------------------------------------------------------- *)
(** ** The record lookup *)

Lemma row_map_of_lookup (rows : list qa_row) (i : Z) :
  row_map_of rows !! i = stored_record rows i.
Proof.
  unfold row_map_of, stored_record.
  induction rows as [|r rows IH] using rev_ind; [reflexivity|].
  rewrite foldl_snoc, filter_app, last_app.
  destruct (decide (id r = i)) as [Heq|Hne].
  - rewrite Heq, lookup_insert_eq.
    rewrite filter_cons_True by exact Heq. reflexivity.
  - rewrite lookup_insert_ne by exact Hne.
    rewrite filter_cons_False by exact Hne. exact IH.
Qed.

Lemma stored_record_fetched (rows : list qa_row) (ids : list Z) (i : Z) :
  i ∈ ids ->
  stored_record (filter (fun r => id r ∈ ids) rows) i = stored_record rows i.
Proof.
  intros Hi. unfold stored_record. f_equal.
  induction rows as [|r rows IH]; [reflexivity|].
  destruct (decide (id r = i)) as [Heq|Hne].
  - rewrite (filter_cons_True (fun r => id r ∈ ids)) by (rewrite Heq; exact Hi).
    rewrite !filter_cons_True by exact Heq. f_equal. exact IH.
  - rewrite (filter_cons_False (fun r => id r = i) r rows) by exact Hne.
    destruct (decide (id r ∈ ids)) as [Hin|Hout].
    + rewrite (filter_cons_True (fun r => id r ∈ ids)) by exact Hin.
      rewrite filter_cons_False by exact Hne. exact IH.
    + rewrite (filter_cons_False (fun r => id r ∈ ids)) by exact Hout.
      exact IH.
Qed.

(** The rows come back in the table's order; keyed by id and read in the
    order of the requested ids they are the stored records of those ids
    that the store has. *)
Lemma ordered_by_request (rows : list qa_row) (ids : list Z) :
  omap (fun i => row_map_of (filter (fun r => id r ∈ ids) rows) !! i) ids
  = omap (stored_record rows) ids.
Proof.
  apply list_omap_ext, Forall2_same_length_lookup_2; [reflexivity|].
  intros n i j Hi Hj. rewrite Hi in Hj. injection Hj as <-.
  rewrite row_map_of_lookup. apply stored_record_fetched.
  eapply list_elem_of_lookup_2. exact Hi.
Qed.

Lemma stored_record_Some (rows : list qa_row) (i : Z) (r : qa_row) :
  stored_record rows i = Some r -> r ∈ rows /\ id r = i.
Proof.
  unfold stored_record. intros Hl.
  assert (Hin : r ∈ filter (fun r => id r = i) rows).
  { apply last_Some in Hl as [l' ->]. apply elem_of_app. right.
    apply list_elem_of_singleton. reflexivity. }
  apply list_elem_of_filter in Hin as [Hid Hin]. split; assumption.
Qed.

Lemma stored_record_None (rows : list qa_row) (i : Z) :
  stored_record rows i = None <-> i ∉ id <$> rows.
Proof.
  unfold stored_record. rewrite last_None. split.
  - intros Hnil Hin. apply list_elem_of_fmap in Hin as [r [-> Hr]].
    assert (Hf : r ∈ filter (fun r0 => id r0 = id r) rows).
    { apply list_elem_of_filter. split; [reflexivity|exact Hr]. }
    rewrite Hnil in Hf. inversion Hf.
  - intros Hout.
    destruct (filter (fun r => id r = i) rows) as [|r l] eqn:Hf; [reflexivity|].
    exfalso. apply Hout.
    assert (Hr : r ∈ filter (fun r => id r = i) rows).
    { rewrite Hf. apply list_elem_of_here. }
    apply list_elem_of_filter in Hr as [<- Hr].
    apply list_elem_of_fmap. exists r. split; [reflexivity|exact Hr].
Qed.

Lemma omap_stored_ids (rows : list qa_row) (ids : list Z) :
  id <$> omap (stored_record rows) ids
  = filter (fun i => i ∈ id <$> rows) ids.
Proof.
  induction ids as [|i ids IH]; [reflexivity|]. cbn [omap list_omap].
  destruct (stored_record rows i) as [r|] eqn:Hr.
  - apply stored_record_Some in Hr as [Hin <-].
    rewrite filter_cons_True
      by (apply list_elem_of_fmap; exists r; split; [reflexivity|exact Hin]).
    cbn. f_equal. exact IH.
  - apply stored_record_None in Hr.
    rewrite filter_cons_False by exact Hr. exact IH.
Qed.

Lemma omap_stored_rows (rows : list qa_row) (ids : list Z) :
  Forall (fun r => r ∈ rows) (omap (stored_record rows) ids).
Proof.
  apply Forall_forall. intros r Hr.
  apply list_elem_of_omap in Hr as [i [_ Hi]].
  apply stored_record_Some in Hi as [Hin _]. exact Hin.
Qed.

Lemma omap_stored_missing (rows : list qa_row) (ids : list Z) :
  Forall (fun i => i ∉ id <$> rows) ids ->
  omap (stored_record rows) ids = [].
Proof.
  induction 1 as [|i ids Hi _ IH]; [reflexivity|]. cbn [omap list_omap].
  apply stored_record_None in Hi. rewrite Hi. exact IH.
Qed.

(* ----------------------------------------------------------------- *)
(** ** Slices *)

Lemma slice_to_nonneg {A} (xs : list A) (k : Z) :
  0 <= k -> slice_to xs k = take (Z.to_nat k) xs.
Proof.
  intros Hk. unfold slice_to.
  destruct (Z.ltb_spec k 0); [lia|reflexivity].
Qed.

Lemma slice_to_all {A} (xs : list A) (k : Z) :
  Z.of_nat (length xs) <= k -> slice_to xs k = xs.
Proof.
  intros Hk. rewrite slice_to_nonneg by lia. apply take_ge. lia.
Qed.

Lemma slice_to_length {A} (xs : list A) (k : Z) :
  0 <= k -> Z.of_nat (length (slice_to xs k)) <= k.
Proof.
  intros Hk. rewrite slice_to_nonneg by exact Hk.
  rewrite length_take. lia.
Qed.

(* ----------------------------------------------------------------- *)
(** ** The steps of [hybrid_search] *)

Lemma hybrid_search_run (query : option pystr) (final_k : Z) (w : World) :
  norm query <> [] ->
  hybrid_search query final_k w =
  match hybrid_prepare (norm query) final_k w with
  | (Ok c, w1) => rank_and_fetch c.1 c.2 final_k w1
  | (Raise e, w1) => (Raise e, w1)
  end.
Proof.
  intros Hq. unfold hybrid_search.
  rewrite bool_decide_eq_false_2 by exact Hq. apply bind_run.
Qed.

Lemma rank_no_candidate (top_sims : list float) (final_k : Z) (w : World) :
  rank_and_fetch [] top_sims final_k w
  = (Ok (None, [], base_diagnostics (_sem_thr (glob w)) [] top_sims), w).
Proof. reflexivity. Qed.

Lemma rank_reject (top_ids : list Z) (top_sims rest : list float)
    (best : float) (final_k : Z) (w : World) :
  top_ids <> [] ->
  top_sims = best :: rest ->
  PrimFloat.ltb best (_sem_thr (glob w)) = true ->
  rank_and_fetch top_ids top_sims final_k w
  = (Ok (None, [],
         <["rejected" := PBool true]>
           (<["best_sim" := PFloat best]>
              (base_diagnostics (_sem_thr (glob w)) top_ids top_sims))), w).
Proof.
  intros Hne -> Hlt. unfold rank_and_fetch. rewrite bind_run. cbn [get_world].
  destruct top_ids as [|i top_ids]; [contradiction|].
  rewrite Hlt. reflexivity.
Qed.

Lemma rank_accept (top_ids : list Z) (top_sims rest : list float)
    (best : float) (final_k : Z) (w : World) :
  top_ids <> [] ->
  top_sims = best :: rest ->
  PrimFloat.ltb best (_sem_thr (glob w)) = false ->
  let out_ids := slice_to top_ids final_k in
  let records := omap (stored_record (qa (db w))) out_ids in
  rank_and_fetch top_ids top_sims final_k w
  = (Ok (head records, records,
         <["top_ids" := PInts out_ids]>
           (<["rejected" := PBool false]>
              (<["best_sim" := PFloat best]>
                 (base_diagnostics (_sem_thr (glob w)) top_ids top_sims)))),
     add_log [EvFetch out_ids] w).
Proof.
  intros Hne -> Hge out_ids records.
  unfold rank_and_fetch. rewrite bind_run. cbn [get_world].
  destruct top_ids as [|i top_ids]; [contradiction|].
  rewrite Hge. subst records. rewrite <- ordered_by_request. reflexivity.
Qed.

(** What a successful index search has done. *)
Lemma search_candidates_Ok (q_vec : list f32) (final_k : Z) (w w1 : World)
    (top_ids : list Z) (top_sims : list float) :
  search_candidates q_vec final_k w = (Ok (top_ids, top_sims), w1) ->
  exists index res,
    _faiss_index (glob w) = Some index /\
    faiss_search index q_vec (Z.max final_k TOP_N_DEFAULT) = Ok res /\
    length top_ids = length (filter (fun i => i <> -1) res.*2) /\
    (forall ids, _faiss_ids (glob w) = Some ids ->
       mapR (np_getitem ids) (filter (fun i => i <> -1) res.*2) = Ok top_ids) /\
    top_sims = (filter (fun si : float * Z => si.2 <> -1) res).*1 /\
    w1 = add_log [EvSearch q_vec (Z.max final_k TOP_N_DEFAULT)] w.
Proof.
  unfold search_candidates. rewrite bind_run. cbn [get_world].
  destruct (_faiss_index (glob w)) as [index|]; [|discriminate].
  intros Hrun. apply bind_Ok in Hrun as ([] & wa & Hemit & Hrun).
  injection Hemit as <-.
  apply bind_Ok in Hrun as (res & wb & Hres & Hrun).
  apply lift_Ok in Hres as [Hres ->].
  apply bind_Ok in Hrun as (tids & wc & Hids & Hrun).
  apply lift_Ok in Hids as [Hids ->].
  injection Hrun as <- <- <-.
  exists index, res. rewrite zip_fst_snd. split_and!; try done.
  - destruct (_faiss_ids (glob w)); apply mapR_length in Hids; exact Hids.
  - intros ids Heq. rewrite Heq in Hids. exact Hids.
Qed.

Lemma filter_snd_length {A} (res : list (A * Z)) :
  length (filter (fun i => i <> -1) res.*2)
  = length (filter (fun si : A * Z => si.2 <> -1) res).
Proof.
  induction res as [|[a i] res IH]; [reflexivity|]. cbn [fmap list_fmap snd].
  destruct (decide (i <> -1)) as [Hi|Hi].
  - rewrite !filter_cons_True by exact Hi. cbn. f_equal. exact IH.
  - rewrite !filter_cons_False by exact Hi. exact IH.
Qed.

Lemma hybrid_prepare_Ok (query : pystr) (final_k : Z) (w w1 : World)
    (c : list Z * list float) :
  hybrid_prepare query final_k w = (Ok c, w1) ->
  exists wa q_vec wb,
    hybrid_setup w = (Ok tt, wa) /\
    query_embedding query wa = (Ok q_vec, wb) /\
    search_candidates q_vec final_k wb = (Ok c, w1).
Proof.
  unfold hybrid_prepare. intros Hrun.
  apply bind_Ok in Hrun as ([] & wa & Hsetup & Hrun).
  apply bind_Ok in Hrun as (q_vec & wb & Hemb & Hrun).
  exists wa, q_vec, wb. repeat split; assumption.
Qed.

(** The two candidate lists run in parallel. *)
Lemma candidates_same_length (query : pystr) (final_k : Z) (w w1 : World)
    (top_ids : list Z) (top_sims : list float) :
  hybrid_prepare query final_k w = (Ok (top_ids, top_sims), w1) ->
  length top_ids = length top_sims.
Proof.
  intros Hrun. apply hybrid_prepare_Ok in Hrun as (wa & q_vec & wb & _ & _ & Hs).
  apply search_candidates_Ok in Hs
    as (index & res & _ & _ & Hids & _ & -> & _).
  rewrite Hids, length_fmap. apply filter_snd_length.
Qed.

Lemma best_candidate_exists (query : pystr) (final_k : Z) (w w1 : World)
    (top_ids : list Z) (top_sims rest : list float) (best : float) :
  hybrid_prepare query final_k w = (Ok (top_ids, top_sims), w1) ->
  top_sims = best :: rest ->
  top_ids <> [].
Proof.
  intros Hrun -> ->. apply candidates_same_length in Hrun. discriminate.
Qed.

(* ----------------------------------------------------------------- *)
(** ** Rejection *)

(** The run of a rejected query. *)
Lemma rejected_query_run
    (query : option pystr) (final_k : Z) (w w1 : World)
    (top_ids : list Z) (top_sims rest : list float) (best : float) :
  norm query <> [] ->
  hybrid_prepare (norm query) final_k w = (Ok (top_ids, top_sims), w1) ->
  top_sims = best :: rest ->
  PrimFloat.ltb best (_sem_thr (glob w1)) = true ->
  exists dbg : diagnostics,
    hybrid_search query final_k w = (Ok (None, [], dbg), w1).
Proof.
  intros Hq Hprep Hsims Hlt.
  pose proof (best_candidate_exists _ _ _ _ _ _ _ _ Hprep Hsims) as Hne.
  eexists. rewrite hybrid_search_run by exact Hq. rewrite Hprep.
  apply (rank_reject top_ids top_sims rest best); assumption.
Qed.

(** C1 (as amended). When the best candidate's similarity is strictly
    below the threshold in force, [hybrid_search] returns no best record
    and no records, and diagnostics that mark the query rejected and hold
    the threshold, [best_sim] and the candidate ids and similarities cut to
    their first [TOP_N_DEFAULT] entries; these are the full lists whenever
    the index returned at most [TOP_N_DEFAULT] candidates. *)
Theorem rejected_query_diagnostics
    (query : option pystr) (final_k : Z) (w w1 : World)
    (top_ids : list Z) (top_sims rest : list float) (best : float) :
  norm query <> [] ->
  hybrid_prepare (norm query) final_k w = (Ok (top_ids, top_sims), w1) ->
  top_sims = best :: rest ->
  PrimFloat.ltb best (_sem_thr (glob w1)) = true ->
  exists dbg : diagnostics,
    hybrid_search query final_k w = (Ok (None, [], dbg), w1) /\
    dbg !! "rejected" = Some (PBool true) /\
    dbg !! "best_sim" = Some (PFloat best) /\
    dbg !! "sem_thr" = Some (PFloat (_sem_thr (glob w1))) /\
    dbg !! "topn_ids" = Some (PInts (slice_to top_ids TOP_N_DEFAULT)) /\
    dbg !! "topn_sims" = Some (PFloats (slice_to top_sims TOP_N_DEFAULT)) /\
    (Z.of_nat (length top_ids) <= TOP_N_DEFAULT ->
     slice_to top_ids TOP_N_DEFAULT = top_ids /\
     slice_to top_sims TOP_N_DEFAULT = top_sims).
Proof.
  intros Hq Hprep Hsims Hlt.
  pose proof (best_candidate_exists _ _ _ _ _ _ _ _ Hprep Hsims) as Hne.
  pose proof (candidates_same_length _ _ _ _ _ _ Hprep) as Hlen.
  eexists. split.
  { rewrite hybrid_search_run by exact Hq. rewrite Hprep.
    apply (rank_reject top_ids top_sims rest best); assumption. }
  unfold base_diagnostics. split_and!.
  - apply lookup_insert_eq.
  - rewrite lookup_insert_ne by done. apply lookup_insert_eq.
  - do 4 (rewrite lookup_insert_ne by done). apply lookup_insert_eq.
  - do 3 (rewrite lookup_insert_ne by done). apply lookup_insert_eq.
  - do 2 (rewrite lookup_insert_ne by done). apply lookup_insert_eq.
  - intros Hfew. split; apply slice_to_all; [|rewrite <- Hlen]; exact Hfew.
Qed.

(** An index that returns at most [k] neighbours for a request of [k]
    leaves nothing to cut when [final_k] is within [TOP_N_DEFAULT]. *)
Lemma candidates_within_top_n (query : pystr) (final_k : Z) (w w1 : World)
    (top_ids : list Z) (top_sims : list float) :
  (forall ix v k res,
     faiss_search ix v k = Ok res -> Z.of_nat (length res) <= k) ->
  final_k <= TOP_N_DEFAULT ->
  hybrid_prepare query final_k w = (Ok (top_ids, top_sims), w1) ->
  slice_to top_ids TOP_N_DEFAULT = top_ids /\
  slice_to top_sims TOP_N_DEFAULT = top_sims.
Proof.
  intros Hcontract Hk Hprep.
  pose proof (candidates_same_length _ _ _ _ _ _ Hprep) as Hlen.
  apply hybrid_prepare_Ok in Hprep as (wa & q_vec & wb & _ & _ & Hs).
  apply search_candidates_Ok in Hs
    as (index & res & _ & Hres & Hids & _ & _ & _).
  apply Hcontract in Hres.
  assert (Hfew : Z.of_nat (length top_ids) <= TOP_N_DEFAULT).
  { pose proof (length_filter (fun i => i <> -1) res.*2) as Hf.
    rewrite length_fmap in Hf. lia. }
  split; apply slice_to_all; lia.
Qed.

(* ----------------------------------------------------------------- *)
(** ** Acceptance *)

(** The run of an accepted query. *)
Lemma accepted_query_records_aux
    (query : option pystr) (final_k : Z) (w w1 : World)
    (top_ids : list Z) (top_sims rest : list float) (best : float) :
  norm query <> [] ->
  hybrid_prepare (norm query) final_k w = (Ok (top_ids, top_sims), w1) ->
  top_sims = best :: rest ->
  PrimFloat.ltb best (_sem_thr (glob w1)) = false ->
  exists dbg : diagnostics,
    hybrid_search query final_k w
    = (Ok (head (omap (stored_record (qa (db w1))) (slice_to top_ids final_k)),
           omap (stored_record (qa (db w1))) (slice_to top_ids final_k), dbg),
       add_log [EvFetch (slice_to top_ids final_k)] w1) /\
    dbg !! "rejected" = Some (PBool false).
Proof.
  intros Hq Hprep Hsims Hge.
  pose proof (best_candidate_exists _ _ _ _ _ _ _ _ Hprep Hsims) as Hne.
  eexists. split.
  - rewrite hybrid_search_run by exact Hq. rewrite Hprep.
    apply (rank_accept top_ids top_sims rest best); assumption.
  - rewrite lookup_insert_ne by done. apply lookup_insert_eq.
Qed.

(** C7. When the best similarity is not below the threshold, the ids to
    return are the slice [top_ids[:final_k]] of the candidate ids, which is
    their first [final_k] for a count [final_k >= 0]; they are looked up in
    one batched query (the only call made after the candidates are known);
    the records returned are the stored records of these ids, in the order
    of the ids and not of the fetch; an id the store does not hold yields
    no record and no error. *)
Theorem accepted_query_records
    (query : option pystr) (final_k : Z) (w w1 : World)
    (top_ids : list Z) (top_sims rest : list float) (best : float) :
  norm query <> [] ->
  hybrid_prepare (norm query) final_k w = (Ok (top_ids, top_sims), w1) ->
  top_sims = best :: rest ->
  PrimFloat.ltb best (_sem_thr (glob w1)) = false ->
  let out_ids := slice_to top_ids final_k in
  let records := omap (stored_record (qa (db w1))) out_ids in
  (0 <= final_k -> out_ids = take (Z.to_nat final_k) top_ids) /\
  (exists dbg : diagnostics,
     hybrid_search query final_k w
     = (Ok (head records, records, dbg), add_log [EvFetch out_ids] w1) /\
     dbg !! "rejected" = Some (PBool false) /\
     dbg !! "top_ids" = Some (PInts out_ids)) /\
  id <$> records = filter (fun i => i ∈ id <$> qa (db w1)) out_ids /\
  Forall (fun r => r ∈ qa (db w1)) records.
Proof.
  intros Hq Hprep Hsims Hge out_ids records.
  pose proof (best_candidate_exists _ _ _ _ _ _ _ _ Hprep Hsims) as Hne.
  split_and!.
  - intros Hk. apply slice_to_nonneg. exact Hk.
  - eexists. split_and!.
    + rewrite hybrid_search_run by exact Hq. rewrite Hprep.
      apply (rank_accept top_ids top_sims rest best); assumption.
    + rewrite lookup_insert_ne by done. apply lookup_insert_eq.
    + apply lookup_insert_eq.
  - apply omap_stored_ids.
  - apply omap_stored_rows.
Qed.

(** C10. A query that passes the threshold while the store holds none of
    the ids selected for it gets no best record and no records, with
    diagnostics that say [rejected = False]: an empty answer need not be a
    rejection. *)
Theorem accepted_query_without_records
    (query : option pystr) (final_k : Z) (w w1 : World)
    (top_ids : list Z) (top_sims rest : list float) (best : float) :
  norm query <> [] ->
  hybrid_prepare (norm query) final_k w = (Ok (top_ids, top_sims), w1) ->
  top_sims = best :: rest ->
  PrimFloat.ltb best (_sem_thr (glob w1)) = false ->
  Forall (fun i => i ∉ id <$> qa (db w1)) (slice_to top_ids final_k) ->
  exists dbg : diagnostics,
    hybrid_search query final_k w
    = (Ok (None, [], dbg), add_log [EvFetch (slice_to top_ids final_k)] w1) /\
    dbg !! "rejected" = Some (PBool false).
Proof.
  intros Hq Hprep Hsims Hge Hmiss.
  destruct (accepted_query_records_aux query final_k w w1 top_ids top_sims
              rest best Hq Hprep Hsims Hge) as (dbg & Hrun & Hrej).
  rewrite (omap_stored_missing _ _ Hmiss) in Hrun. exists dbg. split; assumption.
Qed.

(* ----------------------------------------------------------------- *)
(** ** Size and order of the ranked records *)

Lemma descending_sublist (l1 l2 : list float) :
  l1 `sublist_of` l2 -> descending l2 -> descending l1.
Proof.
  unfold descending. induction 1 as [|x l1 l2 Hsub IH|x l1 l2 Hsub IH];
    intros Hsorted.
  - constructor.
  - apply StronglySorted_inv in Hsorted as [Hl2 Hx].
    constructor; [apply IH; exact Hl2|].
    rewrite Forall_forall in Hx. rewrite Forall_forall.
    intros y Hy. apply Hx. eapply elem_of_sublist; eassumption.
  - apply StronglySorted_inv in Hsorted as [Hl2 _]. apply IH. exact Hl2.
Qed.

Lemma scored_records_fst (rows : list qa_row) (cands : list (Z * float)) :
  (scored_records rows cands).*1 = omap (stored_record rows) cands.*1.
Proof.
  unfold scored_records. induction cands as [|[i s] cands IH]; [reflexivity|].
  cbn [omap list_omap fmap list_fmap fst snd].
  destruct (stored_record rows i) as [r|]; cbn; [f_equal|]; exact IH.
Qed.

Lemma scored_records_sublist (rows : list qa_row) (cands : list (Z * float)) :
  (fun rs : qa_row * float => (id rs.1, rs.2)) <$> scored_records rows cands
  `sublist_of` cands.
Proof.
  unfold scored_records. induction cands as [|[i s] cands IH]; [constructor|].
  cbn [omap list_omap fst snd].
  destruct (stored_record rows i) as [r|] eqn:Hr; cbn.
  - apply stored_record_Some in Hr as [_ ->]. apply sublist_skip. exact IH.
  - apply sublist_cons. exact IH.
Qed.

Lemma scored_records_snd (rows : list qa_row) (cands : list (Z * float)) :
  (scored_records rows cands).*2 `sublist_of` cands.*2.
Proof.
  pose proof (scored_records_sublist rows cands) as Hsub.
  apply (fmap_sublist snd) in Hsub.
  rewrite <- list_fmap_compose in Hsub. exact Hsub.
Qed.

(** Under the contract of the index the candidate similarities are in
    non-increasing order. *)
Lemma candidates_descending (query : pystr) (final_k : Z) (w w1 : World)
    (top_ids : list Z) (top_sims : list float) :
  (forall ix v k res, faiss_search ix v k = Ok res -> descending res.*1) ->
  hybrid_prepare query final_k w = (Ok (top_ids, top_sims), w1) ->
  descending top_sims.
Proof.
  intros Hcontract Hrun.
  apply hybrid_prepare_Ok in Hrun as (wa & q_vec & wb & _ & _ & Hs).
  apply search_candidates_Ok in Hs
    as (index & res & _ & Hres & _ & _ & -> & _).
  eapply descending_sublist; [|eapply Hcontract; exact Hres].
  apply fmap_sublist, sublist_filter.
Qed.

(** C2 (as amended). For a count [final_k >= 0] and an index that returns
    its neighbours in non-increasing order of similarity, [hybrid_search]
    returns at most [final_k] records; paired with their similarities they
    are a subsequence of the first [final_k] candidates, and each
    similarity is at least every later one. *)
Theorem ranked_records_bounded_descending
    (query : option pystr) (final_k : Z) (w w1 : World)
    (top_ids : list Z) (top_sims : list float) :
  (forall ix v k res, faiss_search ix v k = Ok res -> descending res.*1) ->
  0 <= final_k ->
  norm query <> [] ->
  hybrid_prepare (norm query) final_k w = (Ok (top_ids, top_sims), w1) ->
  exists best records dbg w2 (scored : list (qa_row * float)),
    hybrid_search query final_k w = (Ok (best, records, dbg), w2) /\
    Z.of_nat (length records) <= final_k /\
    records = scored.*1 /\
    (fun rs : qa_row * float => (id rs.1, rs.2)) <$> scored
      `sublist_of` take (Z.to_nat final_k) (zip top_ids top_sims) /\
    descending scored.*2.
Proof.
  intros Hcontract Hk Hq Hprep.
  pose proof (candidates_same_length _ _ _ _ _ _ Hprep) as Hlen.
  pose proof (candidates_descending _ _ _ _ _ _ Hcontract Hprep) as Hdesc.
  assert (Hempty : forall dbg w2,
    hybrid_search query final_k w = (Ok (None, [], dbg), w2) ->
    exists best records dbg w2 (scored : list (qa_row * float)),
      hybrid_search query final_k w = (Ok (best, records, dbg), w2) /\
      Z.of_nat (length records) <= final_k /\
      records = scored.*1 /\
      (fun rs : qa_row * float => (id rs.1, rs.2)) <$> scored
        `sublist_of` take (Z.to_nat final_k) (zip top_ids top_sims) /\
      descending scored.*2).
  { intros dbg w2 Hrun. exists None, [], dbg, w2, [].
    split_and!; [exact Hrun|cbn; lia|reflexivity|apply sublist_nil_l|constructor]. }
  destruct top_sims as [|best rest] eqn:Hsims.
  { destruct top_ids; [|discriminate].
    eapply Hempty. rewrite hybrid_search_run by exact Hq. rewrite Hprep.
    apply rank_no_candidate. }
  rewrite <- Hsims in *.
  destruct (PrimFloat.ltb best (_sem_thr (glob w1))) eqn:Hgate.
  { destruct (rejected_query_run query final_k w w1 top_ids top_sims rest
                best Hq Hprep Hsims Hgate) as (dbg & Hrun).
    eapply Hempty. exact Hrun. }
  destruct (accepted_query_records_aux query final_k w w1 top_ids top_sims
              rest best Hq Hprep Hsims Hgate) as (dbg & Hrun & _).
  set (cands := take (Z.to_nat final_k) (zip top_ids top_sims)).
  assert (Hfst : cands.*1 = slice_to top_ids final_k).
  { unfold cands. rewrite fmap_take, fst_zip by lia.
    symmetry. apply slice_to_nonneg. exact Hk. }
  eexists _, _, dbg, _, (scored_records (qa (db w1)) cands). split_and!.
  - exact Hrun.
  - etransitivity; [|apply (slice_to_length top_ids final_k Hk)].
    apply inj_le. rewrite <- Hfst, <- scored_records_fst, !length_fmap.
    pose proof (sublist_length _ _ (scored_records_sublist (qa (db w1)) cands))
      as Hsl.
    rewrite length_fmap in Hsl. exact Hsl.
  - rewrite scored_records_fst, Hfst. reflexivity.
  - apply scored_records_sublist.
  - eapply descending_sublist; [|exact Hdesc].
    etransitivity; [apply scored_records_snd|].
    unfold cands. rewrite fmap_take, snd_zip by lia. apply sublist_take.
Qed.

(* ----------------------------------------------------------------- *)
(** ** The query cache *)

(** The embedding step on a cache miss whose write fails. *)
Lemma query_embedding_put_fails (query qh model : pystr) (v : list f32)
    (e : exn) (wa wb : World) :
  query_hash (Some query) = Ok qh ->
  get_cached_query_emb qh wa = (Ok None, wa) ->
  _st_model (glob wa) = Some model ->
  st_encode model query = Ok v ->
  put_cached_query_emb qh query v (add_log [EvEncode model query] wa)
  = (Raise e, wb) ->
  query_embedding query wa = (Raise e, wb).
Proof.
  intros Hqh Hget Hmodel Henc Hput.
  unfold query_embedding. rewrite bind_run. unfold lift at 1. rewrite Hqh.
  rewrite bind_run. cbn [CACHE_QUERY_EMB_TO_DB]. rewrite Hget.
  rewrite bind_run. cbn [get_world]. rewrite Hmodel.
  rewrite bind_run. cbn [emit]. fold (add_log [EvEncode model query] wa).
  rewrite bind_run. unfold lift at 1. rewrite Henc.
  rewrite bind_run. cbn [CACHE_QUERY_EMB_TO_DB]. rewrite Hput. reflexivity.
Qed.

(** In this model the write fails exactly on a database that cannot be
    written (or has no cache table), with [OperationalError]. *)
Lemma put_cached_query_emb_fails (qh text : pystr) (v : list f32) (w : World) :
  (exists e w', put_cached_query_emb qh text v w = (Raise e, w')) <->
  qa_query_cache (db w) = None \/ writable (db w) = false.
Proof.
  unfold put_cached_query_emb. rewrite bind_run. cbn [get_world].
  destruct (qa_query_cache (db w)) as [t|]; [destruct (writable (db w))|]; cbn.
  - split; [intros (e & w' & [=])|intros [[=]|[=]]].
  - split; [right; reflexivity|eexists _, _; reflexivity].
  - split; [left; reflexivity|eexists _, _; reflexivity].
Qed.

(** C3 (as amended). When the query is not in the cache, the embedding is
    computed and the write of it to the cache raises, [hybrid_search]
    raises that same exception: the failure of the write is the failure of
    the search, and no result is returned. *)
Theorem cache_write_failure_propagates
    (query : option pystr) (final_k : Z) (w wa wb : World)
    (qh model : pystr) (v : list f32) (e : exn) :
  norm query <> [] ->
  hybrid_setup w = (Ok tt, wa) ->
  query_hash (Some (norm query)) = Ok qh ->
  get_cached_query_emb qh wa = (Ok None, wa) ->
  _st_model (glob wa) = Some model ->
  st_encode model (norm query) = Ok v ->
  put_cached_query_emb qh (norm query) v
    (add_log [EvEncode model (norm query)] wa) = (Raise e, wb) ->
  hybrid_search query final_k w = (Raise e, wb).
Proof.
  intros Hq Hsetup Hqh Hget Hmodel Henc Hput.
  rewrite hybrid_search_run by exact Hq.
  unfold hybrid_prepare. rewrite bind_run, Hsetup.
  rewrite bind_run.
  rewrite (query_embedding_put_fails _ _ _ _ _ _ _ Hqh Hget Hmodel Henc Hput).
  reflexivity.
Qed.

(** With the table and the models in place the set-up does nothing. *)
Lemma hybrid_setup_ready (w : World) :
  is_Some (qa_query_cache (db w)) -> models_loaded w ->
  hybrid_setup w = (Ok tt, w).
Proof.
  intros [t Ht] ([m Hm] & [ix Hix] & [ids Hids]).
  unfold hybrid_setup, ensure_query_cache_table. run.
  rewrite Ht. run. rewrite Hm, Hix, Hids. reflexivity.
Qed.

Lemma init_models_once_Ok (name which : pystr) (thr : float) (w wa : World) :
  init_models_once (Some tt) name which thr w = (Ok tt, wa) ->
  db wa = db w /\ models_loaded wa.
Proof.
  unfold init_models_once, models_loaded. run.
  destruct (_st_model (glob w)) as [m|] eqn:Hm; run.
  2: destruct (st_load name) as [m|e]; [run|discriminate].
  all: cbn [_st_model _faiss_index _faiss_ids];
    destruct (_faiss_index (glob w)) as [ix|] eqn:Hix;
    [destruct (_faiss_ids (glob w)) as [ids|] eqn:Hids|]; run;
    try (destruct (load_all_embeddings (db w) name which) as [r|e];
         [run|discriminate]);
    intros [= <-]; cbn; rewrite ?Hm, ?Hix, ?Hids; eauto.
Qed.

Lemma hybrid_setup_Ok (w wa : World) :
  hybrid_setup w = (Ok tt, wa) ->
  is_Some (qa_query_cache (db wa)) /\ models_loaded wa.
Proof.
  unfold hybrid_setup. intros Hrun.
  apply bind_Ok in Hrun as ([] & w' & Hens & Hrun).
  assert (Htab : is_Some (qa_query_cache (db w'))).
  { revert Hens. unfold ensure_query_cache_table. run.
    destruct (qa_query_cache (db w)) as [t|] eqn:Ht; run.
    - intros [= <-]. rewrite Ht. eauto.
    - destruct (writable (db w)); run; [|discriminate].
      intros [= <-]. cbn. eauto. }
  revert Hrun. run.
  destruct (_st_model (glob w')) as [m|] eqn:Hm;
    [destruct (_faiss_index (glob w')) as [ix|] eqn:Hix;
     [destruct (_faiss_ids (glob w')) as [ids|] eqn:Hids|]|].
  1: { intros [= <-]. split; [exact Htab|].
       unfold models_loaded. rewrite Hm, Hix, Hids. eauto. }
  all: intros Hinit; apply init_models_once_Ok in Hinit as [Hdb Hloaded];
    split; [rewrite Hdb; exact Htab|exact Hloaded].
Qed.

(** A cache hit: the stored vector is the embedding, and nothing else
    happens. *)
Lemma query_embedding_hit (query qh : pystr) (row : cache_row)
    (v : list f32) (w : World) :
  query_hash (Some query) = Ok qh ->
  cached w qh row ->
  blob_to_vec (q_emb row) (dim row) = Ok v ->
  query_embedding query w = (Ok v, w).
Proof.
  intros Hqh (t & Ht & Hrow) Hv.
  unfold query_embedding, get_cached_query_emb. run.
  rewrite Hqh. run. rewrite Ht, Hrow. run. rewrite Hv. reflexivity.
Qed.

(** What [vec_to_blob] wrote can be read back at the length written. *)
Lemma blob_to_vec_written (v : list f32) :
  exists v', blob_to_vec (vec_to_blob v) (Z.of_nat (length v)) = Ok v'.
Proof.
  unfold blob_to_vec, np_frombuffer. rewrite vec_to_blob_length.
  destruct (Z.ltb_spec (Z.of_nat (length v)) 0); [lia|].
  destruct (Z.ltb_spec (Z.of_nat (4 * length v)) (Z.of_nat (length v) * 4));
    [lia|]. eauto.
Qed.

(** After the embedding step has succeeded the cache holds a readable
    entry for the query, and the globals are as before. *)
Lemma query_embedding_Ok (query : pystr) (v : list f32) (wa wb : World) :
  query_embedding query wa = (Ok v, wb) ->
  glob wb = glob wa /\
  exists qh row v',
    query_hash (Some query) = Ok qh /\ cached wb qh row /\
    blob_to_vec (q_emb row) (dim row) = Ok v'.
Proof.
  unfold query_embedding, get_cached_query_emb, put_cached_query_emb, cached.
  run. destruct (query_hash (Some query)) as [qh|e]; [run|discriminate].
  destruct (qa_query_cache (db wa)) as [t|] eqn:Ht; [run|discriminate].
  destruct (t !! qh) as [row|] eqn:Hrow; run.
  - destruct (blob_to_vec (q_emb row) (dim row)) as [v0|e] eqn:Hv0;
      [run|discriminate].
    intros [= <- <-]. split; [reflexivity|]. exists qh, row, v0. eauto.
  - destruct (_st_model (glob wa)) as [model|]; [run|discriminate].
    destruct (st_encode model query) as [emb|e]; [run|discriminate].
    rewrite Ht. destruct (writable (db wa)); [run|discriminate].
    intros [= <- <-]. split; [reflexivity|].
    destruct (blob_to_vec_written emb) as [v' Hv'].
    eexists qh, _, v'. split; [reflexivity|].
    split; [eexists; split; [reflexivity|apply lookup_insert_eq]|exact Hv'].
Qed.

(** The index search logs one search and touches nothing else. *)
Lemma search_candidates_world (q_vec : list f32) (final_k : Z) (w : World) :
  (search_candidates q_vec final_k w).2 = w \/
  (search_candidates q_vec final_k w).2
  = add_log [EvSearch q_vec (Z.max final_k TOP_N_DEFAULT)] w.
Proof.
  unfold search_candidates. run.
  destruct (_faiss_index (glob w)) as [ix|]; [|left; reflexivity].
  run. right.
  destruct (faiss_search ix q_vec (Z.max final_k TOP_N_DEFAULT)) as [res|e];
    [run|reflexivity].
  destruct (match _faiss_ids (glob w) with Some _ => _ | None => _ end);
    reflexivity.
Qed.

(** The ranking logs at most one record lookup and touches nothing else. *)
Lemma rank_and_fetch_world (top_ids : list Z) (top_sims : list float)
    (final_k : Z) (w : World) :
  (rank_and_fetch top_ids top_sims final_k w).2 = w \/
  (rank_and_fetch top_ids top_sims final_k w).2
  = add_log [EvFetch (slice_to top_ids final_k)] w.
Proof.
  unfold rank_and_fetch. run.
  destruct top_ids as [|i top_ids]; [left; reflexivity|].
  destruct (PrimFloat.ltb _ _); [left; reflexivity|right; reflexivity].
Qed.

Lemma search_candidates_loaded (q_vec : list f32) (final_k : Z) (w : World) :
  models_loaded w ->
  (search_candidates q_vec final_k w).2
  = add_log [EvSearch q_vec (Z.max final_k TOP_N_DEFAULT)] w.
Proof.
  intros (_ & [ix Hix] & _).
  unfold search_candidates. run. rewrite Hix. run.
  destruct (faiss_search ix q_vec (Z.max final_k TOP_N_DEFAULT)) as [res|e];
    [run|reflexivity].
  destruct (match _faiss_ids (glob w) with Some _ => _ | None => _ end);
    reflexivity.
Qed.

Lemma query_hash_norm (query : option pystr) :
  query_hash (Some (norm query)) = query_hash query.
Proof. unfold query_hash. rewrite norm_idempotent. reflexivity. Qed.

Lemma encode_calls_add_log (evs : list event) (w : World) :
  Forall (fun ev => is_encode ev = false) evs ->
  encode_calls (add_log evs w) = encode_calls w.
Proof.
  intros Hevs. unfold encode_calls, add_log. cbn [log].
  rewrite List.filter_app, length_app.
  replace (List.filter is_encode evs) with (@nil event); [cbn; lia|].
  induction Hevs as [|ev evs Hev _ IH]; [reflexivity|].
  cbn. rewrite Hev. exact IH.
Qed.

(** A search whose query is in the cache, on a process that is set up:
    the index is searched with the stored vector and the embedding
    provider is not called. *)
Lemma hybrid_search_cached (query : option pystr) (final_k : Z) (w : World)
    (qh : pystr) (row : cache_row) (v : list f32) :
  norm query <> [] ->
  models_loaded w ->
  query_hash query = Ok qh ->
  cached w qh row ->
  blob_to_vec (q_emb row) (dim row) = Ok v ->
  exists evs,
    (hybrid_search query final_k w).2
    = add_log (EvSearch v (Z.max final_k TOP_N_DEFAULT) :: evs) w /\
    Forall (fun ev => is_encode ev = false) evs.
Proof.
  intros Hq Hloaded Hqh Hcached Hv.
  assert (Htab : is_Some (qa_query_cache (db w))).
  { destruct Hcached as (t & Ht & _). rewrite Ht. eauto. }
  rewrite hybrid_search_run by exact Hq. unfold hybrid_prepare.
  rewrite bind_run, (hybrid_setup_ready w Htab Hloaded).
  rewrite bind_run.
  rewrite (query_embedding_hit (norm query) qh row v w)
    by (rewrite ?query_hash_norm; assumption).
  pose proof (search_candidates_loaded v final_k w Hloaded) as Hsearch.
  destruct (search_candidates v final_k w) as [[c|e] ws]; cbn [snd] in Hsearch;
    subst ws.
  - destruct (rank_and_fetch_world c.1 c.2 final_k
               (add_log [EvSearch v (Z.max final_k TOP_N_DEFAULT)] w))
      as [Hw|Hw]; rewrite Hw.
    + exists []. split; [reflexivity|constructor].
    + exists [EvFetch (slice_to c.1 final_k)]. split; [|repeat constructor].
      unfold add_log. cbn [db glob now log]. rewrite <- app_assoc. reflexivity.
  - exists []. split; [reflexivity|constructor].
Qed.

(** C5. Two queries with the same normal form have the same cache key,
    which is the key [hybrid_search] files the embedding under.  Once a
    search for one of them has returned, the cache holds a readable entry
    under that key; a search for the other then needs no set-up, takes
    the stored vector as its embedding, searches the index with it and
    does not call the embedding provider. *)
Theorem repeated_query_hits_cache
    (q1 q2 : option pystr) (k1 k2 : Z) (w w1 : World)
    (r1 : option qa_row * list qa_row * diagnostics) :
  norm q1 = norm q2 ->
  query_hash q1 = query_hash q2 /\
  query_hash (Some (norm q2)) = query_hash q2 /\
  (norm q1 <> [] ->
   hybrid_search q1 k1 w = (Ok r1, w1) ->
   exists qh row v,
     query_hash q2 = Ok qh /\
     cached w1 qh row /\
     blob_to_vec (q_emb row) (dim row) = Ok v /\
     hybrid_setup w1 = (Ok tt, w1) /\
     query_embedding (norm q2) w1 = (Ok v, w1) /\
     (exists evs,
        (hybrid_search q2 k2 w1).2
        = add_log (EvSearch v (Z.max k2 TOP_N_DEFAULT) :: evs) w1 /\
        Forall (fun ev => is_encode ev = false) evs) /\
     encode_calls (hybrid_search q2 k2 w1).2 = encode_calls w1).
Proof.
  intros Hnorm. split_and!.
  - unfold query_hash. rewrite Hnorm. reflexivity.
  - apply query_hash_norm.
  - intros Hq Hrun.
    rewrite hybrid_search_run in Hrun by exact Hq.
    destruct (hybrid_prepare (norm q1) k1 w) as [[c|e] wp] eqn:Hprep;
      [|discriminate].
    apply hybrid_prepare_Ok in Hprep as (wa & v0 & wb & Hsetup & Hemb & Hsearch).
    apply hybrid_setup_Ok in Hsetup as [_ Hloaded].
    apply query_embedding_Ok in Hemb
      as (Hglob & qh & row & v & Hqh & Hcached & Hv).
    assert (Hwp : db wp = db wb /\ glob wp = glob wb).
    { destruct (search_candidates_world v0 k1 wb) as [Hw|Hw];
        rewrite Hsearch in Hw; cbn [snd] in Hw; subst wp; split; reflexivity. }
    assert (Hw1 : db w1 = db wp /\ glob w1 = glob wp).
    { destruct (rank_and_fetch_world c.1 c.2 k1 wp) as [Hw|Hw];
        rewrite Hrun in Hw; cbn [snd] in Hw; subst w1; split; reflexivity. }
    destruct Hwp as [Hdb1 Hgl1]. destruct Hw1 as [Hdb2 Hgl2].
    assert (Hloaded1 : models_loaded w1).
    { unfold models_loaded in *. rewrite Hgl2, Hgl1, Hglob. exact Hloaded. }
    assert (Hcached1 : cached w1 qh row).
    { unfold cached in *. rewrite Hdb2, Hdb1. exact Hcached. }
    assert (Hqh2 : query_hash q2 = Ok qh).
    { rewrite <- query_hash_norm, <- Hnorm. exact Hqh. }
    assert (Hq2 : norm q2 <> []) by (rewrite <- Hnorm; exact Hq).
    assert (Htab : is_Some (qa_query_cache (db w1))).
    { destruct Hcached1 as (t & Ht & _). rewrite Ht. eauto. }
    destruct (hybrid_search_cached q2 k2 w1 qh row v Hq2 Hloaded1 Hqh2
                Hcached1 Hv) as (evs & Hlog & Hevs).
    exists qh, row, v. split_and!; try assumption.
    + apply hybrid_setup_ready; assumption.
    + apply (query_embedding_hit _ qh row); [|assumption..].
      rewrite query_hash_norm. exact Hqh2.
    + exists evs. split; assumption.
    + rewrite Hlog. apply encode_calls_add_log.
      constructor; [reflexivity|exact Hevs].
Qed.

(* ----------------------------------------------------------------- *)
(** ** The embedding loader *)

Lemma order_by_qa_id_perm (rows : list vec_row) : order_by_qa_id rows ≡ₚ rows.
Proof. apply merge_sort_Permutation. Qed.

Lemma order_by_qa_id_nil (rows : list vec_row) :
  order_by_qa_id rows = [] <-> rows = [].
Proof.
  rewrite <- !Permutation_nil_r. rewrite order_by_qa_id_perm. reflexivity.
Qed.

#[local] Instance qa_id_le_total : Total qa_id_le.
Proof. intros r1 r2. unfold qa_id_le. lia. Qed.

Lemma order_by_qa_id_sorted (rows : list vec_row) :
  Sorted qa_id_le (order_by_qa_id rows).
Proof. apply Sorted_merge_sort. exact qa_id_le_total. Qed.

Lemma select_rows_case (model_name : pystr) (d : database) :
  select_rows model_name d
  = order_by_qa_id
      (if decide (filter (fun r => v_model_name r = model_name) (qa_vec d) = [])
       then qa_vec d
       else filter (fun r => v_model_name r = model_name) (qa_vec d)).
Proof.
  unfold select_rows.
  destruct (decide (filter _ (qa_vec d) = [])) as [Hnil|Hne].
  - rewrite bool_decide_eq_true_2; [reflexivity|].
    apply order_by_qa_id_nil. exact Hnil.
  - rewrite bool_decide_eq_false_2; [reflexivity|].
    rewrite order_by_qa_id_nil. exact Hne.
Qed.

Lemma read_f32s_length (n : nat) (b : list byte) : length (read_f32s n b) = n.
Proof. revert b. induction n as [|n IH]; intros b; cbn; [|rewrite IH]; reflexivity. Qed.

Lemma np_frombuffer_Raise (b : list byte) (count : Z) (e : exn) :
  np_frombuffer b count = Raise e -> e = ValueError.
Proof.
  unfold np_frombuffer.
  destruct (count <? 0); [destruct (_ =? 0)|destruct (_ <? _)];
    intros [=]; congruence.
Qed.

(** The loop, row by row: the ids kept are those of the usable rows, in
    order; the only exception it can raise is numpy's [ValueError], on a
    usable row. *)
Lemma collect_vecs_outcome (which_vec : pystr) (rows : list vec_row) :
  match collect_vecs which_vec rows with
  | Ok acc =>
      acc.1 = v_qa_id <$> usable_rows which_vec rows /\
      length acc.2 = length (usable_rows which_vec rows)
  | Raise e => e = ValueError /\ usable_rows which_vec rows <> []
  end.
Proof.
  unfold usable_rows.
  induction rows as [|r rows IH]; [split; reflexivity|]. cbn [collect_vecs].
  destruct (vec_col which_vec r) as [blob|] eqn:Hcol.
  - rewrite filter_cons_True by (rewrite Hcol; eauto).
    destruct (np_frombuffer blob (v_dim r)) as [v|e] eqn:Hv; cbn.
    + destruct (collect_vecs which_vec rows) as [acc|e]; cbn.
      * destruct IH as [-> ->]. split; reflexivity.
      * destruct IH as [-> _]. split; [reflexivity|discriminate].
    + apply np_frombuffer_Raise in Hv. split; [exact Hv|discriminate].
  - rewrite filter_cons_False
      by (rewrite Hcol; intros [? [=]]).
    exact IH.
Qed.

Lemma np_frombuffer_well_stored (which_vec : pystr) (n : nat) (r : vec_row)
    (blob : list byte) :
  well_stored which_vec n r ->
  vec_col which_vec r = Some blob ->
  np_frombuffer blob (v_dim r) = Ok (decode_row which_vec r).
Proof.
  intros (blob' & Hcol & Hdim & Hlen) Hblob.
  rewrite Hcol in Hblob. injection Hblob as ->.
  unfold np_frombuffer, decode_row. rewrite Hcol, Hdim. cbn [default].
  destruct (Z.ltb_spec (Z.of_nat n) 0); [lia|].
  destruct (Z.ltb_spec (Z.of_nat (length blob)) (Z.of_nat n * 4)); [lia|].
  reflexivity.
Qed.

Lemma collect_vecs_well_stored (which_vec : pystr) (n : nat)
    (rows : list vec_row) :
  Forall (well_stored which_vec n) (usable_rows which_vec rows) ->
  collect_vecs which_vec rows
  = Ok (v_qa_id <$> usable_rows which_vec rows,
        decode_row which_vec <$> usable_rows which_vec rows).
Proof.
  unfold usable_rows.
  induction rows as [|r rows IH]; [reflexivity|]. cbn [collect_vecs].
  destruct (vec_col which_vec r) as [blob|] eqn:Hcol.
  - rewrite filter_cons_True by (rewrite Hcol; eauto).
    intros Hall. apply Forall_cons in Hall as [Hr Hall].
    rewrite (np_frombuffer_well_stored which_vec n r blob Hr Hcol).
    cbn. rewrite (IH Hall). reflexivity.
  - rewrite filter_cons_False by (rewrite Hcol; intros [? [=]]).
    exact IH.
Qed.

Lemma np_vstack_same_length {A} (n : nat) (vecs : list (list A)) :
  vecs <> [] -> Forall (fun v => length v = n) vecs -> np_vstack vecs = Ok vecs.
Proof.
  intros Hne Hall. unfold np_vstack.
  destruct vecs as [|v vecs]; [contradiction|].
  replace (forallb _ (v :: vecs)) with true; [reflexivity|].
  symmetry. apply forallb_forall. intros u Hu.
  rewrite Forall_forall in Hall.
  apply Nat.eqb_eq. rewrite (Hall v) by apply list_elem_of_here.
  apply Hall. apply list_elem_of_In. exact Hu.
Qed.

Lemma np_vstack_outcome {A} (vecs : list (list A)) :
  np_vstack vecs = Ok vecs \/ np_vstack vecs = Raise ValueError.
Proof.
  unfold np_vstack. destruct vecs as [|v vecs]; [right; reflexivity|].
  destruct (forallb _ _); [left|right]; reflexivity.
Qed.

(** C4 (as amended). [load_all_embeddings] works on the rows of the
    requested model, or on all rows when no row has that model, ordered by
    id.  Rows whose vector is [NULL] are skipped.  It raises the
    no-embeddings [RuntimeError] exactly when no usable row remains.  When
    usable rows remain and all are in the stored format at one dimension,
    it returns their ids and the row-normalised matrix of their vectors;
    the only other outcome is numpy's [ValueError] (a blob shorter than
    its dimension says, or rows of different dimensions). *)
Theorem load_all_embeddings_outcome
    (d : database) (model_name which_vec : pystr) :
  let matching := filter (fun r => v_model_name r = model_name) (qa_vec d) in
  let rows := select_rows model_name d in
  let usable := usable_rows which_vec rows in
  (matching <> [] -> rows ≡ₚ matching) /\
  (matching = [] -> rows ≡ₚ qa_vec d) /\
  Sorted qa_id_le rows /\
  (load_all_embeddings d model_name which_vec = Raise (RuntimeError NoEmbeddings)
   <-> usable = []) /\
  (forall n : nat,
     usable <> [] -> Forall (well_stored which_vec n) usable ->
     load_all_embeddings d model_name which_vec
     = Ok (v_qa_id <$> usable,
           l2_normalize_rows (decode_row which_vec <$> usable))) /\
  (forall e : exn,
     load_all_embeddings d model_name which_vec = Raise e ->
     e = RuntimeError NoEmbeddings \/ e = ValueError).
Proof.
  intros matching rows usable.
  assert (Hrows : rows = order_by_qa_id
            (if decide (matching = []) then qa_vec d else matching))
    by apply select_rows_case.
  split_and!.
  - intros Hne. rewrite Hrows. destruct (decide (matching = [])); [contradiction|].
    apply order_by_qa_id_perm.
  - intros Hnil. rewrite Hrows. destruct (decide (matching = [])); [|contradiction].
    apply order_by_qa_id_perm.
  - rewrite Hrows. apply order_by_qa_id_sorted.
  - unfold load_all_embeddings. fold rows.
    pose proof (collect_vecs_outcome which_vec rows) as Hc. fold usable in Hc.
    destruct (collect_vecs which_vec rows) as [acc|e]; cbn.
    + destruct Hc as [_ Hlen]. destruct acc.2 as [|v vecs] eqn:Hvecs.
      * split; [intros _|reflexivity].
        destruct usable; [reflexivity|discriminate].
      * split; [|intros ->; discriminate].
        destruct (np_vstack_outcome (v :: vecs)) as [-> | ->]; discriminate.
    + destruct Hc as [-> Hne]. split; [discriminate|contradiction].
  - intros n Hne Hall. unfold load_all_embeddings. fold rows.
    rewrite (collect_vecs_well_stored which_vec n rows Hall). fold usable.
    assert (Hv : np_vstack (decode_row which_vec <$> usable)
                 = Ok (decode_row which_vec <$> usable)).
    { apply (np_vstack_same_length n).
      - intros Hnil. apply fmap_nil_inv in Hnil. contradiction.
      - apply Forall_fmap. eapply Forall_impl; [exact Hall|].
        intros r' (blob & _ & Hdim & _). unfold decode_row. cbn.
        rewrite read_f32s_length, Hdim. apply Nat2Z.id. }
    cbn [mbind result_bind snd fst]. revert Hv.
    destruct (decode_row which_vec <$> usable) as [|v vs] eqn:Hd.
    { apply fmap_nil_inv in Hd. contradiction. }
    intros ->. reflexivity.
  - intros e. unfold load_all_embeddings. fold rows.
    pose proof (collect_vecs_outcome which_vec rows) as Hc.
    destruct (collect_vecs which_vec rows) as [acc|e']; cbn.
    + destruct acc.2 as [|v vecs]; [intros [= <-]; left; reflexivity|].
      destruct (np_vstack_outcome (v :: vecs)) as [-> | ->];
        [discriminate|intros [= <-]; right; reflexivity].
    + destruct Hc as [-> _]. intros [= <-]. right. reflexivity.
Qed.

End Properties.

(* ================================================================= *)
(** * Further properties of [find_candidates.py] *)

(* ----------------------------------------------------------------- *)
(** ** The normal form of a text *)

Lemma tidy_only_spaces (b : bool) (s : pystr) :
  tidy b s -> Forall (fun c => isspace c = true -> c = SPACE) s.
Proof.
  revert b. induction s as [|c r IH]; intros b Hs; [constructor|].
  cbn in Hs. destruct (isspace c) eqn:Hc.
  - destruct Hs as (_ & -> & Hr). constructor; [reflexivity|exact (IH _ Hr)].
  - constructor; [congruence|exact (IH _ Hs)].
Qed.

Lemma tidy_no_run (b : bool) (s : pystr) (i : nat) (c d : N) :
  tidy b s -> s !! i = Some c -> s !! S i = Some d ->
  isspace c = true -> isspace d = false.
Proof.
  revert b i. induction s as [|x r IH]; intros b i Hs Hc Hd Hsp; [discriminate|].
  cbn in Hs. destruct i as [|i].
  - injection Hc as ->. rewrite Hsp in Hs. destruct Hs as (_ & _ & Hr).
    destruct r as [|y r]; [discriminate|]. injection Hd as ->.
    cbn in Hr. destruct (isspace d); [|reflexivity].
    destruct Hr as [Hr _]. discriminate.
  - cbn in Hc, Hd. destruct (isspace x).
    + destruct Hs as (_ & _ & Hr). exact (IH _ _ Hr Hc Hd Hsp).
    + exact (IH _ _ Hs Hc Hd Hsp).
Qed.

Lemma lstrip_length (s : pystr) : (length (lstrip s) <= length s)%nat.
Proof.
  induction s as [|c r IH]; [reflexivity|]. cbn.
  destruct (isspace c); cbn; lia.
Qed.

Lemma rstrip_length (s : pystr) : (length (rstrip s) <= length s)%nat.
Proof.
  unfold rstrip. rewrite length_reverse.
  etransitivity; [apply lstrip_length|]. rewrite length_reverse. reflexivity.
Qed.

Lemma sub_ws_length (b : bool) (s : pystr) :
  (length (sub_ws_from b s) <= length s)%nat.
Proof.
  revert b. induction s as [|c r IH]; intros b; [reflexivity|]. cbn.
  pose proof (IH true). pose proof (IH false).
  destruct (isspace c); [destruct b|]; cbn; lia.
Qed.

(** X1. The result of [norm] is in normal form: normalising it again
    changes nothing; its only whitespace characters are plain spaces; it
    neither starts nor ends with whitespace; no two whitespace characters
    are adjacent; and it is never longer than the text given. *)
Theorem norm_is_normal_form (s : option pystr) :
  let t := norm s in
  norm (Some t) = t /\
  Forall (fun c => isspace c = true -> c = SPACE) t /\
  (forall c, head t = Some c -> isspace c = false) /\
  (forall c, last t = Some c -> isspace c = false) /\
  (forall i c d, t !! i = Some c -> t !! S i = Some d ->
     isspace c = true -> isspace d = false) /\
  (length t <= length (default [] s))%nat.
Proof.
  intros t.
  assert (Htidy : tidy false t).
  { apply sub_ws_tidy. apply rstrip_ends_clean. }
  split_and!.
  - apply norm_idempotent.
  - exact (tidy_only_spaces _ _ Htidy).
  - intros c Hc.
    pose proof (sub_ws_head _ (strip_head (default [] s))) as Hh.
    fold (norm s) in Hh. fold t in Hh.
    destruct t as [|x r]; [discriminate|]. injection Hc as <-. exact Hh.
  - intros c Hc. pose proof (tidy_ends_clean _ _ Htidy) as He.
    unfold ends_clean in He. rewrite Hc in He. exact He.
  - intros i c d. exact (tidy_no_run _ _ _ _ _ Htidy).
  - unfold t, norm, sub_ws, strip.
    etransitivity; [apply sub_ws_length|].
    etransitivity; [apply rstrip_length|]. apply lstrip_length.
Qed.

Lemma lstrip_visible (s : pystr) :
  filter (fun c => isspace c = false) (lstrip s)
  = filter (fun c => isspace c = false) s.
Proof.
  induction s as [|c r IH]; [reflexivity|]. cbn [lstrip].
  destruct (isspace c) eqn:Hc; [|reflexivity].
  rewrite (filter_cons_False _ c) by congruence. exact IH.
Qed.

Lemma rstrip_visible (s : pystr) :
  filter (fun c => isspace c = false) (rstrip s)
  = filter (fun c => isspace c = false) s.
Proof.
  unfold rstrip. rewrite filter_reverse, lstrip_visible, filter_reverse.
  apply reverse_involutive.
Qed.

Lemma sub_ws_visible (b : bool) (s : pystr) :
  filter (fun c => isspace c = false) (sub_ws_from b s)
  = filter (fun c => isspace c = false) s.
Proof.
  revert b. induction s as [|c r IH]; intros b; [reflexivity|]. cbn [sub_ws_from].
  destruct (isspace c) eqn:Hc.
  - rewrite (filter_cons_False _ c) by congruence.
    destruct b; [apply IH|].
    rewrite filter_cons_False by (cbv; discriminate). apply IH.
  - rewrite !filter_cons_True by exact Hc. f_equal. apply IH.
Qed.

Lemma norm_visible (s : option pystr) :
  filter (fun c => isspace c = false) (norm s)
  = filter (fun c => isspace c = false) (default [] s).
Proof.
  unfold norm, sub_ws, strip.
  rewrite sub_ws_visible, rstrip_visible. apply lstrip_visible.
Qed.

Lemma no_visible_all_space (s : pystr) :
  filter (fun c => isspace c = false) s = [] <->
  Forall (fun c => isspace c = true) s.
Proof.
  induction s as [|c r IH]; [split; [constructor|reflexivity]|].
  destruct (isspace c) eqn:Hc.
  - rewrite filter_cons_False by congruence. rewrite IH. split.
    + intros Hr. constructor; assumption.
    + intros Hr. apply Forall_cons in Hr as [_ Hr]. exact Hr.
  - rewrite filter_cons_True by exact Hc. split; [discriminate|].
    intros Hr. apply Forall_cons in Hr as [Hr _]. congruence.
Qed.

(** X2. [norm] keeps the characters that are not whitespace, all of them
    and in their order; so its result is empty exactly when the text is
    missing or made of whitespace only. *)
Theorem norm_keeps_visible_characters (s : option pystr) :
  filter (fun c => isspace c = false) (norm s)
  = filter (fun c => isspace c = false) (default [] s) /\
  (norm s = [] <-> Forall (fun c => isspace c = true) (default [] s)).
Proof.
  split; [apply norm_visible|].
  rewrite <- no_visible_all_space, <- norm_visible. split.
  - intros ->. reflexivity.
  - intros Hnil.
    pose proof (sub_ws_head _ (strip_head (default [] s))) as Hh.
    fold (norm s) in Hh.
    destruct (norm s) as [|c r]; [reflexivity|].
    rewrite filter_cons_True in Hnil by exact Hh. discriminate.
Qed.

(* ----------------------------------------------------------------- *)
(** ** Reading a BLOB *)

Lemma read_f32s_prefix (n : nat) (b : list byte) :
  (4 * n <= length b)%nat ->
  Forall is_f32 (read_f32s n b) /\
  vec_to_blob (read_f32s n b) = take (4 * n) b.
Proof.
  revert b. induction n as [|n IH]; intros b Hlen.
  - split; [constructor|]. rewrite take_0. reflexivity.
  - cbn [read_f32s]. destruct (IH (drop 4 b)) as [Hall Hblob].
    { rewrite length_drop. lia. }
    assert (H4 : length (take 4 b) = 4%nat) by (rewrite length_take; lia).
    split.
    + constructor; [|exact Hall].
      pose proof (le_combine_bound (take 4 b)) as Hb. rewrite H4 in Hb.
      exact Hb.
    + unfold vec_to_blob in *. cbn [flat_map]. rewrite Hblob.
      rewrite <- H4 at 1. rewrite split_le_combine.
      rewrite take_take_drop. f_equal. lia.
Qed.

(** X3. What [blob_to_vec] does on any buffer and any dimension.  With
    [dim >= 0] it succeeds iff the buffer holds at least [4 * dim] bytes,
    and the vector has [dim] items that are the first [4 * dim] bytes of
    the buffer, whatever follows them; with a negative [dim] it succeeds
    iff the size is a multiple of four and the vector is the whole buffer.
    The items are 32-bit patterns, and the only exception is
    [ValueError]. *)
Theorem blob_to_vec_outcome (b : list byte) (dim : Z) :
  match blob_to_vec b dim with
  | Ok v =>
      Forall is_f32 v /\
      (if dim <? 0 then (4 * length v = length b)%nat /\ vec_to_blob v = b
       else Z.of_nat (length v) = dim /\
            vec_to_blob v = take (4 * length v) b)
  | Raise e =>
      e = ValueError /\
      (if dim <? 0 then Z.of_nat (length b) mod 4 <> 0
       else Z.of_nat (length b) < 4 * dim)
  end.
Proof.
  unfold blob_to_vec, np_frombuffer.
  destruct (Z.ltb_spec dim 0) as [Hneg|Hpos].
  - destruct (Z.eqb_spec (Z.of_nat (length b) mod 4) 0) as [Hmod|Hmod].
    2: split; [reflexivity|exact Hmod].
    assert (Hlen : (4 * Z.to_nat (Z.of_nat (length b) / 4) = length b)%nat).
    { pose proof (Z.div_mod (Z.of_nat (length b)) 4 ltac:(lia)) as Hdm.
      pose proof (Z.div_pos (Z.of_nat (length b)) 4 ltac:(lia) ltac:(lia)).
      lia. }
    destruct (read_f32s_prefix (Z.to_nat (Z.of_nat (length b) / 4)) b)
      as [Hall Hblob]; [lia|].
    rewrite read_f32s_length. split_and!; [exact Hall|exact Hlen|].
    rewrite Hblob, Hlen. apply take_ge. lia.
  - destruct (Z.ltb_spec (Z.of_nat (length b)) (dim * 4)) as [Hshort|Hlong].
    1: split; [reflexivity|lia].
    destruct (read_f32s_prefix (Z.to_nat dim) b) as [Hall Hblob]; [lia|].
    rewrite read_f32s_length. split_and!; [exact Hall|lia|exact Hblob].
Qed.

(** Reading a written vector at its own length, through [read_f32s]. *)
Lemma blob_to_vec_own_length (v : list f32) :
  Forall is_f32 v ->
  blob_to_vec (vec_to_blob v) (Z.of_nat (length v)) = Ok v.
Proof.
  intros Hv. unfold blob_to_vec, np_frombuffer. rewrite vec_to_blob_length.
  destruct (Z.ltb_spec (Z.of_nat (length v)) 0); [lia|].
  destruct (Z.ltb_spec (Z.of_nat (4 * length v)) (Z.of_nat (length v) * 4));
    [lia|].
  rewrite Nat2Z.id. rewrite <- (app_nil_r (vec_to_blob v)).
  rewrite read_f32s_vec_to_blob by assumption. reflexivity.
Qed.

Section MoreProperties.
Context `{External}.

(* ----------------------------------------------------------------- *)
(** ** Writing and reading the query cache *)

Lemma put_cached_query_emb_Ok (qh text : pystr) (emb : list f32)
    (w w1 : World) :
  put_cached_query_emb qh text emb w = (Ok tt, w1) ->
  exists t,
    qa_query_cache (db w) = Some t /\ writable (db w) = true /\
    w1 = {| db := set_query_cache
                    (<[qh := {| query_text := text; created_ts := now w;
                                dim := Z.of_nat (length emb);
                                q_emb := vec_to_blob emb |}]> t) (db w);
            glob := glob w; now := now w; log := log w |}.
Proof.
  unfold put_cached_query_emb. run.
  destruct (qa_query_cache (db w)) as [t|]; [|discriminate].
  destruct (writable (db w)); run; [|discriminate].
  intros [= <-]. exists t. split_and!; reflexivity.
Qed.

(** X4. An embedding written with [put_cached_query_emb] is what
    [get_cached_query_emb] returns for that key afterwards, whatever the
    key held before; the other keys read as before, and the write touches
    neither [qa], [qa_vec], the globals nor the log. *)
Theorem cache_put_then_get (qh text : pystr) (emb : list f32) (w w1 : World) :
  put_cached_query_emb qh text emb w = (Ok tt, w1) ->
  Forall is_f32 emb ->
  get_cached_query_emb qh w1 = (Ok (Some emb), w1) /\
  (forall qh', qh' <> qh ->
     (get_cached_query_emb qh' w1).1 = (get_cached_query_emb qh' w).1) /\
  qa (db w1) = qa (db w) /\ qa_vec (db w1) = qa_vec (db w) /\
  glob w1 = glob w /\ log w1 = log w.
Proof.
  intros Hput Hemb.
  apply put_cached_query_emb_Ok in Hput as (t & Ht & _ & ->).
  split_and!; try reflexivity.
  - unfold get_cached_query_emb. run. cbn [set_query_cache qa_query_cache].
    rewrite lookup_insert_eq. run. cbn [q_emb dim].
    rewrite (blob_to_vec_own_length emb Hemb). reflexivity.
  - intros qh' Hne. unfold get_cached_query_emb. run.
    cbn [set_query_cache qa_query_cache]. rewrite Ht.
    rewrite lookup_insert_ne by congruence.
    destruct (t !! qh') as [row|]; run; [|reflexivity].
    destruct (blob_to_vec (q_emb row) (dim row)); reflexivity.
Qed.


(* ----------------------------------------------------------------- *)
(** ** What each step does to the state, whatever its outcome *)

Ltac run_globals :=
  repeat first
    [ run_step
    | progress cbn [_st_model _faiss_index _faiss_ids _sem_thr fst snd] ].

Lemma ensure_query_cache_table_effect (w : World) :
  let w' := (ensure_query_cache_table w).2 in
  qa (db w') = qa (db w) /\ qa_vec (db w') = qa_vec (db w) /\
  writable (db w') = writable (db w) /\
  cache_entries (db w') = cache_entries (db w) /\
  glob w' = glob w /\ now w' = now w /\ log w' = log w.
Proof.
  unfold ensure_query_cache_table, cache_entries. run.
  destruct (qa_query_cache (db w)) as [t|] eqn:Ht; run.
  - cbn. rewrite Ht. split_and!; reflexivity.
  - destruct (writable (db w)) eqn:Hwr; run; cbn; rewrite ?Ht, ?Hwr;
      split_and!; reflexivity.
Qed.

Lemma init_models_once_effect (con : option unit) (name which : pystr)
    (thr : float) (w : World) :
  let w' := (init_models_once con name which thr w).2 in
  db w' = db w /\ now w' = now w /\ _sem_thr (glob w') = thr /\
  (forall m, _st_model (glob w) = Some m -> _st_model (glob w') = Some m) /\
  (forall ix ids,
     _faiss_index (glob w) = Some ix -> _faiss_ids (glob w) = Some ids ->
     _faiss_index (glob w') = Some ix /\ _faiss_ids (glob w') = Some ids) /\
  (log w' = log w /\ is_Some (_st_model (glob w)) \/
   log w' = log w ++ [EvLoadModel name] /\ _st_model (glob w) = None).
Proof.
  unfold init_models_once. run.
  destruct (_st_model (glob w)) as [m|] eqn:Hm; run_globals.
  2: destruct (st_load name) as [m|e]; run_globals.
  all: destruct (_faiss_index (glob w)) as [ix|] eqn:Hix;
    [destruct (_faiss_ids (glob w)) as [ids|] eqn:Hids|]; run_globals;
    try (destruct con as [[]|]; run_globals);
    try (destruct (load_all_embeddings (db w) name which) as [r|e];
         run_globals);
    cbn; rewrite ?Hm, ?Hix, ?Hids;
    split_and!; try reflexivity; try discriminate; eauto.
Qed.

Lemma hybrid_setup_effect (w : World) :
  let w' := (hybrid_setup w).2 in
  qa (db w') = qa (db w) /\ qa_vec (db w') = qa_vec (db w) /\
  writable (db w') = writable (db w) /\
  cache_entries (db w') = cache_entries (db w) /\
  now w' = now w /\
  (forall m, _st_model (glob w) = Some m -> _st_model (glob w') = Some m) /\
  (forall ix ids,
     _faiss_index (glob w) = Some ix -> _faiss_ids (glob w) = Some ids ->
     _faiss_index (glob w') = Some ix /\ _faiss_ids (glob w') = Some ids) /\
  (models_loaded w -> glob w' = glob w /\ log w' = log w) /\
  (log w' = log w \/ log w' = log w ++ [EvLoadModel DB_MODEL_NAME]).
Proof.
  unfold hybrid_setup. rewrite bind_run. cbn [CACHE_QUERY_EMB_TO_DB].
  pose proof (ensure_query_cache_table_effect w) as He. cbn zeta in He.
  destruct (ensure_query_cache_table w) as [[[]|e] w0]; cbn [snd] in He |- *;
    destruct He as (Hqa & Hvec & Hwr & Hcache & Hglob & Hnow & Hlog).
  2: { cbn. rewrite Hglob. split_and!; try assumption; eauto. }
  run. unfold models_loaded. rewrite <- Hglob, <- Hlog.
  destruct (_st_model (glob w0)) as [m|] eqn:Hm;
    [destruct (_faiss_index (glob w0)) as [ix|] eqn:Hix;
     [destruct (_faiss_ids (glob w0)) as [ids|] eqn:Hids|]|].
  1: { cbn. split_and!; try assumption; eauto; intros; simplify_eq; eauto. }
  all: pose proof (init_models_once_effect (Some tt) DB_MODEL_NAME WHICH_VEC
                     SEM_THR_DEFAULT w0) as Hi; cbn zeta in Hi;
    destruct (init_models_once (Some tt) DB_MODEL_NAME WHICH_VEC
                SEM_THR_DEFAULT w0) as [r w1]; cbn [snd] in Hi |- *;
    destruct Hi as (Hdb & Hnow1 & _ & Hm1 & Hix1 & Hlog1);
    rewrite Hdb, Hnow1; split_and!; try assumption;
    first
      [ solve [intros; simplify_eq; eauto]
      | intros (Hx & Hy & Hz);
        solve [destruct Hx as [? [=]]|destruct Hy as [? [=]]
              |destruct Hz as [? [=]]]
      | destruct Hlog1 as [[Hl _]|[Hl _]]; rewrite Hl; eauto ].
Qed.

Lemma query_embedding_effect (query : pystr) (w : World) :
  let w' := (query_embedding query w).2 in
  qa (db w') = qa (db w) /\ qa_vec (db w') = qa_vec (db w) /\
  writable (db w') = writable (db w) /\
  glob w' = glob w /\ now w' = now w /\
  (cache_entries (db w') = cache_entries (db w) \/
   exists qh row,
     query_hash (Some query) = Ok qh /\
     cache_entries (db w) !! qh = None /\
     cache_entries (db w') = <[qh := row]> (cache_entries (db w))) /\
  (log w' = log w \/ exists m, log w' = log w ++ [EvEncode m query]).
Proof.
  unfold query_embedding, get_cached_query_emb, put_cached_query_emb,
    cache_entries.
  run. destruct (query_hash (Some query)) as [qh|e]; run.
  2: { cbn. split_and!; eauto. }
  destruct (qa_query_cache (db w)) as [t|] eqn:Ht; run.
  2: { cbn. rewrite ?Ht. split_and!; eauto. }
  destruct (t !! qh) as [row|] eqn:Hrow; run.
  - destruct (blob_to_vec (q_emb row) (dim row)); run; cbn; rewrite ?Ht;
      split_and!; eauto.
  - destruct (_st_model (glob w)) as [model|]; run.
    2: { cbn. rewrite ?Ht. split_and!; eauto. }
    destruct (st_encode model query) as [emb|e]; run.
    2: { cbn. rewrite ?Ht. split_and!; eauto. }
    rewrite Ht. destruct (writable (db w)) eqn:Hwr; run; cbn; rewrite ?Ht, ?Hwr;
      split_and!; eauto.
    right. eexists qh, _. split_and!; [reflexivity|exact Hrow|reflexivity].
Qed.


(** A relation between states that every step of a search respects is
    respected by the search, whatever its outcome. *)
Lemma hybrid_search_preserves (R : relation World)
    (query : option pystr) (final_k : Z) :
  Reflexive R -> Transitive R ->
  (forall w, R w (hybrid_setup w).2) ->
  (forall w, R w (query_embedding (norm query) w).2) ->
  (forall w evs, R w (add_log evs w)) ->
  forall w, R w (hybrid_search query final_k w).2.
Proof.
  intros Hrefl Htrans Hsetup Hemb Hlog w.
  unfold hybrid_search. destruct (bool_decide (norm query = [])); [apply Hrefl|].
  rewrite bind_run. unfold hybrid_prepare. rewrite bind_run.
  specialize (Hsetup w).
  destruct (hybrid_setup w) as [[[]|e] wa]; cbn [snd] in Hsetup;
    [|exact Hsetup].
  rewrite bind_run. specialize (Hemb wa).
  destruct (query_embedding (norm query) wa) as [[v|e] wb]; cbn [snd] in Hemb;
    [|exact (Htrans _ _ _ Hsetup Hemb)].
  assert (Hwb : R w wb) by exact (Htrans _ _ _ Hsetup Hemb).
  pose proof (search_candidates_world v final_k wb) as Hs.
  destruct (search_candidates v final_k wb) as [[c|e] wc]; cbn [snd] in Hs.
  2: { destruct Hs as [-> | ->]; [exact Hwb|].
       exact (Htrans _ _ _ Hwb (Hlog _ _)). }
  assert (Hwc : R w wc).
  { destruct Hs as [-> | ->]; [exact Hwb|].
    exact (Htrans _ _ _ Hwb (Hlog _ _)). }
  destruct (rank_and_fetch_world c.1 c.2 final_k wc) as [-> | ->];
    [exact Hwc|].
  exact (Htrans _ _ _ Hwc (Hlog _ _)).
Qed.

(* ----------------------------------------------------------------- *)
(** ** What a search leaves alone *)

(** X5. Whatever its outcome, a search leaves [qa] and [qa_vec] as they
    were; in the query cache it never changes or removes an entry, and the
    only key under which it may add one is the hash of the query. *)
Theorem hybrid_search_leaves_tables
    (query : option pystr) (final_k : Z) (w : World) :
  let w' := (hybrid_search query final_k w).2 in
  qa (db w') = qa (db w) /\ qa_vec (db w') = qa_vec (db w) /\
  writable (db w') = writable (db w) /\ now w' = now w /\
  cache_entries (db w) ⊆ cache_entries (db w') /\
  (forall qh, query_hash query <> Ok qh ->
     cache_entries (db w') !! qh = cache_entries (db w) !! qh).
Proof.
  apply (hybrid_search_preserves
           (fun w w' =>
              qa (db w') = qa (db w) /\ qa_vec (db w') = qa_vec (db w) /\
              writable (db w') = writable (db w) /\ now w' = now w /\
              cache_entries (db w) ⊆ cache_entries (db w') /\
              (forall qh, query_hash query <> Ok qh ->
                 cache_entries (db w') !! qh = cache_entries (db w) !! qh))).
  - intros w0. split_and!; reflexivity.
  - intros w0 w1 w2 (Hqa1 & Hvec1 & Hwr1 & Hnow1 & Hsub1 & Hoth1)
      (Hqa2 & Hvec2 & Hwr2 & Hnow2 & Hsub2 & Hoth2).
    split_and!; try congruence.
    + etransitivity; eassumption.
    + intros qh Hqh. rewrite (Hoth2 qh Hqh). exact (Hoth1 qh Hqh).
  - intros w0. pose proof (hybrid_setup_effect w0) as He. cbn zeta in He.
    destruct He as (Hqa & Hvec & Hwr & Hcache & Hnow & _).
    rewrite Hcache. split_and!; try assumption; reflexivity.
  - intros w0. pose proof (query_embedding_effect (norm query) w0) as He.
    cbn zeta in He. destruct He as (Hqa & Hvec & Hwr & _ & Hnow & Hcache & _).
    split_and!; try assumption.
    + destruct Hcache as [-> | (qh & row & _ & Hnone & ->)]; [reflexivity|].
      apply insert_subseteq. exact Hnone.
    + intros qh' Hne.
      destruct Hcache as [-> | (qh & row & Hqh & _ & ->)]; [reflexivity|].
      rewrite query_hash_norm in Hqh.
      apply lookup_insert_ne. congruence.
  - intros w0 evs. split_and!; reflexivity.
Qed.


(* ----------------------------------------------------------------- *)
(** ** The module globals across a search *)

Lemma rank_and_fetch_sem_thr (top_ids : list Z) (top_sims : list float)
    (final_k : Z) (w w1 : World)
    (r : option qa_row * list qa_row * diagnostics) :
  rank_and_fetch top_ids top_sims final_k w = (Ok r, w1) ->
  r.2 !! "sem_thr" = Some (PFloat (_sem_thr (glob w))).
Proof.
  unfold rank_and_fetch, fetch_rows, base_diagnostics. run.
  destruct top_ids as [|i top_ids].
  - intros [= <- _]. cbn [snd].
    do 2 (rewrite lookup_insert_ne by done). apply lookup_insert_eq.
  - destruct (PrimFloat.ltb _ _); run; intros [= <- _]; cbn [snd].
    + do 4 (rewrite lookup_insert_ne by done). apply lookup_insert_eq.
    + do 5 (rewrite lookup_insert_ne by done). apply lookup_insert_eq.
Qed.

Lemma hybrid_setup_unloaded (w wa : World) :
  ~ models_loaded w ->
  hybrid_setup w = (Ok tt, wa) ->
  _sem_thr (glob wa) = SEM_THR_DEFAULT.
Proof.
  intros Hnot. unfold hybrid_setup. rewrite bind_run.
  cbn [CACHE_QUERY_EMB_TO_DB].
  pose proof (ensure_query_cache_table_effect w) as He. cbn zeta in He.
  destruct (ensure_query_cache_table w) as [[[]|e] w0]; [|discriminate].
  cbn [snd] in He. destruct He as (_ & _ & _ & _ & Hglob & _).
  run. rewrite Hglob.
  destruct (_st_model (glob w)) as [m|] eqn:Hm;
    [destruct (_faiss_index (glob w)) as [ix|] eqn:Hix;
     [destruct (_faiss_ids (glob w)) as [ids|] eqn:Hids|]|].
  1: { exfalso. apply Hnot. unfold models_loaded.
       rewrite Hm, Hix, Hids. eauto. }
  all: intros Hrun;
    pose proof (init_models_once_effect (Some tt) DB_MODEL_NAME WHICH_VEC
                  SEM_THR_DEFAULT w0) as Hi; cbn zeta in Hi;
    rewrite Hrun in Hi; cbn [snd] in Hi;
    destruct Hi as (_ & _ & Hthr & _); exact Hthr.
Qed.

(** X6. The module globals across a search, whatever its outcome.  A
    loaded model is never replaced, nor are an index and its ids that are
    both there; with all three loaded the globals, threshold included, are
    left as they were.  When one of them is missing and the search of a
    non-empty query returns, everything is loaded and the threshold in
    force, also reported in the diagnostics, is [SEM_THR_DEFAULT],
    whatever it was before. *)
Theorem hybrid_search_globals
    (query : option pystr) (final_k : Z) (w : World) :
  let w' := (hybrid_search query final_k w).2 in
  (forall m, _st_model (glob w) = Some m -> _st_model (glob w') = Some m) /\
  (forall ix ids,
     _faiss_index (glob w) = Some ix -> _faiss_ids (glob w) = Some ids ->
     _faiss_index (glob w') = Some ix /\ _faiss_ids (glob w') = Some ids) /\
  (models_loaded w -> glob w' = glob w) /\
  (~ models_loaded w -> norm query <> [] ->
   forall r, (hybrid_search query final_k w).1 = Ok r ->
     models_loaded w' /\
     _sem_thr (glob w') = SEM_THR_DEFAULT /\
     r.2 !! "sem_thr" = Some (PFloat SEM_THR_DEFAULT)).
Proof.
  intros w'.
  assert (Hkeep :
    (forall m, _st_model (glob w) = Some m -> _st_model (glob w') = Some m) /\
    (forall ix ids,
       _faiss_index (glob w) = Some ix -> _faiss_ids (glob w) = Some ids ->
       _faiss_index (glob w') = Some ix /\ _faiss_ids (glob w') = Some ids) /\
    (models_loaded w -> glob w' = glob w)).
  { subst w'.
    apply (hybrid_search_preserves
             (fun w w' =>
                (forall m, _st_model (glob w) = Some m ->
                   _st_model (glob w') = Some m) /\
                (forall ix ids,
                   _faiss_index (glob w) = Some ix ->
                   _faiss_ids (glob w) = Some ids ->
                   _faiss_index (glob w') = Some ix /\
                   _faiss_ids (glob w') = Some ids) /\
                (models_loaded w -> glob w' = glob w))).
    - intros w0. split_and!; eauto.
    - intros w0 w1 w2 (Hm1 & Hix1 & Hl1) (Hm2 & Hix2 & Hl2). split_and!.
      + eauto.
      + intros ix ids Hix Hids. destruct (Hix1 ix ids Hix Hids). eauto.
      + intros Hl. specialize (Hl1 Hl). rewrite <- Hl1. apply Hl2.
        unfold models_loaded in *. rewrite Hl1. exact Hl.
    - intros w0. pose proof (hybrid_setup_effect w0) as He. cbn zeta in He.
      destruct He as (_ & _ & _ & _ & _ & Hm & Hix & Hl & _).
      split_and!; [exact Hm|exact Hix|]. intros Hl0. apply Hl. exact Hl0.
    - intros w0. pose proof (query_embedding_effect (norm query) w0) as He.
      cbn zeta in He. destruct He as (_ & _ & _ & Hglob & _).
      rewrite Hglob. split_and!; eauto.
    - intros w0 evs. split_and!; eauto. }
  destruct Hkeep as (Hm & Hix & Hl). split_and!; [exact Hm|exact Hix|exact Hl|].
  intros Hnot Hq r Hr. subst w'.
  destruct (hybrid_search query final_k w) as [r' w1] eqn:Hrun.
  cbn [fst snd] in *. subst r'.
  rewrite hybrid_search_run in Hrun by exact Hq.
  destruct (hybrid_prepare (norm query) final_k w) as [[c|e] wp] eqn:Hprep;
    [|discriminate].
  apply hybrid_prepare_Ok in Hprep as (wa & v & wb & Hsetup & Hemb & Hsearch).
  pose proof (hybrid_setup_unloaded w wa Hnot Hsetup) as Hthr.
  apply hybrid_setup_Ok in Hsetup as [_ Hloaded].
  apply query_embedding_Ok in Hemb as [Hglob _].
  assert (Hwp : glob wp = glob wb).
  { destruct (search_candidates_world v final_k wb) as [Hw|Hw];
      rewrite Hsearch in Hw; cbn [snd] in Hw; subst wp; reflexivity. }
  assert (Hw1 : glob w1 = glob wp).
  { destruct (rank_and_fetch_world c.1 c.2 final_k wp) as [Hw|Hw];
      rewrite Hrun in Hw; cbn [snd] in Hw; subst w1; reflexivity. }
  apply rank_and_fetch_sem_thr in Hrun.
  unfold models_loaded in *. rewrite Hrun, Hw1, Hwp, Hglob, Hthr.
  split_and!; try reflexivity; apply Hloaded.
Qed.


(* ----------------------------------------------------------------- *)
(** ** The calls a search makes *)

Ltac calls_done :=
  split_and!; repeat constructor; try discriminate; try assumption;
  try (intros; contradiction); try (cbn; lia).

(** X7. The calls a search makes, whatever its outcome: at most one
    model load, one encoding, one index search and one record fetch, in
    this order.  The model is loaded only when the globals are not all
    there, and it is [DB_MODEL_NAME]; the text encoded is the normalised
    query; the index is asked for [max(final_k, TOP_N_DEFAULT)]
    neighbours; records are fetched only after the index was searched;
    and an empty query makes no call. *)
Theorem hybrid_search_call_order
    (query : option pystr) (final_k : Z) (w : World) :
  exists evs,
    log (hybrid_search query final_k w).2 = log w ++ evs /\
    StronglySorted (fun a b => (call_stage a < call_stage b)%nat) evs /\
    Forall (fun ev =>
              match ev with
              | EvLoadModel name => name = DB_MODEL_NAME /\ ~ models_loaded w
              | EvEncode _ t => t = norm query
              | EvSearch _ k => k = Z.max final_k TOP_N_DEFAULT
              | EvFetch _ =>
                  exists v, EvSearch v (Z.max final_k TOP_N_DEFAULT) ∈ evs
              end) evs /\
    (norm query = [] -> evs = []).
Proof.
  destruct (decide (norm query = [])) as [Hq|Hq].
  { exists []. unfold hybrid_search. rewrite Hq.
    rewrite bool_decide_eq_true_2 by reflexivity. cbn.
    rewrite app_nil_r. split_and!; try constructor; reflexivity. }
  rewrite hybrid_search_run by exact Hq.
  unfold hybrid_prepare. rewrite bind_run.
  pose proof (hybrid_setup_effect w) as Hs. cbn zeta in Hs.
  destruct Hs as (_ & _ & _ & _ & _ & _ & _ & Hloaded & Hlm).
  assert (Hsetup : exists lm,
    log (hybrid_setup w).2 = log w ++ lm /\
    (lm = [] \/ lm = [EvLoadModel DB_MODEL_NAME] /\ ~ models_loaded w)).
  { destruct Hlm as [Hl|Hl].
    - exists []. rewrite app_nil_r. eauto.
    - exists [EvLoadModel DB_MODEL_NAME]. split; [exact Hl|]. right.
      split; [reflexivity|]. intros Hw. destruct (Hloaded Hw) as [_ Hsame].
      rewrite Hsame in Hl. apply (f_equal length) in Hl.
      rewrite length_app in Hl. cbn in Hl. lia. }
  clear Hloaded Hlm. destruct Hsetup as (lm & Hlog0 & Hlm).
  destruct (hybrid_setup w) as [[[]|e] wa]; cbn [snd] in Hlog0.
  2: { exists lm. cbn [snd]. split; [exact Hlog0|].
       destruct Hlm as [-> | [-> Hnot]]; calls_done. }
  rewrite bind_run.
  pose proof (query_embedding_effect (norm query) wa) as He. cbn zeta in He.
  destruct He as (_ & _ & _ & _ & _ & _ & Hen).
  assert (Hemb : exists en,
    log (query_embedding (norm query) wa).2 = log wa ++ en /\
    (en = [] \/ exists m, en = [EvEncode m (norm query)])).
  { destruct Hen as [Hl|[m Hl]].
    - exists []. rewrite app_nil_r. eauto.
    - exists [EvEncode m (norm query)]. eauto. }
  clear Hen. destruct Hemb as (en & Hlog1 & Hen).
  destruct (query_embedding (norm query) wa) as [[v|e] wb]; cbn [snd] in Hlog1.
  2: { exists (lm ++ en). cbn [snd]. rewrite Hlog1, Hlog0, <- app_assoc.
       split; [reflexivity|].
       destruct Hlm as [-> | [-> Hnot]]; destruct Hen as [-> | [m ->]];
         calls_done. }
  pose proof (search_candidates_world v final_k wb) as Hsw.
  destruct (search_candidates v final_k wb) as [[c|e] wc] eqn:Hsearch;
    cbn [snd] in Hsw.
  2: { destruct Hsw as [-> | ->].
       - exists (lm ++ en). cbn [snd]. rewrite Hlog1, Hlog0, <- app_assoc.
         split; [reflexivity|].
         destruct Hlm as [-> | [-> Hnot]]; destruct Hen as [-> | [m ->]];
           calls_done.
       - exists (lm ++ en ++ [EvSearch v (Z.max final_k TOP_N_DEFAULT)]).
         cbn [snd add_log log]. rewrite Hlog1, Hlog0, <- !app_assoc.
         split; [reflexivity|].
         destruct Hlm as [-> | [-> Hnot]]; destruct Hen as [-> | [m ->]];
           calls_done. }
  destruct c as [top_ids top_sims].
  apply search_candidates_Ok in Hsearch as (_ & _ & _ & _ & _ & _ & _ & ->).
  clear Hsw.
  destruct (rank_and_fetch_world (top_ids, top_sims).1 (top_ids, top_sims).2
              final_k (add_log [EvSearch v (Z.max final_k TOP_N_DEFAULT)] wb))
    as [-> | ->].
  - exists (lm ++ en ++ [EvSearch v (Z.max final_k TOP_N_DEFAULT)]).
    cbn [snd add_log log]. rewrite Hlog1, Hlog0, <- !app_assoc.
    split; [reflexivity|].
    destruct Hlm as [-> | [-> Hnot]]; destruct Hen as [-> | [m ->]];
      calls_done.
  - exists (lm ++ en ++ [EvSearch v (Z.max final_k TOP_N_DEFAULT);
                         EvFetch (slice_to top_ids final_k)]).
    cbn [snd add_log log fst]. rewrite Hlog1, Hlog0, <- !app_assoc.
    split; [reflexivity|].
    destruct Hlm as [-> | [-> Hnot]]; destruct Hen as [-> | [m ->]];
      calls_done;
      exists v; set_solver.
Qed.


(* ----------------------------------------------------------------- *)
(** ** The shape of an answer *)

Ltac dbg_lookup :=
  repeat first
    [ rewrite lookup_insert_eq
    | rewrite lookup_insert_ne by done
    | rewrite lookup_empty ].

Lemma omap_length_le {A B} (f : A -> option B) (l : list A) :
  (length (omap f l) <= length l)%nat.
Proof.
  induction l as [|x l IH]; [reflexivity|]. cbn.
  destruct (f x); cbn; lia.
Qed.

Lemma rank_and_fetch_shape (top_ids : list Z) (top_sims : list float)
    (final_k : Z) (w w1 : World) (best : option qa_row) (rows : list qa_row)
    (dbg : diagnostics) :
  rank_and_fetch top_ids top_sims final_k w = (Ok (best, rows, dbg), w1) ->
  best = head rows /\
  dbg !! "topn_ids" = Some (PInts (slice_to top_ids TOP_N_DEFAULT)) /\
  dbg !! "topn_sims" = Some (PFloats (slice_to top_sims TOP_N_DEFAULT)) /\
  (top_ids = [] ->
   rows = [] /\ dbg !! "best_sim" = None /\ dbg !! "rejected" = None /\
   dbg !! "top_ids" = None) /\
  (top_ids <> [] ->
   is_Some (dbg !! "best_sim") /\
   (dbg !! "rejected" = Some (PBool true) /\ rows = [] /\
    dbg !! "top_ids" = None \/
    dbg !! "rejected" = Some (PBool false) /\
    dbg !! "top_ids" = Some (PInts (slice_to top_ids final_k)) /\
    length rows <= length (slice_to top_ids final_k))%nat).
Proof.
  unfold rank_and_fetch, fetch_rows, base_diagnostics. run.
  destruct top_ids as [|i top_ids].
  - intros [= <- <- <- _]. split_and!; try done; dbg_lookup; try done.
  - destruct (PrimFloat.ltb _ _); run; intros [= <- <- <- _].
    + split_and!; try done; dbg_lookup; try done.
      intros _. split; [eauto|]. left. dbg_lookup. done.
    + split_and!; try done; dbg_lookup; try done.
      intros _. split; [eauto|]. right. dbg_lookup. split_and!; try done.
      apply omap_length_le.
Qed.

(** X8. The shape of every answer [(best, rows, dbg)] that
    [hybrid_search] returns: [best] is the first of [rows], or [None] when
    there is none; an empty query has empty diagnostics; any other has the
    threshold in force and two candidate lists of equal length;
    [rejected] is there exactly when [best_sim] is; unless [rejected] is
    [False] no row is returned; [top_ids] is there exactly when [rejected]
    is [False], and there are at most as many rows as ids in it. *)
Theorem hybrid_search_answer_shape
    (query : option pystr) (final_k : Z) (w w1 : World)
    (best : option qa_row) (rows : list qa_row) (dbg : diagnostics) :
  hybrid_search query final_k w = (Ok (best, rows, dbg), w1) ->
  best = head rows /\
  (norm query = [] -> rows = [] /\ dbg = ∅) /\
  (norm query <> [] ->
   dbg !! "sem_thr" = Some (PFloat (_sem_thr (glob w1))) /\
   exists ids sims,
     dbg !! "topn_ids" = Some (PInts ids) /\
     dbg !! "topn_sims" = Some (PFloats sims) /\
     length ids = length sims) /\
  (dbg !! "rejected" = None <-> dbg !! "best_sim" = None) /\
  (dbg !! "rejected" <> Some (PBool false) -> rows = []) /\
  (is_Some (dbg !! "top_ids") <-> dbg !! "rejected" = Some (PBool false)) /\
  (forall ids, dbg !! "top_ids" = Some (PInts ids) ->
     (length rows <= length ids)%nat).
Proof.
  intros Hrun. destruct (decide (norm query = [])) as [Hq|Hq].
  { unfold hybrid_search in Hrun. rewrite Hq in Hrun.
    rewrite bool_decide_eq_true_2 in Hrun by reflexivity.
    injection Hrun as <- <- <- <-.
    split_and!; try done; dbg_lookup; try done. }
  rewrite hybrid_search_run in Hrun by exact Hq.
  destruct (hybrid_prepare (norm query) final_k w) as [[c|e] wp] eqn:Hprep;
    [|discriminate].
  destruct c as [top_ids top_sims]. cbn [fst snd] in Hrun.
  pose proof (candidates_same_length _ _ _ _ _ _ Hprep) as Hlen.
  pose proof (rank_and_fetch_sem_thr _ _ _ _ _ _ Hrun) as Hthr.
  cbn [snd] in Hthr.
  assert (Hglob : glob w1 = glob wp).
  { destruct (rank_and_fetch_world top_ids top_sims final_k wp) as [Hw|Hw];
      rewrite Hrun in Hw; cbn [snd] in Hw; subst w1; reflexivity. }
  apply rank_and_fetch_shape in Hrun
    as (Hbest & Hids & Hsims & Hnone & Hsome).
  split; [exact Hbest|]. split; [intros; contradiction|].
  split.
  { intros _. rewrite Hglob. split; [exact Hthr|].
    eexists _, _. split_and!; [exact Hids|exact Hsims|].
    unfold slice_to. destruct (TOP_N_DEFAULT <? 0);
      rewrite !length_take, Hlen; reflexivity. }
  destruct top_ids as [|i top_ids].
  - destruct (Hnone eq_refl) as (-> & Hb & Hr & Ht). rewrite Hb, Hr, Ht.
    split_and!; try done.
  - destruct Hsome as ([b Hb] & [(Hr & -> & Ht)|(Hr & Ht & Hle)]);
      [discriminate| |]; rewrite Hb, Hr, Ht.
    + split_and!; try done.
    + split_and!; try done.
      intros ids [= <-]. exact Hle.
Qed.


(* ----------------------------------------------------------------- *)
(** ** Asking again *)

Lemma search_candidates_same (q_vec : list f32) (final_k : Z) (w w' : World) :
  glob w' = glob w ->
  (search_candidates q_vec final_k w').1 = (search_candidates q_vec final_k w).1.
Proof.
  intros Hglob. unfold search_candidates. run. rewrite Hglob.
  destruct (_faiss_index (glob w)) as [ix|]; [|reflexivity]. run.
  destruct (faiss_search ix q_vec (Z.max final_k TOP_N_DEFAULT)) as [res|e];
    [run|reflexivity].
  rewrite Hglob.
  destruct (match _faiss_ids (glob w) with Some _ => _ | None => _ end);
    reflexivity.
Qed.

Lemma rank_and_fetch_same (top_ids : list Z) (top_sims : list float)
    (final_k : Z) (w w' : World) :
  glob w' = glob w -> qa (db w') = qa (db w) ->
  (rank_and_fetch top_ids top_sims final_k w').1
  = (rank_and_fetch top_ids top_sims final_k w).1.
Proof.
  intros Hglob Hqa. unfold rank_and_fetch, fetch_rows. run. rewrite Hglob.
  destruct top_ids as [|i top_ids]; [reflexivity|].
  destruct (PrimFloat.ltb _ _); [reflexivity|]. run. rewrite Hqa. reflexivity.
Qed.

(** After the embedding step has succeeded the cache holds the very
    vector it returned, provided the model produces float32 items. *)
Lemma query_embedding_cached_value (query : pystr) (v : list f32)
    (wa wb : World) :
  (forall m v', st_encode m query = Ok v' -> Forall is_f32 v') ->
  query_embedding query wa = (Ok v, wb) ->
  exists qh row,
    query_hash (Some query) = Ok qh /\ cached wb qh row /\
    blob_to_vec (q_emb row) (dim row) = Ok v.
Proof.
  intros Hf32.
  unfold query_embedding, get_cached_query_emb, put_cached_query_emb, cached.
  run. destruct (query_hash (Some query)) as [qh|e]; [run|discriminate].
  destruct (qa_query_cache (db wa)) as [t|] eqn:Ht; [run|discriminate].
  destruct (t !! qh) as [row|] eqn:Hrow; run.
  - destruct (blob_to_vec (q_emb row) (dim row)) as [v0|e] eqn:Hv0;
      [run|discriminate].
    intros [= <- <-]. exists qh, row. eauto.
  - destruct (_st_model (glob wa)) as [model|]; [run|discriminate].
    destruct (st_encode model query) as [emb|e] eqn:Henc; [run|discriminate].
    rewrite Ht. destruct (writable (db wa)); [run|discriminate].
    intros [= <- <-]. eexists qh, _. split; [reflexivity|].
    split; [eexists; split; [reflexivity|apply lookup_insert_eq]|].
    cbn [q_emb dim]. apply blob_to_vec_own_length. exact (Hf32 _ _ Henc).
Qed.

(** X9. Asking again gives the same answer: once a search has returned,
    a search with the same normal form of the query and the same [final_k]
    returns the same triple, after loading no model and encoding nothing
    (its calls are the index search and the record fetch), and changes
    nothing but the log.  The embedding model is assumed to produce
    float32 items; the index, as everywhere here, answers a request by what
    it holds, the vector and the count asked for. *)
Theorem hybrid_search_repeatable
    (q1 q2 : option pystr) (final_k : Z) (w w1 : World)
    (r : option qa_row * list qa_row * diagnostics) :
  norm q1 <> [] ->
  norm q2 = norm q1 ->
  (forall m v, st_encode m (norm q1) = Ok v -> Forall is_f32 v) ->
  hybrid_search q1 final_k w = (Ok r, w1) ->
  exists evs,
    hybrid_search q2 final_k w1 = (Ok r, add_log evs w1) /\
    Forall (fun ev => (2 <= call_stage ev)%nat) evs.
Proof.
  intros Hq Hnorm Hf32 Hrun.
  rewrite hybrid_search_run in Hrun by exact Hq.
  destruct (hybrid_prepare (norm q1) final_k w) as [[c|e] wp] eqn:Hprep;
    [|discriminate].
  apply hybrid_prepare_Ok in Hprep as (wa & v & wb & Hsetup & Hemb & Hsearch).
  apply hybrid_setup_Ok in Hsetup as [_ Hloaded].
  pose proof (query_embedding_cached_value _ _ _ _ Hf32 Hemb)
    as (qh & row & Hqh & Hcached & Hv).
  apply query_embedding_Ok in Hemb as [Hglob _].
  assert (Hloadedb : models_loaded wb).
  { unfold models_loaded in *. rewrite Hglob. exact Hloaded. }
  pose proof (search_candidates_loaded v final_k wb Hloadedb) as Hwp.
  rewrite Hsearch in Hwp. cbn [snd] in Hwp.
  assert (Hw1 : db w1 = db wb /\ glob w1 = glob wb).
  { destruct (rank_and_fetch_world c.1 c.2 final_k wp) as [Hw|Hw];
      rewrite Hrun in Hw; cbn [snd] in Hw; subst w1 wp; split; reflexivity. }
  destruct Hw1 as [Hdb1 Hglob1].
  assert (Hloaded1 : models_loaded w1).
  { unfold models_loaded in *. rewrite Hglob1. exact Hloadedb. }
  assert (Hcached1 : cached w1 qh row).
  { unfold cached in *. rewrite Hdb1. exact Hcached. }
  assert (Htab : is_Some (qa_query_cache (db w1))).
  { destruct Hcached1 as (t & Ht & _). rewrite Ht. eauto. }
  rewrite hybrid_search_run by (rewrite Hnorm; exact Hq).
  rewrite Hnorm. unfold hybrid_prepare.
  rewrite bind_run, (hybrid_setup_ready w1 Htab Hloaded1).
  rewrite bind_run, (query_embedding_hit (norm q1) qh row v w1 Hqh Hcached1 Hv).
  pose proof (search_candidates_same v final_k wb w1 Hglob1) as Hres.
  pose proof (search_candidates_loaded v final_k w1 Hloaded1) as Hws.
  rewrite Hsearch in Hres. cbn [fst] in Hres.
  destruct (search_candidates v final_k w1) as [c' ws]. cbn [fst snd] in *.
  subst c' ws.
  set (w2 := add_log [EvSearch v (Z.max final_k TOP_N_DEFAULT)] w1).
  pose proof (rank_and_fetch_same c.1 c.2 final_k wp w2) as Hsame.
  rewrite Hrun in Hsame. cbn [fst] in Hsame.
  specialize (Hsame ltac:(subst wp w2; cbn; congruence)
                    ltac:(subst wp w2; cbn; congruence)).
  destruct (rank_and_fetch_world c.1 c.2 final_k w2) as [Hw|Hw];
    destruct (rank_and_fetch c.1 c.2 final_k w2) as [r' wr];
    cbn [fst snd] in *; subst r' wr.
  - exists [EvSearch v (Z.max final_k TOP_N_DEFAULT)].
    split; [reflexivity|]. repeat constructor.
  - exists [EvSearch v (Z.max final_k TOP_N_DEFAULT);
            EvFetch (slice_to c.1 final_k)].
    split; [|repeat constructor].
    unfold w2, add_log. cbn [db glob now log]. rewrite <- app_assoc.
    reflexivity.
Qed.


(* ----------------------------------------------------------------- *)
(** ** The shape of what the loader returns *)

Lemma StronglySorted_sublist {A} (R : relation A) (l1 l2 : list A) :
  l1 `sublist_of` l2 -> StronglySorted R l2 -> StronglySorted R l1.
Proof.
  induction 1 as [|x l1 l2 Hsub IH|x l1 l2 Hsub IH]; intros Hsorted.
  - constructor.
  - apply StronglySorted_inv in Hsorted as [Hl2 Hx].
    constructor; [apply IH; exact Hl2|].
    rewrite Forall_forall in Hx. rewrite Forall_forall.
    intros y Hy. apply Hx. eapply elem_of_sublist; eassumption.
  - apply StronglySorted_inv in Hsorted as [Hl2 _]. apply IH. exact Hl2.
Qed.

Lemma np_vstack_Ok {A} (vecs X : list (list A)) :
  np_vstack vecs = Ok X ->
  X = vecs /\ vecs <> [] /\
  exists n, Forall (fun v => length v = n) vecs.
Proof.
  unfold np_vstack. destruct vecs as [|v vecs]; [discriminate|].
  destruct (forallb _ _) eqn:Hall; [|discriminate].
  intros [= <-]. split_and!; [reflexivity|discriminate|].
  exists (length v). rewrite forallb_forall in Hall.
  rewrite Forall_forall. intros u Hu. apply Nat.eqb_eq, Hall.
  apply list_elem_of_In. exact Hu.
Qed.

Lemma select_rows_elem (model_name : pystr) (d : database) (r : vec_row) :
  r ∈ select_rows model_name d -> r ∈ qa_vec d.
Proof.
  rewrite select_rows_case, order_by_qa_id_perm.
  destruct (decide _); [trivial|]. rewrite list_elem_of_filter. tauto.
Qed.

(** X10. Whenever [load_all_embeddings] returns, the ids are not empty
    and in non-decreasing order, each is the [qa_id] of a row of [qa_vec]
    whose vector is not [NULL], the matrix has one row per id, all rows
    have one length, and that length is the dimension of the index
    [build_faiss_index] makes of the matrix. *)
Theorem load_all_embeddings_shape
    (d : database) (model_name which_vec : pystr)
    (ids : list Z) (X : list (list f32)) :
  load_all_embeddings d model_name which_vec = Ok (ids, X) ->
  ids <> [] /\
  length X = length ids /\
  Sorted Z.le ids /\
  (forall i, i ∈ ids ->
     exists r, r ∈ qa_vec d /\ v_qa_id r = i /\ is_Some (vec_col which_vec r)) /\
  (exists n : nat,
     Forall (fun row => length row = n) X /\
     build_faiss_index X = {| ix_d := Z.of_nat n; ix_rows := X |}).
Proof.
  unfold load_all_embeddings.
  pose proof (collect_vecs_outcome which_vec (select_rows model_name d)) as Hc.
  destruct (collect_vecs which_vec (select_rows model_name d)) as [acc|e];
    [|discriminate].
  destruct Hc as [Hids Hlen]. cbn [mbind result_bind].
  destruct acc.2 as [|v vecs] eqn:Hvecs; [discriminate|].
  destruct (np_vstack (v :: vecs)) as [X0|e] eqn:Hstack; [|discriminate].
  apply np_vstack_Ok in Hstack as (-> & _ & n & Hall).
  cbn [mbind result_bind]. intros [= <- <-].
  rewrite l2_normalize_rows_map, length_map, Hids, length_fmap.
  assert (Hne : usable_rows which_vec (select_rows model_name d) <> []).
  { intros Hnil. rewrite Hnil in Hlen. discriminate. }
  split_and!.
  - intros Hnil. apply fmap_nil_inv in Hnil. contradiction.
  - exact Hlen.
  - apply StronglySorted_Sorted.
    apply (StronglySorted_fmap v_qa_id qa_id_le); [trivial|].
    apply (StronglySorted_sublist _ _ (select_rows model_name d)).
    + apply sublist_filter.
    + apply Sorted_StronglySorted.
      * intros r1 r2 r3. unfold qa_id_le. lia.
      * rewrite select_rows_case. apply order_by_qa_id_sorted.
  - intros i Hi. apply list_elem_of_fmap in Hi as (r & -> & Hr).
    unfold usable_rows in Hr. apply list_elem_of_filter in Hr as [Hsome Hr].
    exists r. split_and!; [|reflexivity|exact Hsome].
    eapply select_rows_elem. exact Hr.
  - exists n.
    assert (Hrows : Forall (fun row => length row = n)
                      (map (@normalize_row _ f32_ops) (v :: vecs))).
    { apply List.Forall_map. eapply Forall_impl; [exact Hall|].
      intros row Hrow. unfold normalize_row. rewrite length_map. exact Hrow. }
    split; [exact Hrows|].
    cbn [map] in Hrows |- *. apply Forall_cons in Hrows as [Hrow _].
    unfold build_faiss_index. cbn. rewrite <- Hrow. reflexivity.
Qed.


(* ----------------------------------------------------------------- *)
(** ** Loading the models *)

Lemma init_models_once_loaded (con : option unit) (name which : pystr)
    (thr : float) (w : World) :
  models_loaded w ->
  init_models_once con name which thr w
  = (Ok tt, {| db := db w;
               glob := {| _st_model := _st_model (glob w);
                          _faiss_index := _faiss_index (glob w);
                          _faiss_ids := _faiss_ids (glob w);
                          _sem_thr := thr |};
               now := now w; log := log w |}).
Proof.
  intros ([m Hm] & [ix Hix] & [ids Hids]).
  unfold init_models_once. run_globals. rewrite Hm. run_globals.
  rewrite Hix, Hids. run_globals. reflexivity.
Qed.

Lemma init_models_once_Ok_any (con : option unit) (name which : pystr)
    (thr : float) (w w1 : World) :
  init_models_once con name which thr w = (Ok tt, w1) ->
  models_loaded w1 /\
  (con = None -> is_Some (_faiss_index (glob w)) /\
                 is_Some (_faiss_ids (glob w))).
Proof.
  unfold init_models_once, models_loaded. run.
  destruct (_st_model (glob w)) as [m|] eqn:Hm; run_globals.
  2: destruct (st_load name) as [m|e]; [run_globals|discriminate].
  all: destruct (_faiss_index (glob w)) as [ix|] eqn:Hix;
    [destruct (_faiss_ids (glob w)) as [ids|] eqn:Hids|]; run_globals;
    try (destruct con as [[]|]; run_globals; [|discriminate]);
    try (destruct (load_all_embeddings (db w) name which) as [r|e];
         [run_globals|discriminate]);
    intros [= <-]; cbn; rewrite ?Hm, ?Hix, ?Hids;
    split_and!; eauto; discriminate.
Qed.

(** X11. After a call of [init_models_once] that returned, the model,
    the index and its ids are loaded, the threshold is the one given and
    the database is untouched; any further call, with any model name,
    vector column or connection, loads nothing, raises nothing and changes
    the threshold only. *)
Theorem init_models_once_is_once
    (con : option unit) (name which : pystr) (thr : float) (w w1 : World) :
  init_models_once con name which thr w = (Ok tt, w1) ->
  models_loaded w1 /\ _sem_thr (glob w1) = thr /\ db w1 = db w /\
  forall (con' : option unit) (name' which' : pystr) (thr' : float),
    init_models_once con' name' which' thr' w1
    = (Ok tt, {| db := db w1;
                 glob := {| _st_model := _st_model (glob w1);
                            _faiss_index := _faiss_index (glob w1);
                            _faiss_ids := _faiss_ids (glob w1);
                            _sem_thr := thr' |};
                 now := now w1; log := log w1 |}).
Proof.
  intros Hrun.
  pose proof (init_models_once_effect con name which thr w) as He.
  cbn zeta in He. rewrite Hrun in He. cbn [snd] in He.
  destruct He as (Hdb & _ & Hthr & _).
  apply init_models_once_Ok_any in Hrun as [Hloaded _].
  split_and!; try assumption.
  intros con' name' which' thr'. apply init_models_once_loaded. exact Hloaded.
Qed.

(** X12. [init_models_once] without a connection, when the index or its
    ids are missing, never returns: it raises the need-a-connection
    [RuntimeError], or the error of the model load when that fails first.
    By then the threshold has been set, and a model that was loaded stays
    loaded. *)
Theorem init_models_once_without_connection
    (name which : pystr) (thr : float) (w : World) :
  _faiss_index (glob w) = None \/ _faiss_ids (glob w) = None ->
  let res := init_models_once None name which thr w in
  _sem_thr (glob res.2) = thr /\ db res.2 = db w /\
  (forall m, _st_model (glob w) = Some m ->
     res.1 = Raise (RuntimeError NeedConnection) /\ log res.2 = log w) /\
  (forall m, _st_model (glob w) = None -> st_load name = Ok m ->
     res.1 = Raise (RuntimeError NeedConnection) /\
     _st_model (glob res.2) = Some m /\
     log res.2 = log w ++ [EvLoadModel name]) /\
  (forall e, _st_model (glob w) = None -> st_load name = Raise e ->
     res.1 = Raise e /\ _st_model (glob res.2) = None /\
     log res.2 = log w ++ [EvLoadModel name]).
Proof.
  intros Hmissing. unfold init_models_once. run.
  destruct (_st_model (glob w)) as [m|] eqn:Hm; run_globals.
  2: destruct (st_load name) as [m|e]; run_globals.
  all: destruct (_faiss_index (glob w)) as [ix|] eqn:Hix;
    [destruct (_faiss_ids (glob w)) as [ids|] eqn:Hids|]; run_globals;
    try (destruct Hmissing; discriminate);
    cbn; rewrite ?Hm; split_and!; try reflexivity;
    intros; simplify_eq; split_and!; reflexivity.
Qed.

(* ----------------------------------------------------------------- *)
(** ** [dense_topn] *)

(** X13. When [dense_topn] returns, its two lists are those of the
    index's answer for the encoded query with the padding entries (position
    [-1]) removed: the similarities kept, and the ids found at the positions
    kept; they have the same length; one encoding and one search were
    made; and [hybrid_search]'s candidate step, run on the same vector,
    index and ids with [max(final_k, TOP_N_DEFAULT) = top_n], yields the
    same two lists. *)
Theorem dense_topn_candidates
    (query model : pystr) (index : faiss_index) (ids : list Z) (top_n : Z)
    (w w1 : World) (top_ids : list Z) (top_sims : list float) :
  dense_topn query model index ids top_n w = (Ok (top_ids, top_sims), w1) ->
  exists v res,
    st_encode model query = Ok v /\
    faiss_search index v top_n = Ok res /\
    top_sims = (filter (fun si : float * Z => si.2 <> -1) res).*1 /\
    mapR (np_getitem ids) (filter (fun i => i <> -1) res.*2) = Ok top_ids /\
    length top_ids = length top_sims /\
    w1 = add_log [EvEncode model query; EvSearch v top_n] w /\
    (forall (w0 : World) (final_k : Z),
       _faiss_index (glob w0) = Some index ->
       _faiss_ids (glob w0) = Some ids ->
       top_n = Z.max final_k TOP_N_DEFAULT ->
       (search_candidates v final_k w0).1 = Ok (top_ids, top_sims)).
Proof.
  unfold dense_topn. intros Hrun.
  apply bind_Ok in Hrun as ([] & wa & Hemit & Hrun). injection Hemit as <-.
  apply bind_Ok in Hrun as (v & wb & Hv & Hrun).
  apply lift_Ok in Hv as [Hv ->].
  apply bind_Ok in Hrun as ([] & wc & Hemit & Hrun). injection Hemit as <-.
  apply bind_Ok in Hrun as (res & wd & Hres & Hrun).
  apply lift_Ok in Hres as [Hres ->].
  apply bind_Ok in Hrun as (tids & we & Hids & Hrun).
  apply lift_Ok in Hids as [Hids ->].
  injection Hrun as <- <- <-. rewrite zip_fst_snd.
  exists v, res. split_and!; try done.
  - rewrite (mapR_length _ _ _ Hids), length_fmap. apply filter_snd_length.
  - unfold add_log. cbn [db glob now log]. rewrite <- app_assoc. reflexivity.
  - intros w0 final_k Hix Hid ->. unfold search_candidates. run.
    rewrite Hix. run. rewrite Hres. run. rewrite Hid, Hids. run.
    rewrite zip_fst_snd. reflexivity.
Qed.

End MoreProperties.

(* ================================================================= *)
(** * Properties of the front end ([bot.py]) *)

(* ----------------------------------------------------------------- *)
(** ** Cutting a text into parts *)

Lemma py_slice_window {A} (t : list A) (i n : Z) :
  0 <= i -> 0 < n ->
  py_slice t i (i + n) = take (Z.to_nat n) (drop (Z.to_nat i) t).
Proof.
  intros Hi Hn. unfold py_slice, slice_bound, len.
  destruct (Z.ltb_spec i 0); [lia|].
  destruct (Z.ltb_spec (i + n) 0); [lia|].
  destruct (Z_le_gt_dec i (Z.of_nat (length t))) as [Hin|Hout].
  - rewrite (Z.min_l i) by lia.
    destruct (Z_le_gt_dec (i + n) (Z.of_nat (length t))) as [Hfull|Hpart].
    + rewrite Z.min_l by lia. f_equal. lia.
    + rewrite Z.min_r by lia.
      rewrite !take_ge by (rewrite length_drop; lia). reflexivity.
  - rewrite !Z.min_r by lia. rewrite Z.sub_diag. cbn [Z.to_nat take].
    rewrite (drop_ge t (Z.to_nat i)) by lia. rewrite take_nil. reflexivity.
Qed.

(** The parts of a text that is not empty, for a positive size: the
    windows of that size, one after the other. *)
Lemma chunk_text_windows (t : pystr) (n : Z) :
  t <> [] -> 0 < n ->
  chunk_text (Some t) n
  = Ok ((fun k : nat => take (Z.to_nat n) (drop (k * Z.to_nat n) t))
          <$> seq 0 (Z.to_nat ((len t + n - 1) / n))).
Proof.
  intros Ht Hn. unfold chunk_text, py_range.
  destruct t as [|c t]; [contradiction|]. cbn [str_or].
  destruct (Z.eqb_spec n 0); [lia|].
  destruct (Z.ltb_spec 0 n); [|lia].
  f_equal. rewrite Z.sub_0_r. unfold seqZ. rewrite <- !list_fmap_compose.
  apply list_fmap_ext. intros _ k _. cbn.
  rewrite py_slice_window by lia. do 2 f_equal. lia.
Qed.

Lemma windows_concat {A} (t : list A) (m C : nat) :
  List.concat ((fun k : nat => take m (drop (k * m) t)) <$> seq 0 C)
  = take (C * m) t.
Proof.
  induction C as [|C IH]; [reflexivity|].
  rewrite seq_S, fmap_app, concat_app, IH. cbn [fmap list_fmap List.concat].
  rewrite app_nil_r, take_take_drop. f_equal. lia.
Qed.

Lemma windows_lookup {A} (t : list A) (m C i : nat) (p : list A) :
  ((fun k : nat => take m (drop (k * m) t)) <$> seq 0 C) !! i = Some p ->
  p = take m (drop (i * m) t) /\ (i < C)%nat.
Proof.
  rewrite list_lookup_fmap. intros Hp.
  destruct (seq 0 C !! i) as [k|] eqn:Hk; [|discriminate].
  apply lookup_seq in Hk as [-> Hi]. injection Hp as <-. split; [reflexivity|lia].
Qed.

(** X14. For a positive size [n], [chunk_text] cuts a text into parts
    that, put together again, are the text (the empty text for [None]);
    there is at least one part and none is longer than [n].  For a text
    that is not empty no part is empty, every part but the last has exactly
    [n] characters, and there are [ceil(len(s) / n)] parts. *)
Theorem chunk_text_partition (s : option pystr) (n : Z) :
  0 < n ->
  exists parts,
    chunk_text s n = Ok parts /\
    List.concat parts = str_or s [] /\
    parts <> [] /\
    Forall (fun p => len p <= n) parts /\
    (str_or s [] <> [] ->
     Forall (fun p => p <> []) parts /\
     len parts = (len (str_or s []) + n - 1) / n /\
     forall (i : nat) p,
       parts !! i = Some p -> (S i < length parts)%nat -> len p = n).
Proof.
  intros Hn. destruct (decide (str_or s [] = [])) as [Hnil|Hne].
  { exists [[]]. unfold chunk_text. rewrite Hnil.
    split_and!; [reflexivity|reflexivity|discriminate| |contradiction].
    repeat constructor. unfold len. cbn. lia. }
  assert (Hs : chunk_text s n = chunk_text (Some (str_or s [])) n).
  { unfold chunk_text. destruct s as [[|c t]|]; reflexivity. }
  rewrite Hs. set (t := str_or s []) in *.
  rewrite (chunk_text_windows t n Hne Hn).
  set (m := Z.to_nat n). set (c := (len t + n - 1) / n).
  assert (Hlen : 0 < len t).
  { unfold len. destruct t; [contradiction|cbn; lia]. }
  assert (Hc : len t <= n * c /\ n * (c - 1) < len t /\ 0 < c).
  { pose proof (Z.div_mod (len t + n - 1) n ltac:(lia)) as Hdm.
    pose proof (Z.mod_pos_bound (len t + n - 1) n Hn) as Hr.
    fold c in Hdm. split_and!; nia. }
  destruct Hc as (Hc1 & Hc2 & Hc3).
  eexists. split; [reflexivity|].
  assert (Hparts : forall (i : nat) p,
            ((fun k : nat => take m (drop (k * m) t)) <$> seq 0 (Z.to_nat c))
              !! i = Some p ->
            (i < Z.to_nat c)%nat /\
            length p = Nat.min m (length t - i * m)).
  { intros i p Hp. apply windows_lookup in Hp as [-> Hi].
    split; [exact Hi|]. rewrite length_take, length_drop. reflexivity. }
  split_and!.
  - rewrite windows_concat. apply take_ge. unfold len in *. subst m. nia.
  - intros Hnil. apply fmap_nil_inv in Hnil.
    apply (f_equal length) in Hnil. rewrite length_seq in Hnil. cbn in Hnil. lia.
  - apply Forall_lookup. intros i p Hp. apply Hparts in Hp as [_ Hp].
    unfold len. subst m. lia.
  - intros _. split_and!.
    + apply Forall_lookup. intros i p Hp. apply Hparts in Hp as [Hi Hp].
      intros ->. cbn in Hp. unfold len in *. subst m. nia.
    + unfold len. rewrite length_fmap, length_seq. lia.
    + intros i p Hp Hlast. rewrite length_fmap, length_seq in Hlast.
      apply Hparts in Hp as [Hi Hp]. unfold len in *. subst m. nia.
Qed.

(** X15. [chunk_text] with a size that is not positive: an empty or
    missing text still gives the one empty part; a text that is not empty
    raises [ValueError] for size zero and gives no part at all, losing the
    text, for a negative size. *)
Theorem chunk_text_degenerate (s : option pystr) (n : Z) :
  n <= 0 ->
  chunk_text s n =
  match str_or s [] with
  | [] => Ok [[]]
  | _ => if n =? 0 then Raise ValueError else Ok []
  end.
Proof.
  intros Hn. unfold chunk_text, py_range.
  destruct (str_or s []) as [|c t]; [reflexivity|].
  destruct (Z.eqb_spec n 0); [reflexivity|].
  destruct (Z.ltb_spec 0 n); [lia|].
  rewrite seqZ_nil; [reflexivity|].
  apply Z.lt_succ_r, Z.div_lt_upper_bound; [lia|].
  unfold len. cbn [length]. lia.
Qed.

(* ----------------------------------------------------------------- *)
(** ** Sending a long text *)

Lemma strip_visible (s : pystr) : visible (strip s) = visible s.
Proof. unfold visible, strip. rewrite rstrip_visible. apply lstrip_visible. Qed.

Lemma strip_nil_iff (s : pystr) : strip s = [] <-> visible s = [].
Proof.
  rewrite <- strip_visible. split; [intros ->; reflexivity|].
  pose proof (strip_head s) as Hh. unfold visible.
  destruct (strip s) as [|c r]; [reflexivity|].
  rewrite filter_cons_True by exact Hh. discriminate.
Qed.

Lemma visible_app (s t : pystr) : visible (s ++ t) = visible s ++ visible t.
Proof. apply filter_app. Qed.

Lemma visible_concat_filter (parts : list pystr) :
  visible (List.concat (filter (fun p => strip p <> []) parts))
  = visible (List.concat parts).
Proof.
  induction parts as [|p parts IH]; [reflexivity|].
  cbn [List.concat]. rewrite visible_app.
  destruct (decide (strip p = [])) as [Hblank|Hp].
  - rewrite filter_cons_False by (intros Hne; contradiction).
    apply strip_nil_iff in Hblank. rewrite Hblank. exact IH.
  - rewrite filter_cons_True by exact Hp.
    cbn [List.concat]. rewrite visible_app, IH. reflexivity.
Qed.

Lemma with_sent_nil (b : Bot) : with_sent [] b = b.
Proof. destruct b. unfold with_sent. cbn. rewrite app_nil_r. reflexivity. Qed.

Lemma with_sent_app (acts1 acts2 : list action) (b : Bot) :
  with_sent acts2 (with_sent acts1 b) = with_sent (acts1 ++ acts2) b.
Proof. unfold with_sent. cbn. rewrite app_assoc. reflexivity. Qed.

Lemma send_with_sent (a : action) (b : Bot) : send a b = with_sent [a] b.
Proof. reflexivity. Qed.

Lemma send_parts_fold (parts : list pystr) (b : Bot) :
  foldl (fun b part =>
           match strip part with
           | [] => b
           | _ => send (ReplyText part None) b
           end) b parts
  = with_sent ((fun p => ReplyText p None)
                 <$> filter (fun p => strip p <> []) parts) b.
Proof.
  revert b. induction parts as [|p parts IH]; intros b.
  - cbn. symmetry. apply with_sent_nil.
  - cbn [foldl]. rewrite IH. destruct (strip p) as [|c r] eqn:Hp.
    + rewrite filter_cons_False by (rewrite Hp; intros Hne; contradiction).
      reflexivity.
    + rewrite filter_cons_True by (rewrite Hp; discriminate).
      rewrite send_with_sent, with_sent_app. reflexivity.
Qed.

Lemma nonblank_parts_spec (msg : pystr) :
  chunk_text (Some msg) FULL_CHUNK <> Raise ValueError /\
  (exists parts, chunk_text (Some msg) FULL_CHUNK = Ok parts) /\
  Forall (fun p => strip p <> [] /\ 0 < len p <= FULL_CHUNK)
    (nonblank_parts msg) /\
  visible (List.concat (nonblank_parts msg)) = visible msg /\
  (len msg <= FULL_CHUNK -> strip msg <> [] -> nonblank_parts msg = [msg]).
Proof.
  unfold nonblank_parts. destruct (decide (msg = [])) as [->|Hne].
  { cbn. split_and!; try done. eauto. }
  assert (Hn : 0 < FULL_CHUNK) by (unfold FULL_CHUNK; lia).
  rewrite (chunk_text_windows msg FULL_CHUNK Hne Hn).
  set (m := Z.to_nat FULL_CHUNK).
  set (c := (len msg + FULL_CHUNK - 1) / FULL_CHUNK).
  set (cs := (fun k : nat => take m (drop (k * m) msg)) <$> seq 0 (Z.to_nat c)).
  assert (Hlen : 0 < len msg).
  { unfold len. destruct msg; [contradiction|cbn; lia]. }
  assert (Hc : len msg <= FULL_CHUNK * c).
  { pose proof (Z.div_mod (len msg + FULL_CHUNK - 1) FULL_CHUNK ltac:(lia))
      as Hdm.
    pose proof (Z.mod_pos_bound (len msg + FULL_CHUNK - 1) FULL_CHUNK Hn) as Hr.
    fold c in Hdm. nia. }
  assert (Hcat : List.concat cs = msg).
  { unfold cs. rewrite windows_concat. apply take_ge.
    unfold len in *. subst m. nia. }
  split_and!.
  - discriminate.
  - eauto.
  - apply Forall_forall. intros p Hp.
    apply list_elem_of_filter in Hp as [Hp Hin].
    split; [exact Hp|].
    apply list_elem_of_lookup in Hin as [i Hi].
    apply windows_lookup in Hi as [-> _].
    split.
    + unfold len. destruct (take m _); [contradiction|cbn; lia].
    + unfold len. rewrite length_take. subst m. lia.
  - rewrite visible_concat_filter, Hcat. reflexivity.
  - intros Hshort Hmsg.
    assert (Hone : Z.to_nat c = 1%nat).
    { assert (c = 1); [|lia]. unfold c. symmetry.
      apply (Z.div_unique _ _ 1 (len msg - 1)); lia. }
    unfold cs. rewrite Hone. cbn [seq fmap list_fmap]. rewrite Nat.mul_0_l, drop_0.
    rewrite take_ge by (unfold len in *; subst m; lia).
    rewrite filter_cons_True by exact Hmsg. reflexivity.
Qed.

Lemma nonblank_parts_nonempty (msg : pystr) :
  strip msg <> [] -> nonblank_parts msg <> [].
Proof.
  intros Hmsg Hnil. apply Hmsg, strip_nil_iff.
  destruct (nonblank_parts_spec msg) as (_ & _ & _ & <- & _).
  rewrite Hnil. reflexivity.
Qed.

Lemma send_parts_eq (msg : pystr) (b : Bot) :
  send_parts msg b
  = (Ok tt, with_sent ((fun p => ReplyText p None) <$> nonblank_parts msg) b).
Proof.
  unfold send_parts, nonblank_parts.
  destruct (nonblank_parts_spec msg) as (_ & [parts ->] & _).
  rewrite send_parts_fold. reflexivity.
Qed.

(** X16. The loop that sends a long text never raises and sends, as
    replies without a keyboard and in order, the parts that are not blank:
    each has between 1 and [FULL_CHUNK] characters; together they hold
    every visible character of the text, in order (blank parts are dropped,
    so whitespace may be lost); a text that is not blank makes at least one
    reply, and a text within [FULL_CHUNK] characters makes exactly one, the
    text itself. *)
Theorem send_parts_covers_text (msg : pystr) (b : Bot) :
  exists parts,
    send_parts msg b
    = (Ok tt, with_sent ((fun p => ReplyText p None) <$> parts) b) /\
    Forall (fun p => strip p <> [] /\ 0 < len p <= FULL_CHUNK) parts /\
    visible (List.concat parts) = visible msg /\
    (strip msg <> [] -> parts <> []) /\
    (len msg <= FULL_CHUNK -> strip msg <> [] -> parts = [msg]).
Proof.
  exists (nonblank_parts msg).
  destruct (nonblank_parts_spec msg) as (_ & _ & Hall & Hvis & Hone).
  split_and!.
  - apply send_parts_eq.
  - exact Hall.
  - exact Hvis.
  - apply nonblank_parts_nonempty.
  - exact Hone.
Qed.

(* ----------------------------------------------------------------- *)
(** ** The card and its keyboard *)

Lemma py_getitem_Ok {A} (xs : list A) (i : Z) (x : A) :
  0 <= i -> py_getitem xs i = Ok x <-> xs !! Z.to_nat i = Some x.
Proof.
  intros Hi. unfold py_getitem, len.
  destruct (Z.ltb_spec i 0); [lia|].
  destruct (Z.leb_spec 0 i); [|lia]. cbn [andb].
  destruct (Z.ltb_spec i (Z.of_nat (length xs))) as [Hin|Hout].
  - destruct (xs !! Z.to_nat i) as [y|] eqn:Hy.
    + split; intros [= ->]; reflexivity.
    + apply lookup_ge_None in Hy. lia.
  - split; [discriminate|]. intros Hx. apply lookup_lt_Some in Hx. lia.
Qed.

Lemma py_getitem_in_range {A} (xs : list A) (i : Z) :
  0 <= i < len xs -> exists x, py_getitem xs i = Ok x.
Proof.
  intros Hi. unfold len in Hi.
  destruct (lookup_lt_is_Some_2 xs (Z.to_nat i)) as [x Hx]; [lia|].
  exists x. apply py_getitem_Ok; [lia|exact Hx].
Qed.

Lemma card_Ok_inv (query : pystr) (rows : list Row) (idx : Z) (show_q : bool)
    (msg : pystr) (kb : InlineKeyboardMarkup) :
  card query rows idx show_q = Ok (msg, kb) ->
  exists r,
    py_getitem rows idx = Ok r /\
    msg = format_answer_message query r idx (len rows) show_q /\
    kb = make_keyboard idx (len rows) show_q
           (negb (bool_decide (r_source_url r = [])))
           (SHORT_LIMIT <? len (norm (Some (r_answer r)))).
Proof.
  unfold card. destruct (py_getitem rows idx) as [r|e]; [|discriminate].
  cbn [mbind result_bind]. intros [= <- <-]. exists r. split_and!; reflexivity.
Qed.

(** The buttons of a keyboard, by what they send back. *)
Lemma make_keyboard_offers (idx total : Z) (show_q has_source has_full : bool) :
  let kb := make_keyboard idx total show_q has_source has_full in
  offers kb "prev" = (0 <? idx) /\
  offers kb "next" = (idx <? total - 1) /\
  offers kb "toggle_q" = true /\
  offers kb "full" = has_full /\
  offers kb "source" = has_source.
Proof.
  unfold make_keyboard.
  destruct (0 <? idx), (idx <? total - 1), show_q, has_source, has_full;
    split_and!; vm_compute; reflexivity.
Qed.

(** X17. The card of a result and its keyboard agree.  The card ends
    with ["A: "] and the answer shown, at most [SHORT_LIMIT + 1]
    characters; the answer shown is the normalised answer when the keyboard
    has no [full] button, and its first 900 characters and an ellipsis when
    it has one, which is exactly when the normalised answer is longer than
    [SHORT_LIMIT].  The keyboard always has [toggle_q]; it has [source]
    exactly when the record has a source, [prev] exactly when the position
    is not the first and [next] exactly when it is not the last. *)
Theorem card_matches_keyboard
    (query : pystr) (rows : list Row) (idx : Z) (show_q : bool)
    (msg : pystr) (kb : InlineKeyboardMarkup) :
  card query rows idx show_q = Ok (msg, kb) ->
  exists r pre shown,
    py_getitem rows idx = Ok r /\
    msg = pre ++ str "A: " ++ shown /\
    len shown <= SHORT_LIMIT + 1 /\
    (offers kb "full" = false -> shown = norm (Some (r_answer r))) /\
    (offers kb "full" = true ->
     SHORT_LIMIT < len (norm (Some (r_answer r))) /\
     shown = take 900 (norm (Some (r_answer r))) ++ [ELLIPSIS]) /\
    offers kb "toggle_q" = true /\
    (offers kb "source" = true <-> r_source_url r <> []) /\
    (offers kb "prev" = true <-> 0 < idx) /\
    (offers kb "next" = true <-> idx < len rows - 1).
Proof.
  intros Hcard. apply card_Ok_inv in Hcard as (r & Hr & -> & ->).
  set (ans := norm (Some (r_answer r))).
  destruct (make_keyboard_offers idx (len rows) show_q
              (negb (bool_decide (r_source_url r = [])))
              (SHORT_LIMIT <? len ans))
    as (Hprev & Hnext & Htoggle & Hfull & Hsource).
  exists r.
  exists (TXT_QUERY ++ norm (Some query) ++ TXT_ANSWER ++ str_of_int (idx + 1)
          ++ TXT_OF ++ str_of_int (len rows)
          ++ (if show_q
              then [NL; NL] ++ str "Q: " ++ norm (Some (r_question r))
              else [])
          ++ [NL; NL]).
  exists (if SHORT_LIMIT <? len ans
          then slice_to ans SHORT_LIMIT ++ [ELLIPSIS] else ans).
  rewrite Hprev, Hnext, Htoggle, Hfull, Hsource.
  split; [exact Hr|]. split.
  { unfold format_answer_message. fold ans.
    destruct show_q; rewrite <- ?app_assoc; reflexivity. }
  split_and!.
  - destruct (Z.ltb_spec SHORT_LIMIT (len ans)); [|lia].
    unfold len, SHORT_LIMIT, slice_to. cbn [Z.ltb Z.compare].
    rewrite length_app, length_take. cbn [length]. lia.
  - intros ->. reflexivity.
  - intros Hlong. rewrite Hlong. apply Z.ltb_lt in Hlong.
    split; [exact Hlong|reflexivity].
  - reflexivity.
  - rewrite negb_true_iff, bool_decide_eq_false. reflexivity.
  - apply Z.ltb_lt.
  - apply Z.ltb_lt.
Qed.

(* ----------------------------------------------------------------- *)
(** ** Pressing a button *)

Lemma str_or_Some (q : pystr) : str_or (Some q) [] = q.
Proof. destruct q; reflexivity. Qed.

Lemma set_user_data_same (b : Bot) : set_user_data (user_data b) b = b.
Proof. destruct b. reflexivity. Qed.

Lemma with_sent_after_send (a : action) (acts : list action) (b : Bot) :
  with_sent acts (send a b) = with_sent (a :: acts) b.
Proof. unfold with_sent, send. cbn. rewrite <- app_assoc. reflexivity. Qed.

Lemma set_user_data_send (ud : UserData) (a : action) (b : Bot) :
  set_user_data ud (send a b) = send a (set_user_data ud b).
Proof. reflexivity. Qed.

Lemma card_in_range (query : pystr) (rows : list Row) (idx : Z) (show_q : bool) :
  0 <= idx < len rows ->
  exists msg kb, card query rows idx show_q = Ok (msg, kb).
Proof.
  intros Hi. destruct (py_getitem_in_range rows idx Hi) as [r Hr].
  unfold card. rewrite Hr. cbn. eauto.
Qed.

Lemma format_full_answer_nonblank (r : Row) (show_q : bool) :
  strip (format_full_answer r show_q) <> [].
Proof.
  rewrite strip_nil_iff. unfold format_full_answer, visible.
  change (str "Q: ") with [81; 58; 32]%N.
  change (str "A: ") with [65; 58; 32]%N.
  destruct show_q, (r_source_url r); cbn [app join];
    rewrite filter_cons_True by reflexivity; discriminate.
Qed.

(* ----------------------------------------------------------------- *)
(** ** Cards that differ *)

Lemma str_inj (s t : string) : str s = str t -> s = t.
Proof.
  unfold str. intros Heq.
  apply (f_equal (map Ascii.ascii_of_N)) in Heq.
  rewrite !map_map in Heq.
  rewrite !(map_ext _ (fun a => a) Ascii.ascii_N_embedding), !map_id in Heq.
  rewrite <- (String.string_of_list_ascii_of_string s),
          <- (String.string_of_list_ascii_of_string t).
  congruence.
Qed.

Lemma str_String (c : Ascii.ascii) (s : string) :
  str (String c s) = Ascii.N_of_ascii c :: str s.
Proof. reflexivity. Qed.

Lemma pretty_N_go_no_space (x : N) (s : string) :
  SPACE ∉ str s -> SPACE ∉ str (pretty_N_go x s).
Proof.
  revert s. induction (N.lt_wf_0 x) as [x _ IH]. intros s Hs.
  destruct (decide (x = 0%N)) as [->|Hx]; [rewrite pretty_N_go_0; exact Hs|].
  rewrite pretty_N_go_step by lia. apply IH; [apply N.div_lt; lia|].
  rewrite str_String. apply not_elem_of_cons. split; [|exact Hs].
  unfold pretty_N_char. repeat case_match; discriminate.
Qed.

(** [str(n)] has no space in it. *)
Lemma str_of_int_no_space (z : Z) : SPACE ∉ str_of_int z.
Proof.
  assert (Hnil : SPACE ∉ str "") by apply not_elem_of_nil.
  assert (Hpos : forall p, SPACE ∉ str (pretty (N.pos p))).
  { intros p. unfold pretty, pretty_N.
    destruct (decide (N.pos p = 0%N)); [discriminate|].
    apply pretty_N_go_no_space. exact Hnil. }
  unfold str_of_int, pretty, pretty_Z. destruct z as [|p|p].
  - apply not_elem_of_cons. split; [discriminate|exact Hnil].
  - apply Hpos.
  - change (SPACE ∉ 45%N :: str (pretty (N.pos p))).
    apply not_elem_of_cons. split; [discriminate|apply Hpos].
Qed.

Lemma str_of_int_inj (a b : Z) : str_of_int a = str_of_int b -> a = b.
Proof. intros Heq. apply str_inj in Heq. exact (pretty_Z_inj _ _ Heq). Qed.

(** Two texts that agree up to and including a separator agree before
    its first occurrence. *)
Lemma app_sep_inj {A} (sep : A) (d1 d2 t1 t2 : list A) :
  sep ∉ d1 -> sep ∉ d2 -> d1 ++ sep :: t1 = d2 ++ sep :: t2 -> d1 = d2.
Proof.
  revert d2. induction d1 as [|a d1 IH]; intros [|c d2] H1 H2 Heq;
    cbn in Heq.
  - reflexivity.
  - injection Heq as -> _. exfalso. apply H2. left.
  - injection Heq as -> _. exfalso. apply H1. left.
  - injection Heq as -> Heq. f_equal.
    apply not_elem_of_cons in H1 as [_ H1].
    apply not_elem_of_cons in H2 as [_ H2].
    exact (IH d2 H1 H2 Heq).
Qed.

(** The card tells the position: cards of two positions differ. *)
Lemma format_answer_message_position
    (query : pystr) (r r' : Row) (i j total total' : Z) (s s' : bool) :
  format_answer_message query r i total s
  = format_answer_message query r' j total' s' -> i = j.
Proof.
  unfold format_answer_message. intros Heq.
  assert (Htail : exists t1 t2,
            str_of_int (i + 1) ++ SPACE :: t1
            = str_of_int (j + 1) ++ SPACE :: t2).
  { destruct s, s'; rewrite <- !app_assoc in Heq;
      do 3 apply app_inv_head in Heq;
      change TXT_OF with (SPACE :: [1080; 1079; 32]%N) in Heq;
      rewrite <- !app_comm_cons in Heq; eauto. }
  destruct Htail as (t1 & t2 & Htail).
  apply app_sep_inj in Htail; try apply str_of_int_no_space.
  apply str_of_int_inj in Htail. lia.
Qed.

(** Showing or hiding the question changes the label of a button. *)
Lemma make_keyboard_toggle (idx total : Z) (show_q has_source has_full : bool) :
  make_keyboard idx total show_q has_source has_full
  <> make_keyboard idx total (negb show_q) has_source has_full.
Proof.
  unfold make_keyboard, LABEL_HIDE_Q, LABEL_SHOW_Q.
  destruct (0 <? idx), (idx <? total - 1), show_q, has_source, has_full;
    cbn; discriminate.
Qed.

Lemma card_other_position
    (query : pystr) (rows : list Row) (i j : Z) (s : bool)
    (msg msg' : pystr) (kb kb' : InlineKeyboardMarkup) :
  card query rows i s = Ok (msg, kb) ->
  card query rows j s = Ok (msg', kb') ->
  i <> j -> (msg, Some kb) <> (msg', Some kb').
Proof.
  intros Hi Hj Hne [= Hmsg _].
  apply card_Ok_inv in Hi as (r & _ & -> & _).
  apply card_Ok_inv in Hj as (r' & _ & -> & _).
  apply format_answer_message_position in Hmsg. contradiction.
Qed.

Lemma card_toggled
    (query : pystr) (rows : list Row) (i : Z) (s : bool)
    (msg msg' : pystr) (kb kb' : InlineKeyboardMarkup) :
  card query rows i s = Ok (msg, kb) ->
  card query rows i (negb s) = Ok (msg', kb') ->
  (msg, Some kb) <> (msg', Some kb').
Proof.
  intros Hi Hj [= _ Hkb].
  apply card_Ok_inv in Hi as (r & Hr & _ & ->).
  apply card_Ok_inv in Hj as (r' & Hr' & _ & ->).
  rewrite Hr in Hr'. injection Hr' as <-.
  exact (make_keyboard_toggle _ _ _ _ _ Hkb).
Qed.

Section HandlerProperties.
Context `{External}.

(** What [on_buttons] does while the user is browsing results: the
    position moves by one inside the list, or the question is toggled, and
    the card is rendered again, unless the message pressed shows it
    already; [source] and [full] only reply. *)
Lemma on_buttons_browsing
    (shown : pystr * option InlineKeyboardMarkup)
    (data : option pystr) (b : Bot) (rows : list Row) (query : pystr)
    (idx : Z) (show_q : bool) :
  user_data b = browsing rows query idx show_q ->
  0 <= idx < len rows ->
  let idx' :=
    if bool_decide (data = Some (str "next")) && (idx <? len rows - 1)
    then idx + 1
    else if bool_decide (data = Some (str "prev")) && (0 <? idx)
         then idx - 1 else idx in
  let show_q' :=
    if bool_decide (data = Some (str "toggle_q")) then negb show_q
    else show_q in
  exists st acts r,
    on_buttons shown data b
    = (st, with_sent (AnswerCallback :: acts)
             (set_user_data (browsing rows query idx' show_q') b)) /\
    0 <= idx' < len rows /\
    py_getitem rows idx = Ok r /\
    (if bool_decide (data = Some (str "source")) then
       st = Ok tt /\
       acts = match r_source_url r with
              | [] => []
              | url => [ReplyText (TXT_SOURCE ++ url) None]
              end
     else if bool_decide (data = Some (str "full")) then
       st = Ok tt /\
       acts = (fun p => ReplyText p None)
                <$> nonblank_parts (format_full_answer r show_q)
     else exists msg kb,
            card query rows idx' show_q' = Ok (msg, kb) /\
            (st, acts) = if bool_decide (shown = (msg, Some kb))
                         then (Raise BadRequest, [])
                         else (Ok tt, [EditMessageText msg (Some kb)])).
Proof.
  intros Hud Hidx idx' show_q'.
  assert (Hin : 0 <= idx' < len rows).
  { subst idx'. destruct (bool_decide _ && (idx <? _)) eqn:Hn.
    - apply andb_prop in Hn as [_ Hn]. apply Z.ltb_lt in Hn. lia.
    - destruct (bool_decide _ && (0 <? idx)) eqn:Hp; [|lia].
      apply andb_prop in Hp as [_ Hp]. apply Z.ltb_lt in Hp. lia. }
  assert (Hsame : set_user_data (browsing rows query idx show_q) b = b).
  { rewrite <- Hud. apply set_user_data_same. }
  assert (Hrender : forall i s b0,
            0 <= i < len rows ->
            exists msg kb,
              card query rows i s = Ok (msg, kb) /\
              match card query rows i s with
              | Raise e => (Raise e, b0)
              | Ok (msg, kb) => edit_message_text shown msg (Some kb) b0
              end
              = (if bool_decide (shown = (msg, Some kb))
                 then Raise BadRequest else Ok tt,
                 with_sent (if bool_decide (shown = (msg, Some kb))
                            then [] else [EditMessageText msg (Some kb)]) b0)).
  { intros i s b0 Hi. destruct (card_in_range query rows i s Hi)
      as (msg & kb & Hcard).
    exists msg, kb. rewrite Hcard. split; [reflexivity|].
    unfold edit_message_text.
    destruct (bool_decide (shown = (msg, Some kb)));
      [rewrite with_sent_nil|]; reflexivity. }
  assert (Hpair : forall (msg : pystr) (kb : InlineKeyboardMarkup),
            (if bool_decide (shown = (msg, Some kb))
             then Raise BadRequest else Ok tt,
             if bool_decide (shown = (msg, Some kb))
             then [] else [EditMessageText msg (Some kb)])
            = if bool_decide (shown = (msg, Some kb))
              then (Raise BadRequest, [])
              else (Ok tt, [EditMessageText msg (Some kb)])).
  { intros msg kb. destruct (bool_decide (shown = (msg, Some kb)));
      reflexivity. }
  destruct (py_getitem_in_range rows idx Hidx) as [r Hr].
  unfold on_buttons. cbn [user_data send]. rewrite Hud.
  cbn [browsing ud_results ud_query ud_idx ud_show_q default from_option].
  unfold Datatypes.id. rewrite str_or_Some.
  destruct rows as [|r0 rs]; [unfold len in Hidx; cbn in Hidx; lia|].
  cbv beta iota. remember (r0 :: rs) as rows eqn:Hrows in *. clear Hrows.
  fold (send AnswerCallback b).
  replace {| ud_results := Some rows; ud_query := Some query;
             ud_idx := Some (idx + 1); ud_show_q := Some show_q |}
    with (browsing rows query (idx + 1) show_q) by reflexivity.
  replace {| ud_results := Some rows; ud_query := Some query;
             ud_idx := Some (idx - 1); ud_show_q := Some show_q |}
    with (browsing rows query (idx - 1) show_q) by reflexivity.
  replace {| ud_results := Some rows; ud_query := Some query;
             ud_idx := Some idx; ud_show_q := Some (negb show_q) |}
    with (browsing rows query idx (negb show_q)) by reflexivity.
  subst idx' show_q'.
  destruct (decide (data = Some (str "next"))) as [->|Hnext].
  { rewrite (bool_decide_eq_true_2 (Some (str "next") = Some (str "next")))
      by reflexivity.
    rewrite !(bool_decide_eq_false_2 (Some (str "next") = _)) by discriminate.
    cbn [andb orb].
    destruct (Z.ltb_spec idx (len rows - 1)) as [Hlt|Hge].
    - destruct (Hrender (idx + 1) show_q
                  (set_user_data (browsing rows query (idx + 1) show_q)
                     (send AnswerCallback b)) ltac:(lia))
        as (msg & kb & Hcard & ->).
      eexists _, _, r. rewrite set_user_data_send, with_sent_after_send.
      split_and!; [reflexivity|lia|lia|exact Hr|].
      exists msg, kb. split; [exact Hcard|apply Hpair].
    - destruct (Hrender idx show_q (send AnswerCallback b) ltac:(lia))
        as (msg & kb & Hcard & ->).
      eexists _, _, r. rewrite Hsame, with_sent_after_send.
      split_and!; [reflexivity|lia|lia|exact Hr|].
      exists msg, kb. split; [exact Hcard|apply Hpair]. }
  rewrite (bool_decide_eq_false_2 _ Hnext) in *. cbn [andb] in *.
  destruct (decide (data = Some (str "prev"))) as [->|Hprev].
  { rewrite (bool_decide_eq_true_2 (Some (str "prev") = Some (str "prev")))
      by reflexivity.
    rewrite !(bool_decide_eq_false_2 (Some (str "prev") = _)) by discriminate.
    cbn [andb orb].
    destruct (Z.ltb_spec 0 idx) as [Hlt|Hge].
    - destruct (Hrender (idx - 1) show_q
                  (set_user_data (browsing rows query (idx - 1) show_q)
                     (send AnswerCallback b)) ltac:(lia))
        as (msg & kb & Hcard & ->).
      eexists _, _, r. rewrite set_user_data_send, with_sent_after_send.
      split_and!; [reflexivity|lia|lia|exact Hr|].
      exists msg, kb. split; [exact Hcard|apply Hpair].
    - destruct (Hrender idx show_q (send AnswerCallback b) ltac:(lia))
        as (msg & kb & Hcard & ->).
      eexists _, _, r. rewrite Hsame, with_sent_after_send.
      split_and!; [reflexivity|lia|lia|exact Hr|].
      exists msg, kb. split; [exact Hcard|apply Hpair]. }
  rewrite (bool_decide_eq_false_2 _ Hprev) in *. cbn [andb] in *.
  destruct (decide (data = Some (str "toggle_q"))) as [->|Htoggle].
  { rewrite (bool_decide_eq_true_2
               (Some (str "toggle_q") = Some (str "toggle_q"))) by reflexivity.
    rewrite !(bool_decide_eq_false_2 (Some (str "toggle_q") = _))
      by discriminate.
    cbn [orb].
    destruct (Hrender idx (negb show_q)
                (set_user_data (browsing rows query idx (negb show_q))
                   (send AnswerCallback b)) ltac:(lia))
      as (msg & kb & Hcard & ->).
    eexists _, _, r. rewrite set_user_data_send, with_sent_after_send.
    split_and!; [reflexivity|lia|lia|exact Hr|].
    exists msg, kb. split; [exact Hcard|apply Hpair]. }
  rewrite (bool_decide_eq_false_2 _ Htoggle) in *.
  destruct (decide (data = Some (str "source"))) as [->|Hsource].
  { rewrite (bool_decide_eq_true_2
               (Some (str "source") = Some (str "source"))) by reflexivity.
    rewrite Hr. destruct (r_source_url r) as [|c url] eqn:Hurl.
    - exists (Ok tt), [], r. rewrite Hsame. unfold with_sent, send. cbn [sent].
      split_and!;
        [reflexivity|lia|lia|reflexivity|reflexivity|rewrite Hurl; reflexivity].
    - exists (Ok tt), [ReplyText (TXT_SOURCE ++ c :: url) None], r.
      rewrite Hsame, send_with_sent, with_sent_after_send.
      split_and!;
        [reflexivity|lia|lia|reflexivity|reflexivity|rewrite Hurl; reflexivity]. }
  rewrite (bool_decide_eq_false_2 _ Hsource) in *.
  destruct (decide (data = Some (str "full"))) as [->|Hfull].
  { rewrite (bool_decide_eq_true_2
               (Some (str "full") = Some (str "full"))) by reflexivity.
    rewrite Hr, send_parts_eq. eexists _, _, r.
    rewrite Hsame, with_sent_after_send.
    split_and!; [reflexivity|lia|lia|reflexivity|reflexivity|reflexivity]. }
  rewrite (bool_decide_eq_false_2 _ Hfull) in *.
  destruct (Hrender idx show_q (send AnswerCallback b) ltac:(lia))
    as (msg & kb & Hcard & ->).
  eexists _, _, r. rewrite Hsame, with_sent_after_send.
  split_and!; [reflexivity|lia|lia|exact Hr|].
  exists msg, kb. split; [exact Hcard|apply Hpair].
Qed.

(** Which button was pressed, decided by evaluation. *)
Ltac decide_data H :=
  repeat match type of H with
         | context [bool_decide (Some (str ?a) = Some (str ?b))] =>
             let v := eval vm_compute in
                        (bool_decide (Some (str a) = Some (str b))) in
             change (bool_decide (Some (str a) = Some (str b))) with v in H
         end;
  cbn [andb orb] in H.

(** X18. The buttons a card offers do what they say.  The user is at a
    position of the results kept and the message pressed shows the card of
    that position.  [next], when offered, moves to the next result and
    shows its card, which offers [prev]; [prev], when offered, moves back
    and shows a card that offers [next]; [toggle_q] shows the same result
    with the question shown or hidden: Telegram accepts these edits, the
    new card being another than the one shown.  [source], when offered,
    replies with the source; [full] replies with the full answer in at
    least one message, every visible character of it.  A [next] or [prev]
    that the card does not offer leaves the position as it is and asks for
    the same card again: Telegram refuses the edit and the handler raises
    [BadRequest], with nothing done but the press answered.  Pressed on a
    message that shows anything else, such a button puts the current card
    there. *)
Theorem offered_buttons_work
    (b : Bot) (rows : list Row) (query : pystr) (idx : Z) (show_q : bool)
    (msg : pystr) (kb : InlineKeyboardMarkup) :
  user_data b = browsing rows query idx show_q ->
  0 <= idx ->
  card query rows idx show_q = Ok (msg, kb) ->
  let shown := (msg, Some kb) in
  (offers kb "next" = true ->
   exists msg' kb',
     card query rows (idx + 1) show_q = Ok (msg', kb') /\
     on_buttons shown (Some (str "next")) b
     = (Ok tt, with_sent [AnswerCallback; EditMessageText msg' (Some kb')]
                 (set_user_data (browsing rows query (idx + 1) show_q) b)) /\
     offers kb' "prev" = true) /\
  (offers kb "prev" = true ->
   exists msg' kb',
     card query rows (idx - 1) show_q = Ok (msg', kb') /\
     on_buttons shown (Some (str "prev")) b
     = (Ok tt, with_sent [AnswerCallback; EditMessageText msg' (Some kb')]
                 (set_user_data (browsing rows query (idx - 1) show_q) b)) /\
     offers kb' "next" = true) /\
  (exists msg' kb',
     card query rows idx (negb show_q) = Ok (msg', kb') /\
     on_buttons shown (Some (str "toggle_q")) b
     = (Ok tt, with_sent [AnswerCallback; EditMessageText msg' (Some kb')]
                 (set_user_data (browsing rows query idx (negb show_q)) b))) /\
  (offers kb "source" = true ->
   exists r,
     py_getitem rows idx = Ok r /\ r_source_url r <> [] /\
     on_buttons shown (Some (str "source")) b
     = (Ok tt, with_sent [AnswerCallback;
                          ReplyText (TXT_SOURCE ++ r_source_url r) None] b)) /\
  (exists r parts,
     py_getitem rows idx = Ok r /\
     on_buttons shown (Some (str "full")) b
     = (Ok tt, with_sent (AnswerCallback
                            :: ((fun p => ReplyText p None) <$> parts)) b) /\
     parts <> [] /\
     visible (List.concat parts) = visible (format_full_answer r show_q)) /\
  (forall d : string,
     d = "next" /\ offers kb "next" = false \/
     d = "prev" /\ offers kb "prev" = false ->
     on_buttons shown (Some (str d)) b
     = (Raise BadRequest, with_sent [AnswerCallback] b) /\
     forall other,
       other <> shown ->
       on_buttons other (Some (str d)) b
       = (Ok tt, with_sent [AnswerCallback; EditMessageText msg (Some kb)] b)).
Proof.
  intros Hud Hpos Hcard shown.
  pose proof Hcard as Hinv. apply card_Ok_inv in Hinv as (r0 & Hr0 & _ & Hkb).
  assert (Hidx : 0 <= idx < len rows).
  { apply py_getitem_Ok in Hr0; [|exact Hpos].
    apply lookup_lt_Some in Hr0. unfold len. lia. }
  destruct (make_keyboard_offers idx (len rows) show_q
              (negb (bool_decide (r_source_url r0 = [])))
              (SHORT_LIMIT <? len (norm (Some (r_answer r0)))))
    as (Hprev & Hnext & _ & _ & Hsource).
  rewrite <- Hkb in Hprev, Hnext, Hsource.
  assert (Hsame : set_user_data (browsing rows query idx show_q) b = b).
  { rewrite <- Hud. apply set_user_data_same. }
  split_and!.
  - intros Hoff. rewrite Hnext in Hoff.
    destruct (on_buttons_browsing shown (Some (str "next")) b rows query idx
                show_q Hud Hidx) as (st & acts & r & Hrun & _ & _ & Hacts).
    decide_data Hrun. decide_data Hacts.
    rewrite Hoff in Hrun, Hacts. cbn [andb] in Hrun, Hacts.
    destruct Hacts as (msg' & kb' & Hcard' & Hst).
    rewrite bool_decide_eq_false_2 in Hst
      by (apply (card_other_position _ _ _ _ _ _ _ _ _ Hcard Hcard'); lia).
    injection Hst as -> ->.
    exists msg', kb'. split_and!; [exact Hcard'|exact Hrun|].
    apply card_Ok_inv in Hcard' as (r' & _ & _ & ->).
    destruct (make_keyboard_offers (idx + 1) (len rows) show_q
                (negb (bool_decide (r_source_url r' = [])))
                (SHORT_LIMIT <? len (norm (Some (r_answer r')))))
      as (-> & _). apply Z.ltb_lt. lia.
  - intros Hoff. rewrite Hprev in Hoff.
    destruct (on_buttons_browsing shown (Some (str "prev")) b rows query idx
                show_q Hud Hidx) as (st & acts & r & Hrun & _ & _ & Hacts).
    decide_data Hrun. decide_data Hacts.
    rewrite Hoff in Hrun, Hacts. cbn [andb] in Hrun, Hacts.
    destruct Hacts as (msg' & kb' & Hcard' & Hst).
    rewrite bool_decide_eq_false_2 in Hst
      by (apply (card_other_position _ _ _ _ _ _ _ _ _ Hcard Hcard'); lia).
    injection Hst as -> ->.
    exists msg', kb'. split_and!; [exact Hcard'|exact Hrun|].
    apply card_Ok_inv in Hcard' as (r' & _ & _ & ->).
    destruct (make_keyboard_offers (idx - 1) (len rows) show_q
                (negb (bool_decide (r_source_url r' = [])))
                (SHORT_LIMIT <? len (norm (Some (r_answer r')))))
      as (_ & -> & _). apply Z.ltb_lt. lia.
  - destruct (on_buttons_browsing shown (Some (str "toggle_q")) b rows query
                idx show_q Hud Hidx) as (st & acts & r & Hrun & _ & _ & Hacts).
    decide_data Hrun. decide_data Hacts.
    cbn [andb] in Hrun, Hacts.
    destruct Hacts as (msg' & kb' & Hcard' & Hst).
    rewrite bool_decide_eq_false_2 in Hst
      by (apply (card_toggled _ _ _ _ _ _ _ _ Hcard Hcard')).
    injection Hst as -> ->.
    exists msg', kb'. split; [exact Hcard'|exact Hrun].
  - intros Hoff. rewrite Hsource in Hoff.
    apply negb_true_iff, bool_decide_eq_false in Hoff.
    destruct (on_buttons_browsing shown (Some (str "source")) b rows query idx
                show_q Hud Hidx) as (st & acts & r & Hrun & _ & Hr & Hacts).
    decide_data Hrun. decide_data Hacts.
    cbn [andb] in Hrun. rewrite Hsame in Hrun. destruct Hacts as [-> Hacts].
    rewrite Hr0 in Hr. injection Hr as <-.
    exists r0. split_and!; [exact Hr0|exact Hoff|].
    rewrite Hrun, Hacts. destruct (r_source_url r0); [contradiction|reflexivity].
  - destruct (on_buttons_browsing shown (Some (str "full")) b rows query idx
                show_q Hud Hidx) as (st & acts & r & Hrun & _ & Hr & Hacts).
    decide_data Hrun. decide_data Hacts.
    cbn [andb] in Hrun. rewrite Hsame in Hrun. destruct Hacts as [-> Hacts].
    exists r, (nonblank_parts (format_full_answer r show_q)).
    split_and!.
    + exact Hr.
    + rewrite Hrun, Hacts. reflexivity.
    + apply nonblank_parts_nonempty, format_full_answer_nonblank.
    + apply nonblank_parts_spec.
  - intros d Hd.
    assert (Hstale : forall other,
              on_buttons other (Some (str d)) b
              = (if bool_decide (other = (msg, Some kb))
                 then (Raise BadRequest, with_sent [AnswerCallback] b)
                 else (Ok tt, with_sent [AnswerCallback;
                                         EditMessageText msg (Some kb)] b))).
    { intros other.
      destruct (on_buttons_browsing other (Some (str d)) b rows query idx
                  show_q Hud Hidx) as (st & acts & r & Hrun & _ & _ & Hacts).
      destruct Hd as [[-> Hoff]|[-> Hoff]].
      - rewrite Hnext in Hoff. decide_data Hrun. decide_data Hacts.
        rewrite Hoff in Hrun, Hacts. cbn [andb] in Hrun, Hacts.
        destruct Hacts as (msg' & kb' & Hcard' & Hst).
        rewrite Hcard in Hcard'. injection Hcard' as <- <-.
        rewrite Hsame in Hrun. rewrite Hrun.
        destruct (bool_decide (other = (msg, Some kb)));
          injection Hst as -> ->; reflexivity.
      - rewrite Hprev in Hoff. decide_data Hrun. decide_data Hacts.
        rewrite Hoff in Hrun, Hacts. cbn [andb] in Hrun, Hacts.
        destruct Hacts as (msg' & kb' & Hcard' & Hst).
        rewrite Hcard in Hcard'. injection Hcard' as <- <-.
        rewrite Hsame in Hrun. rewrite Hrun.
        destruct (bool_decide (other = (msg, Some kb)));
          injection Hst as -> ->; reflexivity. }
    split.
    + rewrite Hstale. rewrite bool_decide_eq_true_2 by reflexivity.
      reflexivity.
    + intros other Hother. rewrite Hstale.
      rewrite bool_decide_eq_false_2 by exact Hother. reflexivity.
Qed.


(* ----------------------------------------------------------------- *)
(** ** A question from the user *)

Lemma hybrid_search_rows_bound
    (query : option pystr) (final_k : Z) (w w1 : World)
    (best : option qa_row) (rows : list qa_row) (dbg : gmap string pyval) :
  0 <= final_k ->
  hybrid_search query final_k w = (Ok (best, rows, dbg), w1) ->
  len rows <= final_k.
Proof.
  intros Hk Hrun. unfold len.
  destruct (decide (norm query = [])) as [Hq|Hq].
  { unfold hybrid_search in Hrun. rewrite Hq in Hrun.
    rewrite bool_decide_eq_true_2 in Hrun by reflexivity.
    injection Hrun as _ <- _ _. cbn. lia. }
  rewrite hybrid_search_run in Hrun by exact Hq.
  destruct (hybrid_prepare (norm query) final_k w) as [[c|e] wp];
    [|discriminate].
  apply rank_and_fetch_shape in Hrun as (_ & _ & _ & Hnone & Hsome).
  destruct c.1 as [|i ids] eqn:Hids.
  - destruct (Hnone eq_refl) as (-> & _). cbn. lia.
  - destruct Hsome as (_ & [(_ & -> & _)|(_ & _ & Hle)]); [discriminate| |].
    + cbn. lia.
    + pose proof (slice_to_length (i :: ids) final_k Hk). lia.
Qed.

Lemma on_text_ready (message_text : option pystr) (b : Bot) :
  let text := strip (str_or message_text []) in
  text <> [] -> is_Some (con b) -> is_Some (all_q_cache b) ->
  on_text message_text b =
  match hybrid_search (Some text) 5 (world b) with
  | (Raise e, w) => (Raise e, set_world w b)
  | (Ok (_, top, _), w) =>
      match top with
      | [] =>
          (Ok tt, with_sent [ReplyText MSG_NO_ANSWER None]
                    (set_user_data no_user_data (set_world w b)))
      | _ =>
          match card text (row_tuple_to_obj <$> top) 0 false with
          | Raise e =>
              (Raise e,
               set_user_data
                 (browsing (row_tuple_to_obj <$> top) text 0 false)
                 (set_world w b))
          | Ok (msg, kb) =>
              (Ok tt, with_sent [ReplyText msg (Some kb)]
                        (set_user_data
                           (browsing (row_tuple_to_obj <$> top) text 0 false)
                           (set_world w b)))
          end
      end
  end.
Proof.
  intros text Htext [c Hc] [q Hq]. unfold on_text. fold text.
  destruct text as [|ch rest] eqn:Heq; [contradiction|]. rewrite <- Heq.
  rewrite Hc, Hq.
  destruct (hybrid_search (Some text) 5 (world b)) as [[[[best top] dbg]|e] w];
    [|reflexivity].
  destruct top as [|t top]; reflexivity.
Qed.

(** X19. What [on_text] does with a message.  A blank text does nothing.
    When the connection or the question cache is missing, one reply says
    so and no search is made.  Otherwise the stripped text is searched for
    with [final_k = 5]: an exception of the search leaves the handler as
    it is, nothing being sent; no record found (rejected or not) clears
    the four keys kept and sends the not-found reply; else between one and
    five results are kept with position 0 and the question hidden, and the
    first card is sent, with no [prev] button and a [next] button exactly
    when there is more than one result. *)
Theorem on_text_outcome (message_text : option pystr) (b : Bot) :
  let text := strip (str_or message_text []) in
  (text = [] -> on_text message_text b = (Ok tt, b)) /\
  (text <> [] -> con b = None \/ all_q_cache b = None ->
   on_text message_text b
   = (Ok tt, with_sent [ReplyText MSG_NOT_READY None] b)) /\
  (text <> [] -> is_Some (con b) -> is_Some (all_q_cache b) ->
   match hybrid_search (Some text) 5 (world b) with
   | (Raise e, w) => on_text message_text b = (Raise e, set_world w b)
   | (Ok (_, [], _), w) =>
       on_text message_text b
       = (Ok tt, with_sent [ReplyText MSG_NO_ANSWER None]
                   (set_user_data no_user_data (set_world w b)))
   | (Ok (_, top, _), w) =>
       let rows := row_tuple_to_obj <$> top in
       0 < len rows <= 5 /\
       exists msg kb,
         card text rows 0 false = Ok (msg, kb) /\
         on_text message_text b
         = (Ok tt, with_sent [ReplyText msg (Some kb)]
                     (set_user_data (browsing rows text 0 false)
                        (set_world w b))) /\
         offers kb "prev" = false /\
         (offers kb "next" = true <-> 1 < len rows)
   end).
Proof.
  intros text. split_and!.
  - intros Htext. unfold on_text. fold text. rewrite Htext. reflexivity.
  - intros Htext Hnot. unfold on_text. fold text.
    destruct text as [|ch rest]; [contradiction|].
    destruct Hnot as [-> | ->]; [reflexivity|].
    destruct (con b); reflexivity.
  - intros Htext Hcon Hcache.
    pose proof (on_text_ready message_text b Htext Hcon Hcache) as Hrun.
    fold text in Hrun.
    destruct (hybrid_search (Some text) 5 (world b))
      as [[[[best top] dbg]|e] w] eqn:Hsearch; [|exact Hrun].
    destruct top as [|t top]; [exact Hrun|].
    apply hybrid_search_rows_bound in Hsearch; [|lia].
    set (rows := row_tuple_to_obj <$> t :: top) in *.
    assert (Hlen : len rows = len (t :: top)).
    { unfold len, rows. rewrite length_fmap. reflexivity. }
    assert (Hpos : 0 < len rows).
    { rewrite Hlen. unfold len. cbn. lia. }
    cbv zeta. split; [lia|].
    destruct (card_in_range text rows 0 false ltac:(lia)) as (msg & kb & Hcard).
    rewrite Hcard in Hrun. exists msg, kb.
    split_and!; [exact Hcard|exact Hrun| |].
    + apply card_Ok_inv in Hcard as (r & _ & _ & ->).
      destruct (make_keyboard_offers 0 (len rows) false
                  (negb (bool_decide (r_source_url r = [])))
                  (SHORT_LIMIT <? len (norm (Some (r_answer r)))))
        as (-> & _). reflexivity.
    + apply card_Ok_inv in Hcard as (r & _ & _ & ->).
      destruct (make_keyboard_offers 0 (len rows) false
                  (negb (bool_decide (r_source_url r = [])))
                  (SHORT_LIMIT <? len (norm (Some (r_answer r)))))
        as (_ & -> & _). rewrite Z.ltb_lt. lia.
Qed.

(* ----------------------------------------------------------------- *)
(** ** A record asked for by its id *)

Variable py_int : pystr -> option Z.

Lemma fetch_by_id_Some (qa_id : Z) (d : database) (r : qa_row) :
  fetch_by_id qa_id d = Ok (Some r) ->
  int64 qa_id = true /\ r ∈ qa d /\ id r = qa_id.
Proof.
  unfold fetch_by_id. destruct (int64 qa_id); [|discriminate].
  intros [= Hr]. apply head_Some_elem_of in Hr.
  apply list_elem_of_filter in Hr as [Hid Hin]. split_and!; done.
Qed.

Lemma fetch_by_id_None (qa_id : Z) (d : database) :
  fetch_by_id qa_id d = Ok None ->
  int64 qa_id = true /\ Forall (fun r => id r <> qa_id) (qa d).
Proof.
  unfold fetch_by_id. destruct (int64 qa_id); [|discriminate].
  intros [= Hfetch]. split; [reflexivity|].
  apply head_None in Hfetch.
  apply Forall_forall. intros r Hr Hid.
  assert (Hin : r ∈ filter (fun r => id r = qa_id) (qa d)).
  { apply list_elem_of_filter. split; assumption. }
  rewrite Hfetch in Hin. inversion Hin.
Qed.

Lemma fetch_by_id_Raise (qa_id : Z) (d : database) (e : exn) :
  fetch_by_id qa_id d = Raise e -> int64 qa_id = false /\ e = OverflowError.
Proof.
  unfold fetch_by_id. destruct (int64 qa_id); [discriminate|].
  intros [= <-]. split; reflexivity.
Qed.

(** The outcome of [/id], by cases. *)
Lemma id_cmd_cases (args : list pystr) (b : Bot) :
  (exists replies,
     id_cmd py_int args b
     = (Ok tt, with_sent ((fun p => ReplyText p None) <$> replies) b)) \/
  id_cmd py_int args b = (Raise OverflowError, b).
Proof.
  unfold id_cmd. destruct args as [|arg args]; [left; exists [MSG_USAGE]; done|].
  destruct (py_int arg) as [qa_id|]; [|left; exists [MSG_NOT_A_NUMBER]; done].
  destruct (con b); [|left; exists [MSG_NO_CONNECTION]; done].
  destruct (fetch_by_id qa_id (db (world b))) as [[r|]|e] eqn:Hfetch.
  - left. rewrite send_parts_eq. eauto.
  - left. exists [MSG_NO_SUCH_ID]. done.
  - right. apply fetch_by_id_Raise in Hfetch as [_ ->]. reflexivity.
Qed.

(** X20. What [/id] does.  It replies with the usage when there is no
    argument, with a notice when the argument is not a number and, the
    argument being a number, when there is no connection.  With a
    connection, a number that is not of 64 bits makes the query raise
    [OverflowError], which the handler does not catch: nothing is sent.
    Otherwise the reply is a notice when no record has that id, and else
    the full answer of a record of [qa] with that id, question included, in
    messages of at most [FULL_CHUNK] characters that hold all its visible
    characters: one message, the text itself, when it fits.  Whenever the
    handler returns it has replied, and it has touched neither the search
    state nor what is kept for the user. *)
Theorem id_cmd_outcome (args : list pystr) (b : Bot) :
  match args with
  | [] => id_cmd py_int args b = (Ok tt, with_sent [ReplyText MSG_USAGE None] b)
  | arg :: _ =>
      match py_int arg, con b with
      | None, _ =>
          id_cmd py_int args b
          = (Ok tt, with_sent [ReplyText MSG_NOT_A_NUMBER None] b)
      | Some _, None =>
          id_cmd py_int args b
          = (Ok tt, with_sent [ReplyText MSG_NO_CONNECTION None] b)
      | Some qa_id, Some _ =>
          if int64 qa_id then
            exists replies,
              id_cmd py_int args b
              = (Ok tt, with_sent ((fun p => ReplyText p None) <$> replies) b)
              /\ replies <> [] /\
              match fetch_by_id qa_id (db (world b)) with
              | Ok None =>
                  replies = [MSG_NO_SUCH_ID] /\
                  Forall (fun r => id r <> qa_id) (qa (db (world b)))
              | Ok (Some r) =>
                  r ∈ qa (db (world b)) /\ id r = qa_id /\
                  let full := format_full_answer (row_tuple_to_obj r) true in
                  visible (List.concat replies) = visible full /\
                  Forall (fun p => 0 < len p <= FULL_CHUNK) replies /\
                  (len full <= FULL_CHUNK -> replies = [full])
              | Raise _ => False
              end
          else
            fetch_by_id qa_id (db (world b)) = Raise OverflowError /\
            id_cmd py_int args b = (Raise OverflowError, b)
      end
  end.
Proof.
  unfold id_cmd. destruct args as [|arg args]; [reflexivity|].
  destruct (py_int arg) as [qa_id|]; [|reflexivity].
  destruct (con b) as [c|]; [|reflexivity].
  destruct (fetch_by_id qa_id (db (world b))) as [[r|]|e] eqn:Hfetch.
  - apply fetch_by_id_Some in Hfetch as (-> & Hin & Hid).
    set (full := format_full_answer (row_tuple_to_obj r) true).
    exists (nonblank_parts full). rewrite send_parts_eq.
    pose proof (format_full_answer_nonblank (row_tuple_to_obj r) true) as Hnb.
    fold full in Hnb.
    destruct (nonblank_parts_spec full) as (_ & _ & Hall & Hvis & Hone).
    split_and!; try assumption; try reflexivity.
    + apply nonblank_parts_nonempty. exact Hnb.
    + eapply Forall_impl; [exact Hall|]. intros p [_ Hp]. exact Hp.
    + intros Hshort. apply Hone; assumption.
  - apply fetch_by_id_None in Hfetch as [-> Hnone].
    exists [MSG_NO_SUCH_ID].
    split_and!; [reflexivity|discriminate|reflexivity|exact Hnone].
  - apply fetch_by_id_Raise in Hfetch as [-> ->]. split; reflexivity.
Qed.

(* ----------------------------------------------------------------- *)
(** ** What the handlers keep between updates *)

(** X21. What the handlers keep for a user is always coherent: nothing,
    or a list of results that is not empty and a position inside it.
    From a coherent state a button press leaves the state coherent and
    changes neither the results, the query nor the search state, whether
    it returns or raises; it raises nothing but [BadRequest], and that
    only when the message pressed already shows what the handler asks
    for: the notice that nothing is kept, or the card of the position now
    kept.  [on_text] leaves the state coherent whatever its outcome, and
    when it raises it has changed nothing kept and sent nothing.  [/id]
    does not touch what is kept; it raises nothing but [OverflowError],
    and has then sent nothing. *)
Theorem user_data_stays_coherent (b : Bot) :
  coherent (user_data b) ->
  (forall shown data,
     let res := on_buttons shown data b in
     coherent (user_data res.2) /\
     world res.2 = world b /\
     ud_results (user_data res.2) = ud_results (user_data b) /\
     ud_query (user_data res.2) = ud_query (user_data b) /\
     (res.1 = Ok tt \/ res.1 = Raise BadRequest) /\
     (res.1 = Raise BadRequest ->
      sent res.2 = sent b ++ [AnswerCallback] /\
      (user_data res.2 = no_user_data /\ shown = (MSG_NO_RESULTS, None) \/
       exists rows query idx show_q msg kb,
         user_data res.2 = browsing rows query idx show_q /\
         card query rows idx show_q = Ok (msg, kb) /\
         shown = (msg, Some kb)))) /\
  (forall message_text,
     coherent (user_data (on_text message_text b).2) /\
     ((on_text message_text b).1 <> Ok tt ->
      user_data (on_text message_text b).2 = user_data b /\
      sent (on_text message_text b).2 = sent b)) /\
  (forall args,
     let res := id_cmd py_int args b in
     user_data res.2 = user_data b /\
     world res.2 = world b /\
     (res.1 = Ok tt \/ res.1 = Raise OverflowError /\ sent res.2 = sent b)).
Proof.
  intros Hco. split_and!.
  - intros shown data res. subst res.
    destruct Hco as [Hnone|(rows & query & idx & show_q & Hidx & Hud)].
    + unfold on_buttons. cbn [user_data send]. rewrite Hnone.
      cbn [no_user_data ud_results default from_option].
      unfold Datatypes.id, edit_message_text.
      destruct (bool_decide (shown = (MSG_NO_RESULTS, None))) eqn:Hshown;
        cbn [fst snd user_data world send sent]; rewrite ?Hnone.
      * apply bool_decide_eq_true in Hshown.
        split_and!; try reflexivity; [left; reflexivity|right; reflexivity|].
        intros _. split; [reflexivity|]. left. split; [reflexivity|exact Hshown].
      * split_and!; try reflexivity; [left; reflexivity..|].
        discriminate.
    + destruct (on_buttons_browsing shown data b rows query idx show_q Hud Hidx)
        as (st & acts & r & -> & Hin & _ & Hacts).
      cbn [fst snd with_sent set_user_data user_data world sent].
      rewrite Hud.
      assert (Hst : (st = Ok tt \/ st = Raise BadRequest) /\
                (st = Raise BadRequest ->
                 acts = [] /\
                 exists msg kb,
                   card query rows
                     (if bool_decide (data = Some (str "next"))
                         && (idx <? len rows - 1)
                      then idx + 1
                      else if bool_decide (data = Some (str "prev"))
                              && (0 <? idx)
                           then idx - 1 else idx)
                     (if bool_decide (data = Some (str "toggle_q"))
                      then negb show_q else show_q) = Ok (msg, kb) /\
                   shown = (msg, Some kb))).
      { destruct (bool_decide (data = Some (str "source")));
          [destruct Hacts as [-> _]; split; [left; reflexivity|discriminate]|].
        destruct (bool_decide (data = Some (str "full")));
          [destruct Hacts as [-> _]; split; [left; reflexivity|discriminate]|].
        destruct Hacts as (msg & kb & Hcard & Hpair).
        destruct (bool_decide (shown = (msg, Some kb))) eqn:Hshown;
          injection Hpair as -> ->.
        - apply bool_decide_eq_true in Hshown.
          split; [right; reflexivity|]. intros _. split; [reflexivity|].
          exists msg, kb. split; [exact Hcard|exact Hshown].
        - split; [left; reflexivity|discriminate]. }
      destruct Hst as [Hst Hbad].
      split_and!; try reflexivity.
      * right. eexists _, _, _, _. split; [exact Hin|reflexivity].
      * exact Hst.
      * intros Hraise. destruct (Hbad Hraise) as (-> & msg & kb & Hcard & ->).
        split; [reflexivity|]. right.
        eexists _, _, _, _, msg, kb.
        split_and!; [reflexivity|exact Hcard|reflexivity].
  - intros message_text.
    destruct (decide (strip (str_or message_text []) = [])) as [Htext|Htext].
    { unfold on_text. rewrite Htext. cbn. split; [exact Hco|].
      intros Hne. contradiction. }
    destruct (con b) as [c|] eqn:Hc.
    2: { unfold on_text. rewrite Hc.
         destruct (strip (str_or message_text [])); [contradiction|]. cbn.
         split; [exact Hco|]. intros Hne. contradiction. }
    destruct (all_q_cache b) as [q|] eqn:Hq.
    2: { unfold on_text. rewrite Hc, Hq.
         destruct (strip (str_or message_text [])); [contradiction|]. cbn.
         split; [exact Hco|]. intros Hne. contradiction. }
    rewrite (on_text_ready message_text b Htext) by (rewrite ?Hc, ?Hq; eauto).
    destruct (hybrid_search (Some (strip (str_or message_text []))) 5 (world b))
      as [[[[best top] dbg]|e] w].
    2: { cbn. split; [exact Hco|]. intros _. split; reflexivity. }
    destruct top as [|t top].
    { cbn. split; [left; reflexivity|]. intros Hne. contradiction. }
    set (rows := row_tuple_to_obj <$> t :: top).
    assert (Hpos : 0 <= 0 < len rows).
    { unfold len, rows. rewrite length_fmap. cbn. lia. }
    destruct (card_in_range (strip (str_or message_text [])) rows 0 false Hpos)
      as (msg & kb & ->). cbn.
    split; [|intros Hne; contradiction].
    right. eexists _, _, 0, _. split; [exact Hpos|reflexivity].
  - intros args res. subst res.
    destruct (id_cmd_cases args b) as [[replies ->]| ->];
      cbn [fst snd with_sent user_data world sent];
      split_and!; try reflexivity; [left; reflexivity|].
    right. split; reflexivity.
Qed.

End HandlerProperties.

(* ================================================================= *)
(** * The properties on the example installation *)

#[local] Existing Instance example_env.

Lemma descendingb_sound (sims : list float) :
  descendingb sims = true -> descending sims.
Proof.
  unfold descending. induction sims as [|x rest IH]; [constructor|].
  cbn [descendingb]. intros Hb. apply andb_prop in Hb as [Hx Hrest].
  constructor; [exact (IH Hrest)|].
  apply List.Forall_forall. intros y Hy.
  rewrite forallb_forall in Hx. exact (Hx y Hy).
Qed.

(** The example index answers in non-increasing order of similarity. *)
Lemma example_search_descending (ix : faiss_index) (v : list f32) (k : Z)
    (res : list (float * Z)) :
  faiss_search ix v k = Ok res -> descending res.*1.
Proof.
  cbn [faiss_search example_env]. unfold example_search.
  destruct v as [|x [|y v]];
    [| repeat (destruct (x =? _)) |];
    intros [= <-]; apply descendingb_sound; vm_compute; reflexivity.
Qed.

(** C1, the claim as stated fails: asked for 51 records, the index returns
    51 candidates, all below the threshold; the query is rejected and the
    diagnostics list 50 of the 51. *)
Lemma rejected_diagnostics_are_cut :
  exists dbg,
    (hybrid_prepare (norm (Some (str "abc"))) 51 large_world).1
    = Ok (seqZ 100 51, replicate 51 0.25%float) /\
    PrimFloat.ltb 0.25 (_sem_thr (glob large_world)) = true /\
    (hybrid_search (Some (str "abc")) 51 large_world).1
    = Ok (None, [], dbg) /\
    dbg !! "rejected" = Some (PBool true) /\
    dbg !! "topn_ids" = Some (PInts (seqZ 100 50)) /\
    dbg !! "topn_ids" <> Some (PInts (seqZ 100 51)) /\
    dbg !! "topn_sims" = Some (PFloats (replicate 50 0.25%float)) /\
    dbg !! "topn_sims" <> Some (PFloats (replicate 51 0.25%float)).
Proof.
  eexists. split_and!.
  - vm_compute. reflexivity.
  - vm_compute. reflexivity.
  - vm_compute. reflexivity.
  - vm_compute. reflexivity.
  - vm_compute. reflexivity.
  - vm_compute. discriminate.
  - vm_compute. reflexivity.
  - vm_compute. discriminate.
Qed.

(** A rejected query on the example installation: best similarity 0.25. *)
Lemma rejected_query_diagnostics_witness :
  let query := Some (str "bb") in
  let w1 := (hybrid_prepare (norm query) 5 example_world).2 in
  norm query <> [] /\
  hybrid_prepare (norm query) 5 example_world
  = (Ok ([10; 20], [0.25; 0.125]%float), w1) /\
  PrimFloat.ltb 0.25 (_sem_thr (glob w1)) = true /\
  exists dbg : diagnostics,
    hybrid_search query 5 example_world = (Ok (None, [], dbg), w1) /\
    dbg !! "rejected" = Some (PBool true) /\
    dbg !! "best_sim" = Some (PFloat 0.25) /\
    dbg !! "topn_ids" = Some (PInts [10; 20]).
Proof.
  intros query w1.
  assert (Hq : norm query <> []) by (vm_compute; discriminate).
  assert (Hprep : hybrid_prepare (norm query) 5 example_world
                  = (Ok ([10; 20], [0.25; 0.125]%float), w1))
    by (vm_compute; reflexivity).
  assert (Hlt : PrimFloat.ltb 0.25 (_sem_thr (glob w1)) = true)
    by (vm_compute; reflexivity).
  split_and!; [exact Hq|exact Hprep|exact Hlt|].
  destruct (rejected_query_diagnostics query 5 example_world w1 [10; 20]
              [0.25; 0.125]%float [0.125%float] 0.25%float Hq Hprep eq_refl Hlt)
    as (dbg & Hrun & Hrej & Hbest & _ & Hids & _ & _).
  exists dbg. split_and!; [exact Hrun|exact Hrej|exact Hbest|exact Hids].
Defined.

(** C2, the claim as stated fails: with [final_k = -1] the slice
    [top_ids[:-1]] keeps two of the three candidates, one of which has a
    record, and one record is more than [-1]. *)
Lemma negative_final_k_returns_records :
  exists best dbg,
    (hybrid_search (Some (str "a")) (-1) example_world).1
    = Ok (best, [example_row 20], dbg) /\
    ~ (Z.of_nat (length [example_row 20]) <= -1).
Proof.
  eexists _, _. split.
  - vm_compute. reflexivity.
  - cbn. lia.
Qed.

(** Two records asked for on the example installation: one comes back,
    since the best candidate has no record. *)
Lemma ranked_records_bounded_descending_witness :
  let query := Some (str "a") in
  let w1 := (hybrid_prepare (norm query) 2 example_world).2 in
  (forall ix v k res, faiss_search ix v k = Ok res -> descending res.*1) /\
  0 <= 2 /\
  norm query <> [] /\
  hybrid_prepare (norm query) 2 example_world
  = (Ok ([30; 20; 10], [0.875; 0.75; 0.5]%float), w1) /\
  exists best records dbg w2 (scored : list (qa_row * float)),
    hybrid_search query 2 example_world = (Ok (best, records, dbg), w2) /\
    Z.of_nat (length records) <= 2 /\
    records = scored.*1 /\
    descending scored.*2.
Proof.
  intros query w1.
  assert (Hq : norm query <> []) by (vm_compute; discriminate).
  assert (Hprep : hybrid_prepare (norm query) 2 example_world
                  = (Ok ([30; 20; 10], [0.875; 0.75; 0.5]%float), w1))
    by (vm_compute; reflexivity).
  assert (Hk : 0 <= 2) by lia.
  split_and!; [exact example_search_descending|exact Hk|exact Hq|exact Hprep|].
  destruct (ranked_records_bounded_descending query 2 example_world w1
              [30; 20; 10] [0.875; 0.75; 0.5]%float
              example_search_descending Hk Hq Hprep)
    as (best & records & dbg & w2 & scored & Hrun & Hlen & Hrec & _ & Hdesc).
  exists best, records, dbg, w2, scored.
  split_and!; [exact Hrun|exact Hlen|exact Hrec|exact Hdesc].
Defined.

(** C3, the claim as stated fails: on the read-only database the query is
    not in the cache, its embedding is computed, the write to the cache
    raises, and so does the search. *)
Lemma cache_write_failure_fails_search :
  let query := str "a" in
  let wa := (hybrid_setup readonly_world).2 in
  get_cached_query_emb query wa = (Ok None, wa) /\
  (put_cached_query_emb query query [1]
     (add_log [EvEncode (str "m") query] wa)).1 = Raise OperationalError /\
  (hybrid_search (Some query) 5 readonly_world).1 = Raise OperationalError /\
  ~ (exists r, (hybrid_search (Some query) 5 readonly_world).1 = Ok r).
Proof.
  intros query wa. split_and!.
  - vm_compute. reflexivity.
  - vm_compute. reflexivity.
  - vm_compute. reflexivity.
  - intros [r Hr]. vm_compute in Hr. discriminate.
Qed.

(** The failing write on the read-only database, step by step. *)
Lemma cache_write_failure_propagates_witness :
  let query := Some (str "a") in
  let wa := (hybrid_setup readonly_world).2 in
  let wb := add_log [EvEncode (str "m") (str "a")] wa in
  norm query <> [] /\
  hybrid_setup readonly_world = (Ok tt, wa) /\
  query_hash (Some (norm query)) = Ok (str "a") /\
  get_cached_query_emb (str "a") wa = (Ok None, wa) /\
  _st_model (glob wa) = Some (str "m") /\
  st_encode (str "m") (norm query) = Ok [1] /\
  put_cached_query_emb (str "a") (norm query) [1] wb
  = (Raise OperationalError, wb) /\
  hybrid_search query 5 readonly_world = (Raise OperationalError, wb).
Proof.
  intros query wa wb.
  assert (Hq : norm query <> []) by (vm_compute; discriminate).
  assert (Hsetup : hybrid_setup readonly_world = (Ok tt, wa))
    by (vm_compute; reflexivity).
  assert (Hqh : query_hash (Some (norm query)) = Ok (str "a"))
    by (vm_compute; reflexivity).
  assert (Hget : get_cached_query_emb (str "a") wa = (Ok None, wa))
    by (vm_compute; reflexivity).
  assert (Hmodel : _st_model (glob wa) = Some (str "m"))
    by (vm_compute; reflexivity).
  assert (Henc : st_encode (str "m") (norm query) = Ok [1])
    by (vm_compute; reflexivity).
  assert (Hput : put_cached_query_emb (str "a") (norm query) [1] wb
                 = (Raise OperationalError, wb))
    by (vm_compute; reflexivity).
  split_and!; try assumption.
  exact (cache_write_failure_propagates query 5 readonly_world wa wb
           (str "a") (str "m") [1] OperationalError
           Hq Hsetup Hqh Hget Hmodel Henc Hput).
Defined.

(** C4, the claim as stated fails: no row has the requested model, the
    loader falls back to all rows, both hold a vector, and stacking
    vectors of dimensions one and two raises [ValueError]: usable rows
    remain and yet no ids and matrix are returned. *)
Lemma mixed_dimensions_raise :
  filter (fun r => v_model_name r = str "m") (qa_vec mixed_db) = [] /\
  usable_rows (str "q") (select_rows (str "m") mixed_db)
  = [example_vec 1 "a" [7]; example_vec 2 "b" [5; 6]] /\
  load_all_embeddings mixed_db (str "m") (str "q") = Raise ValueError.
Proof.
  split_and!; vm_compute; reflexivity.
Qed.

(** The loader on the example database: three usable rows of dimension
    one, returned in the order of their ids. *)
Lemma load_all_embeddings_outcome_witness :
  let usable := usable_rows (str "q") (select_rows (str "m") example_db) in
  usable = [example_vec 10 "m" [7]; example_vec 20 "m" [5];
            example_vec 30 "m" [9]] /\
  Forall (well_stored (str "q") 1) usable /\
  load_all_embeddings example_db (str "m") (str "q")
  = Ok ([10; 20; 30], l2_normalize_rows [[7]; [5]; [9]]).
Proof.
  intros usable.
  assert (Husable : usable = [example_vec 10 "m" [7]; example_vec 20 "m" [5];
                              example_vec 30 "m" [9]])
    by (vm_compute; reflexivity).
  assert (Hstored : Forall (well_stored (str "q") 1) usable).
  { rewrite Husable. repeat constructor; eexists;
      (split; [vm_compute; reflexivity|split; [reflexivity|cbn; lia]]). }
  assert (Hne : usable <> []) by (rewrite Husable; discriminate).
  split_and!; [exact Husable|exact Hstored|].
  destruct (load_all_embeddings_outcome example_db (str "m") (str "q"))
    as (_ & _ & _ & _ & Hload & _).
  rewrite (Hload 1%nat Hne Hstored). fold usable. rewrite Husable.
  vm_compute. reflexivity.
Defined.

(** The same question asked twice, the second time with other spacing:
    one call of the embedding provider in all. *)
Lemma repeated_query_hits_cache_witness :
  let q1 := Some (str "a") in
  let q2 := Some [32; 32; 97; 10; 32]%N in   (* two spaces, a, newline, space *)
  let w1 := (hybrid_search q1 5 example_world).2 in
  norm q1 = norm q2 /\
  norm q1 <> [] /\
  (exists r1, hybrid_search q1 5 example_world = (Ok r1, w1)) /\
  query_hash q1 = query_hash q2 /\
  encode_calls w1 = 1%nat /\
  encode_calls (hybrid_search q2 5 w1).2 = encode_calls w1.
Proof.
  intros q1 q2 w1.
  assert (Hnorm : norm q1 = norm q2) by (vm_compute; reflexivity).
  assert (Hq : norm q1 <> []) by (vm_compute; discriminate).
  assert (Hrun : exists r1, hybrid_search q1 5 example_world = (Ok r1, w1))
    by (eexists; vm_compute; reflexivity).
  destruct Hrun as [r1 Hrun].
  destruct (repeated_query_hits_cache q1 q2 5 5 example_world w1 r1 Hnorm)
    as (Hhash & _ & Hsecond).
  destruct (Hsecond Hq Hrun) as (qh & row & v & _ & _ & _ & _ & _ & _ & Hcalls).
  split_and!; [exact Hnorm|exact Hq|exists r1; exact Hrun|exact Hhash| |exact Hcalls].
  vm_compute. reflexivity.
Defined.

(** A query made of whitespace only. *)
Lemma empty_query_returns_at_once_witness :
  let query := Some [10; 32; 9; 32]%N in   (* newline, space, tab, space *)
  norm query = [] /\
  hybrid_search query 5 example_world = (Ok (None, [], ∅), example_world) /\
  log (hybrid_search query 5 example_world).2 = [].
Proof.
  intros query.
  assert (Hq : norm query = []) by (vm_compute; reflexivity).
  split; [exact Hq|].
  exact (empty_query_returns_at_once query 5 example_world Hq).
Defined.

(** An accepted query: candidates 30, 20, 10 in this order, the store
    holds 10 and 20 (fetched in this order), the answer is 20, 10. *)
Lemma accepted_query_records_witness :
  let query := Some (str "a") in
  let w1 := (hybrid_prepare (norm query) 5 example_world).2 in
  norm query <> [] /\
  hybrid_prepare (norm query) 5 example_world
  = (Ok ([30; 20; 10], [0.875; 0.75; 0.5]%float), w1) /\
  PrimFloat.ltb 0.875 (_sem_thr (glob w1)) = false /\
  qa (db w1) = [example_row 10; example_row 20] /\
  exists dbg : diagnostics,
    hybrid_search query 5 example_world
    = (Ok (Some (example_row 20), [example_row 20; example_row 10], dbg),
       add_log [EvFetch [30; 20; 10]] w1).
Proof.
  intros query w1.
  assert (Hq : norm query <> []) by (vm_compute; discriminate).
  assert (Hprep : hybrid_prepare (norm query) 5 example_world
                  = (Ok ([30; 20; 10], [0.875; 0.75; 0.5]%float), w1))
    by (vm_compute; reflexivity).
  assert (Hge : PrimFloat.ltb 0.875 (_sem_thr (glob w1)) = false)
    by (vm_compute; reflexivity).
  split_and!; [exact Hq|exact Hprep|exact Hge|vm_compute; reflexivity|].
  destruct (accepted_query_records query 5 example_world w1 [30; 20; 10]
              [0.875; 0.75; 0.5]%float [0.75; 0.5]%float 0.875%float
              Hq Hprep eq_refl Hge)
    as (_ & (dbg & Hrun & _) & _).
  exists dbg. rewrite Hrun. vm_compute. reflexivity.
Defined.

(** An accepted query whose only candidate, 30, has no record. *)
Lemma accepted_query_without_records_witness :
  let query := Some (str "abcd") in
  let w1 := (hybrid_prepare (norm query) 5 example_world).2 in
  norm query <> [] /\
  hybrid_prepare (norm query) 5 example_world
  = (Ok ([30], [0.875%float]), w1) /\
  PrimFloat.ltb 0.875 (_sem_thr (glob w1)) = false /\
  Forall (fun i => i ∉ id <$> qa (db w1)) (slice_to [30] 5) /\
  exists dbg : diagnostics,
    hybrid_search query 5 example_world
    = (Ok (None, [], dbg), add_log [EvFetch (slice_to [30] 5)] w1) /\
    dbg !! "rejected" = Some (PBool false).
Proof.
  intros query w1.
  assert (Hq : norm query <> []) by (vm_compute; discriminate).
  assert (Hprep : hybrid_prepare (norm query) 5 example_world
                  = (Ok ([30], [0.875%float]), w1))
    by (vm_compute; reflexivity).
  assert (Hge : PrimFloat.ltb 0.875 (_sem_thr (glob w1)) = false)
    by (vm_compute; reflexivity).
  assert (Hmiss : Forall (fun i => i ∉ id <$> qa (db w1)) (slice_to [30] 5)).
  { repeat constructor. vm_compute. intros Hin.
    repeat (apply elem_of_cons in Hin as [Hin|Hin]; [discriminate|]).
    inversion Hin. }
  split_and!; [exact Hq|exact Hprep|exact Hge|exact Hmiss|].
  exact (accepted_query_without_records query 5 example_world w1 [30]
           [0.875%float] [] 0.875%float Hq Hprep eq_refl Hge Hmiss).
Defined.

(* ----------------------------------------------------------------- *)
(** ** Further properties, on the example installation *)

(** The patterns of 1.0 and 0.0 written to the cache and read back. *)
Lemma cache_put_then_get_witness :
  let emb := [1065353216; 0] in
  let w1 := (put_cached_query_emb (str "k") (str "a") emb large_world).2 in
  put_cached_query_emb (str "k") (str "a") emb large_world = (Ok tt, w1) /\
  Forall is_f32 emb /\
  get_cached_query_emb (str "k") w1 = (Ok (Some emb), w1).
Proof.
  intros emb w1.
  assert (Hput : put_cached_query_emb (str "k") (str "a") emb large_world
                 = (Ok tt, w1)) by (vm_compute; reflexivity).
  assert (Hemb : Forall is_f32 emb).
  { repeat constructor; unfold is_f32; lia. }
  split_and!; [exact Hput|exact Hemb|].
  exact (proj1 (cache_put_then_get (str "k") (str "a") emb large_world w1
                  Hput Hemb)).
Defined.

(** The answer to "a" on the example installation: two records, the best
    one first, not rejected. *)
Lemma hybrid_search_answer_shape_witness :
  let res := hybrid_search (Some (str "a")) 5 example_world in
  let dbg : diagnostics :=
    match res.1 with Ok r => r.2 | Raise _ => ∅ end in
  res = (Ok (Some (example_row 20), [example_row 20; example_row 10], dbg),
         res.2) /\
  (dbg !! "rejected" = None <-> dbg !! "best_sim" = None) /\
  (is_Some (dbg !! "top_ids") <-> dbg !! "rejected" = Some (PBool false)).
Proof.
  intros res dbg.
  assert (Hrun : hybrid_search (Some (str "a")) 5 example_world
                 = (Ok (Some (example_row 20),
                        [example_row 20; example_row 10], dbg), res.2))
    by (vm_compute; reflexivity).
  destruct (hybrid_search_answer_shape _ _ _ _ _ _ _ Hrun)
    as (_ & _ & _ & Hbest & _ & Htop & _).
  split_and!; [exact Hrun|exact Hbest|exact Htop].
Defined.

(** The same question asked again with other spacing: the same answer,
    after one search of the index and one lookup of the records. *)
Lemma hybrid_search_repeatable_witness :
  let q1 := Some (str "a") in
  let q2 := Some [32; 32; 97; 10; 32]%N in   (* two spaces, a, newline, space *)
  let res := hybrid_search q1 5 example_world in
  let r : option qa_row * list qa_row * diagnostics :=
    match res.1 with Ok r => r | Raise _ => (None, [], ∅) end in
  norm q1 <> [] /\
  norm q2 = norm q1 /\
  (forall m v, st_encode m (norm q1) = Ok v -> Forall is_f32 v) /\
  res = (Ok r, res.2) /\
  r.1.2 = [example_row 20; example_row 10] /\
  exists evs,
    hybrid_search q2 5 res.2 = (Ok r, add_log evs res.2) /\
    Forall (fun ev => (2 <= call_stage ev)%nat) evs.
Proof.
  intros q1 q2 res r.
  assert (Hq : norm q1 <> []) by (vm_compute; discriminate).
  assert (Hnorm : norm q2 = norm q1) by (vm_compute; reflexivity).
  assert (Hf32 : forall m v, st_encode m (norm q1) = Ok v -> Forall is_f32 v).
  { intros m v [= <-]. repeat constructor; unfold is_f32; cbn; lia. }
  assert (Hrun : hybrid_search q1 5 example_world = (Ok r, res.2))
    by (vm_compute; reflexivity).
  split_and!; [exact Hq|exact Hnorm|exact Hf32|exact Hrun
              |vm_compute; reflexivity|].
  exact (hybrid_search_repeatable q1 q2 5 example_world res.2 r
           Hq Hnorm Hf32 Hrun).
Defined.

(** The loader on the example database: ids 10, 20, 30 and three rows of
    dimension one. *)
Lemma load_all_embeddings_shape_witness :
  load_all_embeddings example_db (str "m") (str "q")
  = Ok ([10; 20; 30], [[7]; [5]; [9]]) /\
  Sorted Z.le [10; 20; 30] /\
  exists n : nat,
    Forall (fun row : list Z => length row = n) [[7]; [5]; [9]] /\
    build_faiss_index [[7]; [5]; [9]]
    = {| ix_d := Z.of_nat n; ix_rows := [[7]; [5]; [9]] |}.
Proof.
  assert (Hload : load_all_embeddings example_db (str "m") (str "q")
                  = Ok ([10; 20; 30], [[7]; [5]; [9]]))
    by (vm_compute; reflexivity).
  destruct (load_all_embeddings_shape _ _ _ _ _ Hload)
    as (_ & _ & Hsorted & _ & Hrows).
  split_and!; [exact Hload|exact Hsorted|exact Hrows].
Defined.

(** The start of the process on the example database, then a second call
    that asks for another model and another threshold. *)
Lemma init_models_once_is_once_witness :
  let w1 := (init_models_once (Some tt) (str "m") (str "q") 0.5%float
               example_world).2 in
  init_models_once (Some tt) (str "m") (str "q") 0.5%float example_world
  = (Ok tt, w1) /\
  _st_model (glob w1) = Some (str "m") /\
  (init_models_once None (str "other") (str "a") 0.75%float w1).1 = Ok tt /\
  _st_model (glob (init_models_once None (str "other") (str "a") 0.75%float
                     w1).2) = Some (str "m") /\
  log (init_models_once None (str "other") (str "a") 0.75%float w1).2
  = [EvLoadModel (str "m")].
Proof.
  intros w1.
  assert (Hrun : init_models_once (Some tt) (str "m") (str "q") 0.5%float
                   example_world = (Ok tt, w1)) by (vm_compute; reflexivity).
  destruct (init_models_once_is_once _ _ _ _ _ _ Hrun)
    as (_ & _ & _ & Hagain).
  rewrite (Hagain None (str "other") (str "a") 0.75%float).
  split_and!; [exact Hrun|vm_compute; reflexivity|reflexivity
              |vm_compute; reflexivity|vm_compute; reflexivity].
Defined.

(** A process that has just started, asked to load without a connection:
    the model is loaded and kept, the threshold is set, the call raises. *)
Lemma init_models_once_without_connection_witness :
  let res := init_models_once None (str "m") (str "q") 0.5%float
               example_world in
  (_faiss_index (glob example_world) = None \/
   _faiss_ids (glob example_world) = None) /\
  res.1 = Raise (RuntimeError NeedConnection) /\
  _st_model (glob res.2) = Some (str "m") /\
  _sem_thr (glob res.2) = 0.5%float.
Proof.
  intros res.
  assert (Hmissing : _faiss_index (glob example_world) = None \/
                     _faiss_ids (glob example_world) = None)
    by (left; reflexivity).
  destruct (init_models_once_without_connection (str "m") (str "q") 0.5%float
              example_world Hmissing) as (Hthr & _ & _ & Hload & _).
  destruct (Hload (str "m") eq_refl eq_refl) as (Hres & Hmodel & _).
  split_and!; [exact Hmissing|exact Hres|exact Hmodel|exact Hthr].
Defined.

(** [dense_topn] on an index of three vectors: the padding entry is
    dropped and the ids are those at the positions returned. *)
Lemma dense_topn_candidates_witness :
  let index := {| ix_d := 1; ix_rows := [[7]; [5]; [9]] |} in
  let w1 := add_log [EvEncode (str "m") (str "a"); EvSearch [1] 50]
              example_world in
  dense_topn (str "a") (str "m") index [10; 20; 30] 50 example_world
  = (Ok ([30; 20; 10], [0.875; 0.75; 0.5]%float), w1) /\
  length [30; 20; 10] = length [0.875; 0.75; 0.5]%float.
Proof.
  intros index w1.
  assert (Hrun : dense_topn (str "a") (str "m") index [10; 20; 30] 50
                   example_world
                 = (Ok ([30; 20; 10], [0.875; 0.75; 0.5]%float), w1))
    by (vm_compute; reflexivity).
  destruct (dense_topn_candidates _ _ _ _ _ _ _ _ _ Hrun)
    as (v & res & _ & _ & _ & _ & Hlen & _).
  split; [exact Hrun|exact Hlen].
Defined.

(* ----------------------------------------------------------------- *)
(** ** The front end, on examples *)

(** Seven letters cut by three: "abc", "def", "g". *)
Lemma chunk_text_partition_witness :
  0 < 3 /\
  chunk_text (Some (str "abcdefg")) 3 = Ok [str "abc"; str "def"; str "g"] /\
  List.concat [str "abc"; str "def"; str "g"] = str "abcdefg".
Proof.
  assert (Hn : 0 < 3) by lia.
  destruct (chunk_text_partition (Some (str "abcdefg")) 3 Hn)
    as (parts & Hrun & Hcat & _).
  assert (Hparts : chunk_text (Some (str "abcdefg")) 3
                   = Ok [str "abc"; str "def"; str "g"])
    by (vm_compute; reflexivity).
  rewrite Hparts in Hrun. injection Hrun as <-.
  split_and!; [exact Hn|exact Hparts|exact Hcat].
Defined.

(** A size of zero raises, a negative size loses the text. *)
Lemma chunk_text_degenerate_witness :
  -2 <= 0 /\ 0 <= 0 /\
  chunk_text (Some (str "abc")) (-2) = Ok [] /\
  chunk_text (Some (str "abc")) 0 = Raise ValueError.
Proof.
  assert (H2 : -2 <= 0) by lia. assert (H0 : 0 <= 0) by lia.
  split_and!; [exact H2|exact H0| |].
  - exact (chunk_text_degenerate (Some (str "abc")) (-2) H2).
  - exact (chunk_text_degenerate (Some (str "abc")) 0 H0).
Defined.

(** The card of the long answer: cut, with a button for the full text and
    one for the next result, and none for a source or a previous result. *)
Lemma card_matches_keyboard_witness :
  let c := match card (str "q") example_results 0 false with
           | Ok c => c
           | Raise _ => ([], [])
           end in
  card (str "q") example_results 0 false = Ok c /\
  offers c.2 "full" = true /\
  offers c.2 "next" = true /\
  offers c.2 "prev" = false /\
  offers c.2 "source" = false /\
  exists pre,
    c.1 = pre ++ str "A: " ++ replicate 900 97%N ++ [ELLIPSIS].
Proof.
  intros c.
  assert (Hcard : card (str "q") example_results 0 false = Ok (c.1, c.2))
    by (vm_compute; reflexivity).
  destruct (card_matches_keyboard _ _ _ _ _ _ Hcard)
    as (r & pre & shown & Hr & Hmsg & _ & _ & Hfull & _).
  assert (Hoff : offers c.2 "full" = true) by (vm_compute; reflexivity).
  destruct (Hfull Hoff) as [_ Hshown].
  injection Hr as <-.
  split_and!; [exact Hcard|exact Hoff|vm_compute; reflexivity..|].
  exists pre. rewrite Hmsg, Hshown. do 2 f_equal; vm_compute; reflexivity.
Defined.

(** Browsing the two example results from the first one, on the message
    that shows its card: "next" is offered and shows the second card;
    "prev" is not, and is refused. *)
Lemma offered_buttons_work_witness :
  let b := set_user_data (browsing example_results (str "q") 0 false)
             example_bot in
  let c := match card (str "q") example_results 0 false with
           | Ok c => c
           | Raise _ => ([], [])
           end in
  let shown := (c.1, Some c.2) in
  user_data b = browsing example_results (str "q") 0 false /\
  0 <= 0 /\
  card (str "q") example_results 0 false = Ok c /\
  offers c.2 "next" = true /\
  (on_buttons shown (Some (str "next")) b).1 = Ok tt /\
  ud_idx (user_data (on_buttons shown (Some (str "next")) b).2) = Some 1 /\
  offers c.2 "prev" = false /\
  on_buttons shown (Some (str "prev")) b
  = (Raise BadRequest, with_sent [AnswerCallback] b).
Proof.
  intros b c shown.
  assert (Hud : user_data b = browsing example_results (str "q") 0 false)
    by reflexivity.
  assert (Hpos : 0 <= 0) by lia.
  assert (Hcard : card (str "q") example_results 0 false = Ok (c.1, c.2))
    by (vm_compute; reflexivity).
  assert (Hnext : offers c.2 "next" = true) by (vm_compute; reflexivity).
  assert (Hprev : offers c.2 "prev" = false) by (vm_compute; reflexivity).
  destruct (offered_buttons_work b example_results (str "q") 0 false c.1 c.2
              Hud Hpos Hcard) as (Hn & _ & _ & _ & _ & Hp).
  destruct (Hn Hnext) as (msg' & kb' & _ & Hrun & _).
  destruct (Hp "prev" (or_intror (conj eq_refl Hprev))) as [Hrefused _].
  split_and!; [exact Hud|exact Hpos|exact Hcard|exact Hnext| | |exact Hprev|].
  - fold shown in Hrun. rewrite Hrun. reflexivity.
  - fold shown in Hrun. rewrite Hrun. reflexivity.
  - exact Hrefused.
Defined.

(** The question "a" on the example installation: two records are found,
    the first card is sent and the position is 0. *)
Lemma on_text_outcome_witness :
  let res := on_text (Some [32; 97; 10]%N) example_bot in   (* space, a, newline *)
  let rows := row_tuple_to_obj <$> [example_row 20; example_row 10] in
  res.1 = Ok tt /\
  user_data res.2 = browsing rows (str "a") 0 false /\
  length (sent res.2) = 1%nat.
Proof.
  intros res rows.
  destruct (on_text_outcome (Some [32; 97; 10]%N) example_bot)
    as (_ & _ & Hready).
  assert (Htext : strip (str_or (Some [32; 97; 10]%N) []) <> [])
    by (vm_compute; discriminate).
  specialize (Hready Htext ltac:(cbn; eauto) ltac:(cbn; eauto)).
  set (found := hybrid_search (Some (strip (str_or (Some [32; 97; 10]%N) [])))
                  5 (world example_bot)) in *.
  assert (Hfound :
    found = (Ok (Some (example_row 20), [example_row 20; example_row 10],
                 match found.1 with Ok r => r.2 | Raise _ => ∅ end), found.2))
    by (vm_compute; reflexivity).
  rewrite Hfound in Hready. cbv zeta in Hready.
  destruct Hready as (_ & msg & kb & _ & Hrun & _).
  subst res. rewrite Hrun. split_and!; reflexivity.
Defined.

(** While the first of the two example results is shown: "next" moves on,
    "prev" is refused by Telegram, and [/id] with a number of more than 64
    bits raises; what is kept stays coherent throughout. *)
Lemma user_data_stays_coherent_witness :
  let b := set_user_data (browsing example_results (str "q") 0 false)
             example_bot in
  let shown := match card (str "q") example_results 0 false with
               | Ok c => (c.1, Some c.2)
               | Raise _ => ([], None)
               end in
  let next := on_buttons shown (Some (str "next")) b in
  let prev := on_buttons shown (Some (str "prev")) b in
  let big := id_cmd example_int [str "99999999999999999999"] b in
  coherent (user_data b) /\
  next.1 = Ok tt /\ coherent (user_data next.2) /\
  prev.1 = Raise BadRequest /\ coherent (user_data prev.2) /\
  big.1 = Raise OverflowError /\ user_data big.2 = user_data b.
Proof.
  intros b shown next prev big.
  assert (Hco : coherent (user_data b)).
  { right. exists example_results, (str "q"), 0, false.
    split; [vm_compute; split; [discriminate|reflexivity]|reflexivity]. }
  destruct (user_data_stays_coherent example_int b Hco)
    as (Hbuttons & _ & Hid).
  destruct (Hbuttons shown (Some (str "next"))) as (Hnext & _).
  destruct (Hbuttons shown (Some (str "prev"))) as (Hprev & _).
  destruct (Hid [str "99999999999999999999"]) as (Hbig & _).
  split_and!; [exact Hco| |exact Hnext| |exact Hprev| |exact Hbig];
    vm_compute; reflexivity.
Defined.
